(** * cpa_witness2test: the verdict engine of [scripts/cpa_witness2test.py]

  A shallow embedding of the script and the properties of its
  specification parser, compile-command builder, result classifier and
  per-harness loop.

  Conventions of the embedding:
  - Python [str] values are [string]s; a character is a code point in
    0..255.  Python [int]s are [Z].
  - The verdict constants are the strings the script uses
    ([RESULT_ACCEPT = 'FALSE'], ...), an optional value is an [option].
  - The operating system is a [Platform]: process spawning, tool
    discovery and directory listing are functions on a [World] that
    holds the text files and a hidden component the processes may
    change at will.
  - Effects are threaded through the monad [M]: a state holding the
    world and the trace of what the script did (processes spawned,
    lines printed, files written), and a result that is a value or a
    raised exception.
  - Calls to [logging] write to the log stream only; they are left out. *)

From Stdlib Require Import ZArith Ascii String List Bool Lia DecimalString.
From stdpp Require Import base option list gmap strings.

Local Open Scope string_scope.
Local Open Scope Z_scope.
Local Open Scope list_scope.

(** ** Text primitives of the Python runtime *)

Module Py.

(** [x in l] for a list of strings. *)
Fixpoint list_in (x : string) (l : list string) : bool :=
  match l with
  | [] => false
  | y :: l' => String.eqb x y || list_in x l'
  end.

(** [l.index(x)]: position of the first occurrence; [length l] stands
    for the [ValueError] Python raises when there is none. *)
Fixpoint list_index (x : string) (l : list string) : nat :=
  match l with
  | [] => O
  | y :: l' => if String.eqb x y then O else S (list_index x l')
  end.

(** [l.remove(x)]: drop the first occurrence. *)
Fixpoint list_remove (x : string) (l : list string) : list string :=
  match l with
  | [] => []
  | y :: l' => if String.eqb x y then l' else y :: list_remove x l'
  end.

(** [l.count(x)]. *)
Fixpoint list_count (x : string) (l : list string) : nat :=
  match l with
  | [] => O
  | y :: l' => if String.eqb x y then S (list_count x l') else list_count x l'
  end.

(** Truth value of a string and of an optional string. *)
Definition truthy (s : string) : bool :=
  match s with EmptyString => false | String _ _ => true end.

Definition truthy_opt (o : option string) : bool :=
  match o with None => false | Some s => truthy s end.

(** [s.startswith(p)]. *)
Fixpoint startswith (p s : string) : bool :=
  match p, s with
  | EmptyString, _ => true
  | String a p', String b s' => Ascii.eqb a b && startswith p' s'
  | String _ _, EmptyString => false
  end.

(** [s.endswith(p)] for a one-character [p]. *)
Fixpoint endswith_char (c : ascii) (s : string) : bool :=
  match s with
  | EmptyString => false
  | String a EmptyString => Ascii.eqb a c
  | String _ s' => endswith_char c s'
  end.

(** [needle in hay] for strings: [needle] occurs at some position. *)
Fixpoint str_in (needle hay : string) : bool :=
  startswith needle hay ||
  match hay with
  | EmptyString => false
  | String _ hay' => str_in needle hay'
  end.

(** [str.isspace] on one code point below 256. *)
Definition isspace (c : ascii) : bool :=
  let n := N_of_ascii c in
  ((9 <=? n) && (n <=? 13) || (28 <=? n) && (n <=? 32)
   || (n =? 133) || (n =? 160))%N.

(** [c.isdigit()] restricted to what [\d] accepts below 256. *)
Definition isdigit (c : ascii) : bool :=
  let n := N_of_ascii c in ((48 <=? n) && (n <=? 57))%N.

(** [s.lstrip(chars)], [s.rstrip(chars)] and [s.strip(chars)], the set
    of characters given as a predicate. *)
Fixpoint lstrip (p : ascii -> bool) (s : string) : string :=
  match s with
  | EmptyString => EmptyString
  | String c s' => if p c then lstrip p s' else s
  end.

Fixpoint rstrip (p : ascii -> bool) (s : string) : string :=
  match s with
  | EmptyString => EmptyString
  | String c s' =>
      match rstrip p s' with
      | EmptyString => if p c then EmptyString else String c EmptyString
      | t => String c t
      end
  end.

Definition strip (p : ascii -> bool) (s : string) : string :=
  rstrip p (lstrip p s).

(** [s.split(sep)] for a one-character separator. *)
Fixpoint split (sep : ascii) (s : string) : list string :=
  match s with
  | EmptyString => [EmptyString]
  | String c s' =>
      if Ascii.eqb c sep then EmptyString :: split sep s'
      else match split sep s' with
           | [] => [String c EmptyString]
           | w :: ws => String c w :: ws
           end
  end.

(** [sep.join(l)]. *)
Fixpoint join (sep : string) (l : list string) : string :=
  match l with
  | [] => EmptyString
  | [x] => x
  | x :: l' => x +:+ sep +:+ join sep l'
  end.

(** [str(n)] for an integer. *)
Definition str_of_int (n : Z) : string :=
  NilZero.string_of_int (Z.to_int n).

(** [os.sep], [os.linesep], the tab character, and [os.path.join(a, b)]
  on a POSIX system. *)
Definition os_sep : string := "/".
Definition os_linesep : string := String "010" EmptyString.
Definition tab : string := String "009" EmptyString.

Definition path_join (a b : string) : string :=
  if startswith "/" b then b
  else if negb (truthy a) || endswith_char "/" a then a +:+ b
  else a +:+ "/" +:+ b.

End Py.

(** ** Regular expressions of the [re] module

  Only what the script's patterns use: literal characters, the classes
  [\s], [\d] and [.], concatenation, [*] and [+].  Matching is by
  derivatives; [Matches] is the language of a pattern, against which
  the matcher is proved correct below. *)

Module Re.

Inductive regex : Type :=
| Void : regex
| Eps : regex
| Cls (p : ascii -> bool) : regex
| Cat (r1 r2 : regex) : regex
| Alt (r1 r2 : regex) : regex
| Star (r : regex) : regex.

Definition chr (c : ascii) : regex := Cls (Ascii.eqb c).

(** A literal piece of a pattern. *)
Fixpoint lit (s : string) : regex :=
  match s with
  | EmptyString => Eps
  | String c EmptyString => chr c
  | String c s' => Cat (chr c) (lit s')
  end.

(** [\s], [\d], and [.] (any character but a newline). *)
Definition space : regex := Cls Py.isspace.
Definition digit : regex := Cls Py.isdigit.
Definition dot : regex := Cls (fun c => negb (Ascii.eqb c "010")).

Definition plus (r : regex) : regex := Cat r (Star r).

(** Concatenation of the pieces of a pattern, left to right. *)
Fixpoint seq (rs : list regex) : regex :=
  match rs with
  | [] => Eps
  | [r] => r
  | r :: rs' => Cat r (seq rs')
  end.

Inductive Matches : regex -> string -> Prop :=
| MEps : Matches Eps ""
| MCls p c : p c = true -> Matches (Cls p) (String c "")
| MCat r1 r2 s1 s2 :
    Matches r1 s1 -> Matches r2 s2 -> Matches (Cat r1 r2) (s1 +:+ s2)
| MAltL r1 r2 s : Matches r1 s -> Matches (Alt r1 r2) s
| MAltR r1 r2 s : Matches r2 s -> Matches (Alt r1 r2) s
| MStar0 r : Matches (Star r) ""
| MStarS r s1 s2 :
    Matches r s1 -> Matches (Star r) s2 -> Matches (Star r) (s1 +:+ s2).

Fixpoint nullable (r : regex) : bool :=
  match r with
  | Void => false
  | Eps => true
  | Cls _ => false
  | Cat r1 r2 => nullable r1 && nullable r2
  | Alt r1 r2 => nullable r1 || nullable r2
  | Star _ => true
  end.

(** Constructors that drop the dead branches a derivative leaves. *)
Definition mkCat (r1 r2 : regex) : regex :=
  match r1, r2 with
  | Void, _ => Void
  | _, Void => Void
  | Eps, _ => r2
  | _, Eps => r1
  | _, _ => Cat r1 r2
  end.

Definition mkAlt (r1 r2 : regex) : regex :=
  match r1, r2 with
  | Void, _ => r2
  | _, Void => r1
  | _, _ => Alt r1 r2
  end.

Fixpoint deriv (c : ascii) (r : regex) : regex :=
  match r with
  | Void => Void
  | Eps => Void
  | Cls p => if p c then Eps else Void
  | Cat r1 r2 =>
      mkAlt (mkCat (deriv c r1) r2)
            (if nullable r1 then deriv c r2 else Void)
  | Alt r1 r2 => mkAlt (deriv c r1) (deriv c r2)
  | Star r1 => mkCat (deriv c r1) (Star r1)
  end.

(** The whole of [s] matches [r]. *)
Fixpoint fullmatch (r : regex) (s : string) : bool :=
  match s with
  | EmptyString => nullable r
  | String c s' => fullmatch (deriv c r) s'
  end.

(** [re.match(r, s)] succeeds: some prefix of [s] matches [r]. *)
Fixpoint match_ (r : regex) (s : string) : bool :=
  nullable r ||
  match s with
  | EmptyString => false
  | String c s' => match_ (deriv c r) s'
  end.

(** [re.search(r, s)] succeeds: [r] matches at some position of [s]. *)
Fixpoint search (r : regex) (s : string) : bool :=
  match_ r s ||
  match s with
  | EmptyString => false
  | String _ s' => search r s'
  end.

End Re.

(** ** Constants of the script (lines 49-86) *)

Definition GCC_ARGS_FIXED : list string := ["-D__alias__(x)="].
Definition EXPECTED_ERRMSG_REACH : string := "cpa_witness2test: violation".
Definition EXPECTED_ERRMSG_OVERFLOW : string := "runtime error:".
Definition EXPECTED_ERRMSG_MEM_FREE : string :=
  "ERROR: AddressSanitizer: attempting free".
Definition EXPECTED_ERRMSG_MEM_DEREF : string := "ERROR: AddressSanitizer:".
Definition EXPECTED_ERRMSG_MEM_MEMTRACK : string := "ERROR: AddressSanitizer:".

Definition MACHINE_MODEL_32 : string := "32bit".
Definition MACHINE_MODEL_64 : string := "64bit".

Definition RESULT_ACCEPT : string := "FALSE".
Definition RESULT_REJECT : string := "TRUE".
Definition RESULT_UNK : string := "UNKNOWN".

(** ['G\s*!\s*call\(\s*__VERIFIER_error\(\)\s*\)'] *)
Definition REGEX_REACH : Re.regex :=
  Re.seq [Re.lit "G"; Re.Star Re.space; Re.lit "!"; Re.Star Re.space;
          Re.lit "call("; Re.Star Re.space; Re.lit "__VERIFIER_error()";
          Re.Star Re.space; Re.lit ")"].

(** ['G\s*!\s*overflow'] *)
Definition REGEX_OVERFLOW : Re.regex :=
  Re.seq [Re.lit "G"; Re.Star Re.space; Re.lit "!"; Re.Star Re.space;
          Re.lit "overflow"].

(** ['G\s*valid-%s'] *)
Definition _REGEX_MEM_TEMPLATE (what : string) : Re.regex :=
  Re.seq [Re.lit "G"; Re.Star Re.space; Re.lit ("valid-" +:+ what)].

Definition REGEX_MEM_FREE : Re.regex := _REGEX_MEM_TEMPLATE "free".
Definition REGEX_MEM_DEREF : Re.regex := _REGEX_MEM_TEMPLATE "deref".
Definition REGEX_MEM_MEMTRACK : Re.regex := _REGEX_MEM_TEMPLATE "memtrack".

Definition SPEC_REACH : string := "unreach-call".
Definition SPEC_OVERFLOW : string := "no-overflow".
Definition SPEC_MEM_FREE : string := "valid-free".
Definition SPEC_MEM_DEREF : string := "valid-deref".
Definition SPEC_MEM_MEMTRACK : string := "valid-memtrack".

(** The dictionary [SPECIFICATIONS], in the order its items are visited. *)
Definition SPECIFICATIONS : list (string * Re.regex) :=
  [ (SPEC_REACH, REGEX_REACH);
    (SPEC_OVERFLOW, REGEX_OVERFLOW);
    (SPEC_MEM_FREE, REGEX_MEM_FREE);
    (SPEC_MEM_DEREF, REGEX_MEM_DEREF);
    (SPEC_MEM_MEMTRACK, REGEX_MEM_MEMTRACK) ].

(** The pattern [get_spec] matches the document against (line 382):
    ["CHECK\(\s*init\(.*\),\s*LTL\(\s*(.+)\s*\)\r*\n*"].  The pieces
    before, inside and after the group are kept apart. *)
Definition REGEX_CHECK_HEAD : Re.regex :=
  Re.seq [Re.lit "CHECK("; Re.Star Re.space; Re.lit "init("; Re.Star Re.dot;
          Re.lit "),"; Re.Star Re.space; Re.lit "LTL("; Re.Star Re.space].

Definition REGEX_CHECK_GROUP : Re.regex := Re.plus Re.dot.

Definition REGEX_CHECK_TAIL : Re.regex :=
  Re.seq [Re.Star Re.space; Re.lit ")"; Re.Star (Re.chr "013");
          Re.Star (Re.chr "010")].

Definition REGEX_CHECK : Re.regex :=
  Re.Cat REGEX_CHECK_HEAD (Re.Cat REGEX_CHECK_GROUP REGEX_CHECK_TAIL).

(** ** Data of the script *)

(** [ValidationError] is the script's own exception; the others are the
    built-in ones its statements can raise. *)
Inductive exn : Type :=
| ValidationError (msg : string)
| AssertionError (msg : string)
| AttributeError
| FileNotFoundError (path : string).

(** [class ExecutionResult] (lines 100-118). *)
Record ExecutionResult : Type := mkExecutionResult {
  returncode : Z;
  stdout : string;
  stderr : string
}.

(** The namespace [argparse] hands to [run] (lines 145-186). *)
Record Args : Type := mkArgs {
  machine_model : string;
  output_path : string;
  stats : bool;
  gcc_args : list string;
  specification_file : string;
  file : string
}.

(** ** The result classifier (lines 316-363) *)

Definition _analyze_result_values (test_result : ExecutionResult)
  (harness : string) (expected_returncode : Z) (expected_errmsg : string)
  (spec_prop : string) : string * option string :=
  if (returncode test_result =? expected_returncode)
     && Py.truthy (stderr test_result)
     && Py.str_in expected_errmsg (stderr test_result)
  then (RESULT_ACCEPT, Some spec_prop)
  else if returncode test_result =? 0
  then (RESULT_REJECT, None)
  else (RESULT_UNK, None).

(** The nested [check]: append one per-property result when the property
    is part of the specification. *)
Definition check_if (specification : list string) (test_result : ExecutionResult)
  (harness : string) (code : Z) (err_msg : string) (spec_property : string)
  (results_and_violated_props : list (string * option string))
  : list (string * option string) :=
  if Py.list_in spec_property specification
  then results_and_violated_props
         ++ [_analyze_result_values test_result harness code err_msg spec_property]
  else results_and_violated_props.

Definition analyze_result (test_result : ExecutionResult) (harness : string)
  (specification : list string) : string * option string :=
  let check := check_if specification test_result harness in
  let results_and_violated_props := [] in
  let results_and_violated_props :=
    check 107 EXPECTED_ERRMSG_REACH SPEC_REACH results_and_violated_props in
  let results_and_violated_props :=
    check 1 EXPECTED_ERRMSG_OVERFLOW SPEC_OVERFLOW results_and_violated_props in
  let results_and_violated_props :=
    check 1 EXPECTED_ERRMSG_MEM_FREE SPEC_MEM_FREE results_and_violated_props in
  let results_and_violated_props :=
    check 1 EXPECTED_ERRMSG_MEM_DEREF SPEC_MEM_DEREF results_and_violated_props in
  let results_and_violated_props :=
    check 1 EXPECTED_ERRMSG_MEM_MEMTRACK SPEC_MEM_MEMTRACK
          results_and_violated_props in
  let results := map fst results_and_violated_props in
  if Py.list_in RESULT_ACCEPT results then
    let violated_prop :=
      snd (nth (Py.list_index RESULT_ACCEPT results) results_and_violated_props
               (RESULT_UNK, None)) in
    (RESULT_ACCEPT, violated_prop)
  else if Py.list_in RESULT_UNK results then (RESULT_UNK, None)
  else (RESULT_REJECT, None).

(** The property registry the classifier consults: the tags in the order
    it checks them, with the exit code and the diagnostic text each one
    expects. *)
Inductive PropertyTag : Type :=
| Reachability | NoOverflow | ValidFree | ValidDeref | ValidMemtrack.

Definition registry : list PropertyTag :=
  [Reachability; NoOverflow; ValidFree; ValidDeref; ValidMemtrack].

Definition spec_name (t : PropertyTag) : string :=
  match t with
  | Reachability => SPEC_REACH
  | NoOverflow => SPEC_OVERFLOW
  | ValidFree => SPEC_MEM_FREE
  | ValidDeref => SPEC_MEM_DEREF
  | ValidMemtrack => SPEC_MEM_MEMTRACK
  end.

Definition expected_code (t : PropertyTag) : Z :=
  match t with Reachability => 107 | _ => 1 end.

Definition expected_errmsg (t : PropertyTag) : string :=
  match t with
  | Reachability => EXPECTED_ERRMSG_REACH
  | NoOverflow => EXPECTED_ERRMSG_OVERFLOW
  | ValidFree => EXPECTED_ERRMSG_MEM_FREE
  | ValidDeref => EXPECTED_ERRMSG_MEM_DEREF
  | ValidMemtrack => EXPECTED_ERRMSG_MEM_MEMTRACK
  end.

Definition recognize (t : PropertyTag) : Re.regex :=
  match t with
  | Reachability => REGEX_REACH
  | NoOverflow => REGEX_OVERFLOW
  | ValidFree => REGEX_MEM_FREE
  | ValidDeref => REGEX_MEM_DEREF
  | ValidMemtrack => REGEX_MEM_MEMTRACK
  end.

(** Position of a tag in the registry. *)
Definition rank (t : PropertyTag) : nat :=
  match t with
  | Reachability => 0 | NoOverflow => 1 | ValidFree => 2
  | ValidDeref => 3 | ValidMemtrack => 4
  end.

(** A tag is active in a specification, and its signature is met by a
    test result. *)
Definition active (specification : list string) (t : PropertyTag) : Prop :=
  In (spec_name t) specification.

Definition occurs_in (needle hay : string) : Prop :=
  exists before after, hay = before +:+ needle +:+ after.

Definition signature_met (test_result : ExecutionResult) (t : PropertyTag) : Prop :=
  returncode test_result = expected_code t
  /\ occurs_in (expected_errmsg t) (stderr test_result).

(** ** The operating system and the effects of the script *)

(** The machine the script runs on: the text files, and whatever else the
    spawned processes can see and change. *)
Record World (X : Type) : Type := mkWorld {
  files : gmap string string;
  hidden : X
}.
Arguments mkWorld {X} _ _.
Arguments files {X} _.
Arguments hidden {X} _.

(** What the script asks of its environment. *)
Record Platform (X : Type) : Type := mkPlatform {
  (** [subprocess.Popen(command)] run to completion *)
  popen : list string -> World X -> ExecutionResult * World X;
  (** [shutil.which(name)] finds something *)
  which : string -> World X -> bool;
  (** [os.path.isfile(p) and os.access(p, os.X_OK)] *)
  is_exe : string -> World X -> bool;
  (** [glob.glob(pattern)] *)
  glob : string -> World X -> list string;
  (** [os.environ["PATH"]] *)
  environ_PATH : string;
  (** [os.path.dirname(os.path.realpath(__file__))] *)
  script_dir : string;
  (** [sys.argv[1:]] and the namespace [argparse] builds from it *)
  argv : list string;
  parsed_args : Args
}.
Arguments popen {X} _ _ _.
Arguments which {X} _ _ _.
Arguments is_exe {X} _ _ _.
Arguments glob {X} _ _ _.
Arguments environ_PATH {X} _.
Arguments script_dir {X} _.
Arguments argv {X} _.
Arguments parsed_args {X} _.

(** Where in the script a process is spawned from. *)
Inductive site : Type :=
| AtVersion
| AtGenerate
| AtCompile (harness : string)
| AtTest (harness : string).

(** What the script does to the outside, in order. *)
Inductive event : Type :=
| Spawn (origin : site) (command : list string) (result : ExecutionResult)
| Print (text : string)
| Write (path content : string).

Record State (X : Type) : Type := mkState {
  world : World X;
  trace : list event
}.
Arguments mkState {X} _ _.
Arguments world {X} _.
Arguments trace {X} _.

Inductive result (A : Type) : Type :=
| Ok (a : A)
| Raise (e : exn).
Arguments Ok {A} _.
Arguments Raise {A} _.

Definition M (X A : Type) : Type := State X -> result A * State X.

Definition ret {X A : Type} (a : A) : M X A := fun s => (Ok a, s).

Definition raise {X A : Type} (e : exn) : M X A := fun s => (Raise e, s).

Definition bind {X A B : Type} (m : M X A) (k : A -> M X B) : M X B :=
  fun s =>
    match m s with
    | (Ok a, s') => k a s'
    | (Raise e, s') => (Raise e, s')
    end.

Definition lift {X A : Type} (r : result A) : M X A := fun s => (r, s).

Notation "'let*' x ':=' m 'in' k" := (bind m (fun x => k))
  (at level 10, x pattern, m at level 100, k at level 200).
Notation "m ';;' k" := (bind m (fun _ => k))
  (at level 100, k at level 200, right associativity).

Definition emit {X : Type} (e : event) : M X unit :=
  fun s => (Ok tt, mkState (world s) (trace s ++ [e])).

(** [print(text)]. *)
Definition print {X : Type} (text : string) : M X unit := emit (Print text).

(** [open(path, 'r').read()]. *)
Definition read_file {X : Type} (path : string) : M X string :=
  fun s =>
    match files (world s) !! path with
    | Some content => (Ok content, s)
    | None => (Raise (FileNotFoundError path), s)
    end.

(** [open(path, 'w+').write(content)]. *)
Definition write_file {X : Type} (path content : string) : M X unit :=
  fun s =>
    (Ok tt,
     mkState (mkWorld (<[path := content]> (files (world s))) (hidden (world s)))
             (trace s ++ [Write path content])).

Section Script.

Context {X : Type} (P : Platform X).

(** [execute(command)] (lines 302-313); [origin] labels the call in the
    trace. *)
Definition execute (origin : site) (command : list string) : M X ExecutionResult :=
  fun s =>
    let '(r, w) := popen P command (world s) in
    (Ok r, mkState w (trace s ++ [Spawn origin command r])).

Definition shutil_which (name : string) : M X bool :=
  fun s => (Ok (which P name (world s)), s).

(** *** Locating and calling the harness generator (lines 254-293) *)

(** The double quote that [path.strip] removes (code 34). *)
Definition is_quote (c : ascii) : bool := Ascii.eqb c "034".

Fixpoint first_executable (w : World X) (executable_name : string)
  (path_candidates : list string) : option string :=
  match path_candidates with
  | [] => None
  | path :: rest =>
      let path := Py.strip is_quote path in
      let exe_file := Py.path_join path executable_name in
      if is_exe P exe_file w then Some exe_file
      else first_executable w executable_name rest
  end.

Definition get_cpachecker_executable : M X string :=
  fun s =>
    let executable_name := "cpa.sh" in
    let path_candidates :=
      Py.split ":" (environ_PATH P)
        ++ [script_dir P; "."; "." +:+ Py.os_sep +:+ "scripts"] in
    match first_executable (world s) executable_name path_candidates with
    | Some exe_file => (Ok exe_file, s)
    | None =>
        (Raise (ValidationError
                  "CPAchecker executable not found or not executable!"), s)
    end.

(** [get_cpachecker_version] (lines 121-127).  The version text only
    feeds the [-version] action of the argument parser; its effects are
    the lookup of the executable and the process it spawns. *)
Definition get_cpachecker_version : M X unit :=
  let* executable := get_cpachecker_executable in
  let* result := execute AtVersion [executable; "-help"] in
  ret tt.

(** [_parse_args] (lines 191-197): building the parser calls
    [get_cpachecker_version]; the parsing itself is the platform's. *)
Definition _parse_args : M X Args :=
  get_cpachecker_version ;; ret (parsed_args P).

Definition _create_cpachecker_args (args : Args) : list string :=
  let cpachecker_args :=
    fold_left
      (fun cpachecker_args gcc_arg =>
         if Py.list_in gcc_arg cpachecker_args
         then Py.list_remove gcc_arg cpachecker_args
         else cpachecker_args)
      ("-gcc-args" :: gcc_args args) (argv P) in
  cpachecker_args ++ ["-witness2test"].

Definition create_harness_gen_cmd (args : Args) : M X (list string) :=
  let* cpa_executable := get_cpachecker_executable in
  let harness_gen_args := _create_cpachecker_args args in
  ret ([cpa_executable] ++ harness_gen_args).

Definition find_harnesses (output_path : string) : M X (list string) :=
  fun s => (Ok (glob P (output_path +:+ "/*harness.c") (world s)), s).

End Script.

(** [re.search(r'(\d+)\.harness\.c', harness_name).group(1)]: the digits
    of the leftmost place where a run of digits is followed by
    [.harness.c]. *)
Fixpoint span_digits (s : string) : string * string :=
  match s with
  | EmptyString => (EmptyString, EmptyString)
  | String c s' =>
      if Py.isdigit c
      then let '(d, rest) := span_digits s' in (String c d, rest)
      else (EmptyString, s)
  end.

Fixpoint harness_number (harness_name : string) : option string :=
  match harness_name with
  | EmptyString => None
  | String c s' =>
      if Py.isdigit c then
        let '(d, rest) := span_digits harness_name in
        if Py.startswith ".harness.c" rest then Some d else harness_number s'
      else harness_number s'
  end.

(** [get_target_name] (lines 296-299); without a match [.group] is
    called on [None]. *)
Definition get_target_name (harness_name : string) : result string :=
  match harness_number harness_name with
  | Some harness_number => Ok ("test_cex" +:+ harness_number)
  | None => Raise AttributeError
  end.

(** ** The compile-command builder (lines 204-251) *)

Definition _create_gcc_basic_args (args : Args) : result (list string) :=
  let gcc_args := GCC_ARGS_FIXED ++ gcc_args args in
  if String.eqb (machine_model args) MACHINE_MODEL_64
  then Ok (gcc_args ++ ["-m64"])
  else if String.eqb (machine_model args) MACHINE_MODEL_32
  then Ok (gcc_args ++ ["-m32"])
  else Raise (ValidationError "Neither 32 nor 64 bit machine model specified").

Definition _create_gcc_cmd_tail (harness file target : string) : list string :=
  ["-o"; target; harness; file].

(** [any(spec in specification for spec in (...))] *)
Definition any_in (specs specification : list string) : bool :=
  existsb (fun spec => Py.list_in spec specification) specs.

Section Builder.

Context {X : Type} (P : Platform X).

Definition create_compile_cmd (harness target : string) (args : Args)
  (specification : list string) (c_version : string) : M X (list string) :=
  let* clang := shutil_which P "clang" in
  let compiler := if clang then "clang" else "gcc" in
  let* basic_args := lift (_create_gcc_basic_args args) in
  let gcc_cmd := [compiler] ++ basic_args in
  let gcc_cmd := gcc_cmd ++ ["-std=" +:+ c_version] in
  let sanitizer_in_use := false in
  let '(sanitizer_in_use, gcc_cmd) :=
    if Py.list_in SPEC_OVERFLOW specification
    then (true, gcc_cmd ++ ["-fsanitize=signed-integer-overflow";
                            "-fsanitize=float-cast-overflow"])
    else (sanitizer_in_use, gcc_cmd) in
  let '(sanitizer_in_use, gcc_cmd) :=
    if any_in [SPEC_MEM_FREE; SPEC_MEM_DEREF; SPEC_MEM_MEMTRACK] specification
    then (true, gcc_cmd ++ ["-fsanitize=address"; "-fsanitize=leak"])
    else (sanitizer_in_use, gcc_cmd) in
  let gcc_cmd :=
    if sanitizer_in_use then gcc_cmd ++ ["-fno-sanitize-recover"] else gcc_cmd in
  ret (gcc_cmd ++ _create_gcc_cmd_tail harness (file args) target).

End Builder.

(** ** The specification parser (lines 375-389) *)

Definition matching_specifications (content : string) : list string :=
  map fst (List.filter (fun '(spec, regex) => Re.search regex content) SPECIFICATIONS).

Definition get_spec {X : Type} (specification_file : string) : M X (list string) :=
  let* content := read_file specification_file in
  let content := Py.strip Py.isspace content in
  let specification := [] in
  let spec_matches := Re.match_ REGEX_CHECK content in
  let specification :=
    if spec_matches then specification ++ matching_specifications content
    else specification in
  match specification with
  | [] => raise (AssertionError
                   ("No specification found for specification string: "
                    +:+ content))
  | _ :: _ => ret specification
  end.

(** ** The run (lines 392-483) *)

(** The variables of [run] that the loop over the harnesses updates. *)
Record LoopVars : Type := mkLoopVars {
  final_result : option string;
  violated_property : option string;
  successful_harness : option string;
  iter_count : Z;
  compile_success_count : Z;
  c11_success_count : Z;
  reject_count : Z
}.

Definition initial_vars : LoopVars :=
  mkLoopVars None None None 0 0 0 0.

(** How an iteration of the loop ends: by falling through or [continue],
    or by [break]. *)
Inductive control : Type := Next | Break.

(** Lines 450-462: what the loop does with the classification of a
    harness. *)
Definition record_result (harness : string) (classified : string * option string)
  (v : LoopVars) : control * LoopVars :=
  let '(result, new_violated_property) := classified in
  if String.eqb result RESULT_ACCEPT then
    (Break,
     mkLoopVars (Some RESULT_ACCEPT)
                (if negb (Py.truthy_opt (violated_property v))
                 then new_violated_property else violated_property v)
                (Some harness)
                (iter_count v) (compile_success_count v)
                (c11_success_count v) (reject_count v))
  else if String.eqb result RESULT_REJECT then
    (Next,
     mkLoopVars (if negb (Py.truthy_opt (final_result v))
                 then Some RESULT_REJECT else final_result v)
                (violated_property v) (successful_harness v)
                (iter_count v) (compile_success_count v)
                (c11_success_count v) (reject_count v + 1))
  else
    (Next,
     mkLoopVars (Some RESULT_UNK)
                (violated_property v) (successful_harness v)
                (iter_count v) (compile_success_count v)
                (c11_success_count v) (reject_count v)).

(** [iter_count += 1] (line 415), and lines 435-436: [c11_success_count
    += 1] when the first compile attempt succeeded, then
    [compile_success_count += 1]. *)
Definition count_iteration (v : LoopVars) : LoopVars :=
  mkLoopVars (final_result v) (violated_property v) (successful_harness v)
             (iter_count v + 1) (compile_success_count v)
             (c11_success_count v) (reject_count v).

Definition count_compiled (c11 : bool) (v : LoopVars) : LoopVars :=
  mkLoopVars (final_result v) (violated_property v) (successful_harness v)
             (iter_count v) (compile_success_count v + 1)
             (if c11 then c11_success_count v + 1 else c11_success_count v)
             (reject_count v).

Section Run.

Context {X : Type} (P : Platform X).

(** Lines 417-435: the two compile attempts.  The value is [None] when
    both failed, and otherwise tells whether the first one succeeded. *)
Definition compile_harness (harness exe_target : string) (args : Args)
  (specification : list string) : M X (option bool) :=
  let* compile_cmd :=
    create_compile_cmd P harness exe_target args specification "gnu11" in
  let* compile_result := execute P (AtCompile harness) compile_cmd in
  if negb (returncode compile_result =? 0) then
    let* compile_cmd :=
      create_compile_cmd P harness exe_target args specification "gnu90" in
    let* compile_result := execute P (AtCompile harness) compile_cmd in
    if negb (returncode compile_result =? 0) then ret None
    else ret (Some false)
  else ret (Some true).

(** Lines 438-448: run the test and keep what it printed. *)
Definition run_test (harness exe_target output_dir : string) : M X ExecutionResult :=
  let* test_result := execute P (AtTest harness) [exe_target] in
  let test_stdout_file := output_dir +:+ Py.os_sep +:+ "stdout.txt" in
  let test_stderr_file := output_dir +:+ Py.os_sep +:+ "stderr.txt" in
  (if Py.truthy (stdout test_result)
   then write_file test_stdout_file (stdout test_result)
   else ret tt) ;;
  (if Py.truthy (stderr test_result)
   then write_file test_stderr_file (stderr test_result)
   else ret tt) ;;
  ret test_result.

(** The body of the loop (lines 415-462). *)
Definition loop_body (args : Args) (output_dir : string)
  (specification : list string) (harness : string) (v : LoopVars)
  : M X (control * LoopVars) :=
  let v := count_iteration v in
  let* target_name := lift (get_target_name harness) in
  let exe_target := output_dir +:+ Py.os_sep +:+ target_name in
  let* compiled := compile_harness harness exe_target args specification in
  match compiled with
  | None => ret (Next, v)
  | Some c11 =>
      let v := count_compiled c11 v in
      let* test_result := run_test harness exe_target output_dir in
      ret (record_result harness (analyze_result test_result harness specification) v)
  end.

(** [for harness in created_harnesses: ...] *)
Fixpoint for_harnesses (args : Args) (output_dir : string)
  (specification : list string) (harnesses : list string) (v : LoopVars)
  : M X (control * LoopVars) :=
  match harnesses with
  | [] => ret (Next, v)
  | harness :: rest =>
      let* (c, v) := loop_body args output_dir specification harness v in
      match c with
      | Break => ret (Break, v)
      | Next => for_harnesses args output_dir specification rest v
      end
  end.

Fixpoint print_statistics (statistics : list (string * Z)) : M X unit :=
  match statistics with
  | [] => ret tt
  | (prop, value) :: rest =>
      print (Py.tab +:+ prop +:+ ": " +:+ Py.str_of_int value) ;;
      print_statistics rest
  end.

(** ["%s" % x] for an optional string. *)
Definition percent_s (x : option string) : string :=
  match x with Some s => s | None => "None" end.

Definition run : M X unit :=
  let statistics := [] in
  let* args := _parse_args P in
  let output_dir := output_path args in
  let* specification := get_spec (specification_file args) in
  let* harness_gen_cmd := create_harness_gen_cmd P args in
  let* harness_gen_result := execute P AtGenerate harness_gen_cmd in
  print (stderr harness_gen_result) ;;
  let* created_harnesses := find_harnesses P output_dir in
  let statistics :=
    statistics ++ [("Harnesses produced", Z.of_nat (length created_harnesses))] in
  let* (_, v) :=
    for_harnesses args output_dir specification created_harnesses initial_vars in
  if compile_success_count v =? 0 then
    raise (ValidationError "Compilation failed for every harness/file pair.")
  else
    let statistics := statistics ++ [("Harnesses tested", iter_count v)] in
    let statistics := statistics ++ [("C11 compatible", c11_success_count v)] in
    let statistics := statistics ++ [("Harnesses rejected", reject_count v)] in
    (if stats args then
       print (Py.os_linesep +:+ "Statistics:") ;;
       print_statistics statistics ;;
       print ""
     else ret tt) ;;
    (if Py.truthy_opt (successful_harness v) then
       print ("Harness " +:+ percent_s (successful_harness v) +:+ " was successful.")
     else ret tt) ;;
    let result_str := "Verification result: " +:+ percent_s (final_result v) in
    let result_str :=
      if Py.truthy_opt (violated_property v)
      then result_str +:+ ". Property violation ("
             +:+ percent_s (violated_property v)
             +:+ ") found by chosen configuration."
      else result_str in
    print result_str.

(** The top level (lines 489-493): [ValidationError] is handled, any
    other exception leaves the script. *)
Definition main (s : State X) : option exn * State X :=
  match run s with
  | (Ok _, s') => (None, s')
  | (Raise (ValidationError msg), s') =>
      (None, snd (print "Verification result: ERROR." s'))
  | (Raise e, s') => (Some e, s')
  end.

End Run.

(** The lines the script printed, in order, and the last of them. *)
Definition printed (tr : list event) : list string :=
  omap (fun e => match e with Print text => Some text | _ => None end) tr.

Definition terminal_line (tr : list event) : option string :=
  last (printed tr).

(** ** Concrete machines

    A machine whose hidden part counts the processes spawned so far.  The
    [n]-th process of a run answers with the [n]-th entry of a script
    (and with a clean exit once the script is used up); [clang] tells
    after how many processes a [clang] binary is on the search path; the
    generator is installed as [/usr/bin/cpa.sh] and leaves the given
    harness files behind. *)

Definition quiet_exit : ExecutionResult := mkExecutionResult 0 "" "".

Definition machine (script : list ExecutionResult) (clang : nat -> bool)
  (harnesses : list string) (args : Args) (argv : list string) : Platform nat :=
  {| popen := fun command w =>
                (nth (hidden w) script quiet_exit,
                 mkWorld (files w) (S (hidden w)));
     which := fun name w => String.eqb name "clang" && clang (hidden w);
     is_exe := fun p w => String.eqb p "/usr/bin/cpa.sh";
     glob := fun pattern w => harnesses;
     environ_PATH := "/usr/local/bin:/usr/bin";
     script_dir := "/opt/cpachecker/scripts";
     argv := argv;
     parsed_args := args |}.

(** The same machine without the generator installed anywhere. *)
Definition machine_without_generator (args : Args) (argv : list string)
  : Platform nat :=
  {| popen := fun command w => (quiet_exit, mkWorld (files w) (S (hidden w)));
     which := fun name w => false;
     is_exe := fun p w => false;
     glob := fun pattern w => [];
     environ_PATH := "/usr/local/bin:/usr/bin";
     script_dir := "/opt/cpachecker/scripts";
     argv := argv;
     parsed_args := args |}.

Definition sample_args : Args :=
  mkArgs MACHINE_MODEL_32 "output" false [] "prop.prp" "prog.c".

Definition sample_argv : list string :=
  ["-spec"; "prop.prp"; "-witness"; "witness.graphml"; "prog.c"].

(** A world whose only file is the property file, with the given text. *)
Definition boot (property_text : string) : State nat :=
  mkState (mkWorld {[ "prop.prp" := property_text ]} O) [].

Definition PRP_UNREACH : string :=
  "CHECK( init(main()), LTL(G ! call(__VERIFIER_error())) )".

Definition PRP_OVERFLOW : string :=
  "CHECK( init(main()), LTL(G ! overflow) )".

(** The memory-safety property file: one clause per line. *)
Definition PRP_MEMSAFETY : string :=
  "CHECK( init(main()), LTL(G valid-free) )" +:+ Py.os_linesep
  +:+ "CHECK( init(main()), LTL(G valid-deref) )" +:+ Py.os_linesep
  +:+ "CHECK( init(main()), LTL(G valid-memtrack) )" +:+ Py.os_linesep.

(** A run with two harnesses.  The processes, in order: the version
    query and the generator; for the first harness a compile attempt
    that fails, one that succeeds, and a test that prints ["first"] and
    exits cleanly; for the second harness a compile attempt that
    succeeds and a test that prints nothing and exits cleanly.  A
    [clang] binary shows up on the search path once three processes have
    run. *)
Definition HARNESS_1 : string := "output/1.harness.c".
Definition HARNESS_2 : string := "output/2.harness.c".

Definition two_harness_script : list ExecutionResult :=
  [ quiet_exit;
    mkExecutionResult 0 "" "";
    mkExecutionResult 1 "" "1.harness.c: error: C11 feature";
    quiet_exit;
    mkExecutionResult 0 "first" "";
    quiet_exit;
    mkExecutionResult 0 "" "" ].

Definition two_harness_machine : Platform nat :=
  machine two_harness_script (fun n => (3 <=? n)%nat) [HARNESS_1; HARNESS_2]
          sample_args sample_argv.

(** The state in which that run enters the loop: two processes have run,
    nothing is in the trace that concerns the loop. *)
Definition at_loop_start : State nat :=
  mkState (mkWorld {[ "prop.prp" := PRP_UNREACH ]} 2%nat) [].

(** A run with two harnesses that both compile at once: the first test
    exits with code 2 and no diagnostic, the second exits cleanly. *)
Definition mixed_script : list ExecutionResult :=
  [ quiet_exit; quiet_exit;
    quiet_exit; mkExecutionResult 2 "" "Segmentation fault";
    quiet_exit; mkExecutionResult 0 "" "" ].

Definition mixed_machine : Platform nat :=
  machine mixed_script (fun _ => false) [HARNESS_1; HARNESS_2]
          sample_args sample_argv.

(** A run with three harnesses that all compile at once: the first test
    exits cleanly, the second trips the overflow sanitizer. *)
Definition HARNESS_3 : string := "output/3.harness.c".

Definition overflow_script : list ExecutionResult :=
  [ quiet_exit; quiet_exit;
    quiet_exit; mkExecutionResult 0 "" "";
    quiet_exit;
    mkExecutionResult 1 "" "prog.c:7:5: runtime error: signed integer overflow" ].

Definition overflow_machine : Platform nat :=
  machine overflow_script (fun _ => false) [HARNESS_1; HARNESS_2; HARNESS_3]
          sample_args sample_argv.

(** A property file with the outer shape and no property the script
    knows, and one without the outer shape. *)
Definition PRP_UNKNOWN : string := "CHECK( init(main()), LTL(F end) )".
Definition PRP_SHAPELESS : string := "G ! overflow".

(** The three-harness run again, with [-stats]. *)
Definition stats_args : Args :=
  mkArgs MACHINE_MODEL_32 "output" true [] "prop.prp" "prog.c".

Definition stats_machine : Platform nat :=
  machine overflow_script (fun _ => false) [HARNESS_1; HARNESS_2; HARNESS_3]
          stats_args ("-stats" :: sample_argv).

(** ** Auxiliary notions used in the statements *)

(** The reduction [analyze_result] applies to its per-property results
    (lines 343-350). *)
Definition verdict_of (results_and_violated_props : list (string * option string))
  : string * option string :=
  let results := map fst results_and_violated_props in
  if Py.list_in RESULT_ACCEPT results then
    (RESULT_ACCEPT,
     snd (nth (Py.list_index RESULT_ACCEPT results) results_and_violated_props
              (RESULT_UNK, None)))
  else if Py.list_in RESULT_UNK results then (RESULT_UNK, None)
  else (RESULT_REJECT, None).

(** The per-property results [analyze_result] collects, for a list of
    tags. *)
Definition per_tag_results (test_result : ExecutionResult) (harness : string)
  (specification : list string) (tags : list PropertyTag)
  : list (string * option string) :=
  flat_map
    (fun t =>
       if Py.list_in (spec_name t) specification
       then [_analyze_result_values test_result harness (expected_code t)
               (expected_errmsg t) (spec_name t)]
       else [])
    tags.

(** [t] is the first tag, in registry order, that is active and whose
    signature the test result meets. *)
Definition first_confirmed (specification : list string)
  (test_result : ExecutionResult) (t : PropertyTag) : Prop :=
  active specification t /\ signature_met test_result t
  /\ forall t', (rank t' < rank t)%nat ->
       ~ (active specification t' /\ signature_met test_result t').

(** The flags the builder derives from the specification. *)
Definition OVERFLOW_FLAGS : list string :=
  ["-fsanitize=signed-integer-overflow"; "-fsanitize=float-cast-overflow"].
Definition MEMORY_FLAGS : list string :=
  ["-fsanitize=address"; "-fsanitize=leak"].
Definition NO_RECOVER_FLAG : string := "-fno-sanitize-recover".
Definition SANITIZER_FLAGS : list string :=
  OVERFLOW_FLAGS ++ MEMORY_FLAGS ++ [NO_RECOVER_FLAG].

Definition wants_overflow (specification : list string) : Prop :=
  In SPEC_OVERFLOW specification.

Definition wants_memory (specification : list string) : Prop :=
  In SPEC_MEM_FREE specification \/ In SPEC_MEM_DEREF specification
  \/ In SPEC_MEM_MEMTRACK specification.

(** The sanitizer flags of a compile command as the specification words
    them: the overflow pair is there exactly for NoOverflow, the memory
    pair exactly for a memory property, and the no-recovery flag exactly
    once exactly when one of the pairs was called for. *)
Definition sanitizers_as_specified (specification cmd : list string) : Prop :=
  ((forall f, In f OVERFLOW_FLAGS -> In f cmd) <-> wants_overflow specification)
  /\ ((forall f, In f MEMORY_FLAGS -> In f cmd) <-> wants_memory specification)
  /\ (Py.list_count NO_RECOVER_FLAG cmd = 1%nat
      <-> wants_overflow specification \/ wants_memory specification).

(** The same with nothing left open: a pair that is not called for
    is absent altogether, and so is the no-recovery flag when neither
    is. *)
Definition sanitizers_follow (specification cmd : list string) : Prop :=
  (wants_overflow specification -> forall f, In f OVERFLOW_FLAGS -> In f cmd)
  /\ (~ wants_overflow specification -> forall f, In f OVERFLOW_FLAGS -> ~ In f cmd)
  /\ (wants_memory specification -> forall f, In f MEMORY_FLAGS -> In f cmd)
  /\ (~ wants_memory specification -> forall f, In f MEMORY_FLAGS -> ~ In f cmd)
  /\ (wants_overflow specification \/ wants_memory specification ->
      Py.list_count NO_RECOVER_FLAG cmd = 1%nat)
  /\ (~ (wants_overflow specification \/ wants_memory specification) ->
      Py.list_count NO_RECOVER_FLAG cmd = 0%nat).

(** The flags lines 239-249 add for a specification. *)
Definition derived_flags (specification : list string) : list string :=
  (if Py.list_in SPEC_OVERFLOW specification then OVERFLOW_FLAGS else [])
  ++ (if any_in [SPEC_MEM_FREE; SPEC_MEM_DEREF; SPEC_MEM_MEMTRACK] specification
      then MEMORY_FLAGS else [])
  ++ (if Py.list_in SPEC_OVERFLOW specification
         || any_in [SPEC_MEM_FREE; SPEC_MEM_DEREF; SPEC_MEM_MEMTRACK] specification
      then [NO_RECOVER_FLAG] else []).

(** The strings a caller hands to the builder. *)
Definition caller_strings (harness target : string) (args : Args) : list string :=
  harness :: target :: file args :: gcc_args args.

(** Arguments that pass the address sanitizer through to the compiler. *)
Definition asan_args : Args :=
  mkArgs MACHINE_MODEL_32 "output" false
         ["-fsanitize=address"; "-fsanitize=leak"] "prop.prp" "prog.c".

(** The compiler [create_compile_cmd] picks in a given world. *)
Definition compiler_in {X : Type} (P : Platform X) (w : World X) : string :=
  if which P "clang" w then "clang" else "gcc".

(** The texts the group of the [CHECK] pattern can stand for in a
    document: whatever the matcher settles on, it is a piece of the
    document between a word of the pattern's head and a word of its
    tail. *)
Definition formula_of (content f : string) : Prop :=
  exists head tail rest,
    content = head +:+ f +:+ tail +:+ rest
    /\ Re.Matches REGEX_CHECK_HEAD head
    /\ Re.Matches REGEX_CHECK_GROUP f
    /\ Re.Matches REGEX_CHECK_TAIL tail.

(** The parser as the specification words it: a tag is active exactly
    when its pattern matches the formula text taken out of the clause. *)
Definition parsed_from_formula (content : string) (specification : list string)
  : Prop :=
  forall t, In (spec_name t) specification <->
            exists f, formula_of content f /\ Re.search (recognize t) f = true.

(** All ways to cut a text in two, and the candidates for the formula
    text they give. *)
Fixpoint splits (s : string) : list (string * string) :=
  (EmptyString, s) ::
  match s with
  | EmptyString => []
  | String c s' => map (fun '(p, q) => (String c p, q)) (splits s')
  end.

Definition candidate_formulas (content : string) : list string :=
  flat_map
    (fun '(head, after_head) =>
       if Re.fullmatch REGEX_CHECK_HEAD head then
         flat_map
           (fun '(f, after_f) =>
              if Re.fullmatch REGEX_CHECK_GROUP f && Re.match_ REGEX_CHECK_TAIL after_f
              then [f] else [])
           (splits after_head)
       else [])
    (splits content).

(** What lines 441-448 do to a capture file and to the trace: the text
    is written when it is not empty. *)
Definition capture (path text : string) (fs : gmap string string)
  : gmap string string :=
  if Py.truthy text then <[path := text]> fs else fs.

Definition capture_event (path text : string) : list event :=
  if Py.truthy text then [Write path text] else [].

Definition stdout_file (output_dir : string) : string :=
  output_dir +:+ Py.os_sep +:+ "stdout.txt".

Definition stderr_file (output_dir : string) : string :=
  output_dir +:+ Py.os_sep +:+ "stderr.txt".

(** The state a test run leaves behind, given what the process answered
    and the world it left. *)
Definition after_test {X : Type} (harness exe_target output_dir : string)
  (r : ExecutionResult) (w : World X) (tr : list event) : State X :=
  mkState
    (mkWorld (capture (stderr_file output_dir) (stderr r)
                (capture (stdout_file output_dir) (stdout r) (files w)))
             (hidden w))
    (tr ++ [Spawn (AtTest harness) [exe_target] r]
        ++ capture_event (stdout_file output_dir) (stdout r)
        ++ capture_event (stderr_file output_dir) (stderr r)).

(** The harness an event belongs to, for the events of the loop. *)
Definition event_harness (e : event) : option string :=
  match e with
  | Spawn (AtCompile h) _ _ => Some h
  | Spawn (AtTest h) _ _ => Some h
  | _ => None
  end.

(** The compile commands and the test results in a trace. *)
Definition compile_commands (tr : list event) : list (list string) :=
  omap (fun e => match e with
                 | Spawn (AtCompile _) cmd _ => Some cmd
                 | _ => None
                 end) tr.

Definition test_runs (tr : list event) : list (string * ExecutionResult) :=
  omap (fun e => match e with
                 | Spawn (AtTest h) _ r => Some (h, r)
                 | _ => None
                 end) tr.

(** The classifications of the harnesses that were run, in order. *)
Definition classify (specification : list string)
  (run : string * ExecutionResult) : string :=
  fst (analyze_result (snd run) (fst run) specification).

Definition outcomes (specification : list string) (tr : list event) : list string :=
  map (classify specification) (test_runs tr).

(** An event of the loop's work on one harness: a process spawned for
    it, or the capture of what its test printed. *)
Definition event_of_harness (h : string) (e : event) : Prop :=
  event_harness e = Some h \/ exists path content, e = Write path content.

(** The chain of inequalities between the counters, for [n] harnesses
    produced. *)
Definition counters_ok (n : nat) (v : LoopVars) : Prop :=
  0 <= c11_success_count v
  /\ c11_success_count v <= compile_success_count v
  /\ compile_success_count v <= iter_count v
  /\ iter_count v <= Z.of_nat n
  /\ 0 <= reject_count v
  /\ reject_count v <= iter_count v.

(** A counter stays or goes up by one. *)
Definition steps_by_at_most_one (before after : Z) : Prop :=
  after = before \/ after = before + 1.

Definition counters_step (v v' : LoopVars) : Prop :=
  steps_by_at_most_one (iter_count v) (iter_count v')
  /\ steps_by_at_most_one (compile_success_count v) (compile_success_count v')
  /\ steps_by_at_most_one (c11_success_count v) (c11_success_count v')
  /\ steps_by_at_most_one (reject_count v) (reject_count v').

(** Lines 451-462 as they act on [final_result]: the running verdict and
    the classification of one more harness give the next running
    verdict. *)
Definition accumulate (final_result : option string) (result : string)
  : option string :=
  if String.eqb result RESULT_ACCEPT then Some RESULT_ACCEPT
  else if String.eqb result RESULT_REJECT then
    if negb (Py.truthy_opt final_result) then Some RESULT_REJECT else final_result
  else Some RESULT_UNK.

(** The reduction as the specification words it, blind to the order:
    inconclusive if any harness was, else not reproduced if any harness
    was. *)
Definition reduce_outcomes (results : list string) : option string :=
  if Py.list_in RESULT_UNK results then Some RESULT_UNK
  else if Py.list_in RESULT_REJECT results then Some RESULT_REJECT
  else None.

(** What is known when the loop is left, or between two iterations:
    [tr0] is the trace the loop started with, [done] the harnesses it
    has gone through, [c] how the last iteration ended. *)
Definition loop_summary (specification : list string) (tr0 : list event)
  (done : list string) (c : control) (v : LoopVars) (tr : list event) : Prop :=
  exists new,
    tr = tr0 ++ new
    /\ (forall e, In e new -> exists h, In h done /\ event_of_harness h e)
    /\ compile_success_count v = Z.of_nat (length (test_runs new))
    /\ match c with
       | Next =>
           ~ In RESULT_ACCEPT (outcomes specification new)
           /\ final_result v = fold_left accumulate (outcomes specification new) None
           /\ violated_property v = None
           /\ successful_harness v = None
       | Break =>
           exists runs h r t,
             test_runs new = runs ++ [(h, r)]
             /\ ~ In RESULT_ACCEPT (map (classify specification) runs)
             /\ last done = Some h
             /\ analyze_result r h specification
                = (RESULT_ACCEPT, Some (spec_name t))
             /\ final_result v = Some RESULT_ACCEPT
             /\ violated_property v = Some (spec_name t)
             /\ successful_harness v = Some h
       end.

(** The capture files as the specification words them: once a test has
    run, the two files hold what the most recently run test printed (a
    file that does not exist holding nothing). *)
Definition captures_hold_last {X : Type} (output_dir : string) (s : State X)
  : Prop :=
  forall h r,
    last (test_runs (trace s)) = Some (h, r) ->
    default "" (files (world s) !! stdout_file output_dir) = stdout r
    /\ default "" (files (world s) !! stderr_file output_dir) = stderr r.

(** A computation keeps a property of the state, whether it returns or
    raises. *)
Definition keeps {X A : Type} (I : State X -> Prop) (m : M X A) : Prop :=
  forall s r s', I s -> m s = (r, s') -> I s'.

(** The compile commands of a run as the specification words them: one
    compiler, chosen once, heads them all. *)
Definition same_compiler (tr : list event) : Prop :=
  exists compiler,
    forall cmd, In cmd (compile_commands tr) -> hd_error cmd = Some compiler.

(** Nothing that happens during a run changes whether [clang] is found:
    no process that is spawned, no file the script writes. *)
Definition clang_stable {X : Type} (P : Platform X) : Prop :=
  (forall cmd w, which P "clang" (snd (popen P cmd w)) = which P "clang" w)
  /\ (forall w path content,
        which P "clang" (mkWorld (<[path := content]> (files w)) (hidden w))
        = which P "clang" w).

(** The state agrees with a choice of compiler: looking [clang] up now
    gives it, and every compile command so far names it. *)
Definition compiler_fixed {X : Type} (P : Platform X) (compiler : string)
  (s : State X) : Prop :=
  compiler_in P (world s) = compiler
  /\ forall cmd, In cmd (compile_commands (trace s)) -> hd_error cmd = Some compiler.

(** The last line of a run that reaches a conclusion, as the script
    prints it. *)
Definition verdict_line (line : string) : Prop :=
  line = "Verification result: TRUE"
  \/ line = "Verification result: UNKNOWN"
  \/ (exists t,
        line = "Verification result: FALSE. Property violation ("
               +:+ spec_name t +:+ ") found by chosen configuration.")
  \/ line = "Verification result: ERROR.".

(** The same line as the specification words it: one of four tokens
    after the prefix, then possibly more. *)
Definition line_as_specified (line : string) : Prop :=
  exists token rest,
    In token ["CONFIRMED"; "NOT_REPRODUCED"; "INCONCLUSIVE"; "ERROR"]
    /\ line = "Verification result: " +:+ token +:+ rest.

(** ** Further definitions *)

(** The pattern of [get_target_name] (line 297): [r'(\d+)\.harness\.c']. *)
Definition REGEX_HARNESS : Re.regex :=
  Re.Cat (Re.plus Re.digit) (Re.lit ".harness.c").

Fixpoint all_digits (s : string) : bool :=
  match s with
  | EmptyString => true
  | String c s' => Py.isdigit c && all_digits s'
  end.

(** [flatten] (lines 200-201): [sum(list_of_lists, [])] adds the lists
    to the empty list, left to right. *)
Definition flatten {A : Type} (list_of_lists : list (list A)) : list A :=
  fold_left (fun acc l => acc ++ l) list_of_lists [].

(** The directories [get_cpachecker_executable] looks in, in order, and
    the file it tests in each of them. *)
Definition path_candidates {X : Type} (P : Platform X) : list string :=
  Py.split ":" (environ_PATH P)
    ++ [script_dir P; "."; "." +:+ Py.os_sep +:+ "scripts"].

Definition exe_in (path : string) : string :=
  Py.path_join (Py.strip is_quote path) "cpa.sh".

(** A command line that hands two arguments through to the compiler. *)
Definition passthrough_argv : list string :=
  ["-spec"; "prop.prp"; "-gcc-args"; "-fsanitize=address"; "-fsanitize=leak";
   "prog.c"].

Definition passthrough_machine : Platform nat :=
  machine [] (fun _ => false) [] asan_args passthrough_argv.

(** The machine-model flag of a compile command (lines 206-209). *)
Definition machine_flag (args : Args) : string :=
  if String.eqb (machine_model args) MACHINE_MODEL_64 then "-m64" else "-m32".

(** A run whose only harness fails both compile attempts. *)
Definition failing_script : list ExecutionResult :=
  [ quiet_exit; quiet_exit;
    mkExecutionResult 1 "" "error: C11"; mkExecutionResult 1 "" "error: C90" ].

Definition failing_machine : Platform nat :=
  machine failing_script (fun _ => false) [HARNESS_1] sample_args sample_argv.

(** What the counters of the loop stand for, in terms of what the loop
    did: [trace0] is the trace the loop started with, [done] the
    harnesses it has gone through. *)
Definition counters_account (specification : list string) (trace0 : list event)
  (done : list string) (v : LoopVars) (tr : list event) : Prop :=
  exists new,
    tr = trace0 ++ new
    /\ iter_count v = Z.of_nat (length done)
    /\ compile_success_count v = Z.of_nat (length (test_runs new))
    /\ reject_count v
       = Z.of_nat (Py.list_count RESULT_REJECT (outcomes specification new))
    /\ c11_success_count v
       = 2 * Z.of_nat (length done) - Z.of_nat (length (compile_commands new)).

(** The check of one tag against a test result, as a truth value. *)
Definition confirms (specification : list string) (test_result : ExecutionResult)
  (t : PropertyTag) : bool :=
  Py.list_in (spec_name t) specification
  && (returncode test_result =? expected_code t)
  && Py.str_in (expected_errmsg t) (stderr test_result).

(** A computation returns values in [Q] and raises exceptions in [E]. *)
Definition raises_only {X A : Type} (E : exn -> Prop) (Q : A -> Prop)
  (m : M X A) : Prop :=
  forall s r s',
    m s = (r, s') -> match r with Ok a => Q a | Raise e => E e end.

(** Every harness file the directory listing gives has digits followed
    by [.harness.c] in its name. *)
Definition harnesses_well_named {X : Type} (P : Platform X) : Prop :=
  forall pattern w h, In h (glob P pattern w) -> Re.search REGEX_HARNESS h = true.

(** Every exception but the one of a harness name without a number. *)
Definition not_attribute_error (e : exn) : Prop := e <> AttributeError.

(** The exceptions that are neither handled at the top level nor caused
    by a harness name. *)
Definition parse_failure (e : exn) : Prop :=
  (exists msg, e = AssertionError msg) \/ (exists path, e = FileNotFoundError path).

(** What a capture file holds after a sequence of test runs, given what
    it held before: the last stream that was not empty. *)
Definition last_capture (stream : ExecutionResult -> string)
  (runs : list (string * ExecutionResult)) (before : option string)
  : option string :=
  fold_left
    (fun held run =>
       if Py.truthy (stream (snd run)) then Some (stream (snd run)) else held)
    runs before.

(** No spawned process touches the two capture files. *)
Definition capture_files_private {X : Type} (P : Platform X) (output_dir : string)
  : Prop :=
  forall cmd w,
    files (snd (popen P cmd w)) !! stdout_file output_dir
    = files w !! stdout_file output_dir
    /\ files (snd (popen P cmd w)) !! stderr_file output_dir
       = files w !! stderr_file output_dir.

(** A run with one harness whose name has no number. *)
Definition unnamed_machine : Platform nat :=
  machine [] (fun _ => false) ["output/harness.c"] sample_args sample_argv.

(** The lines of the statistics block (lines 404, 467-474), for the
    number of harnesses produced and the counters of the loop. *)
Definition statistics_lines (produced : nat) (v : LoopVars) : list string :=
  [ Py.os_linesep +:+ "Statistics:";
    Py.tab +:+ "Harnesses produced" +:+ ": " +:+ Py.str_of_int (Z.of_nat produced);
    Py.tab +:+ "Harnesses tested" +:+ ": " +:+ Py.str_of_int (iter_count v);
    Py.tab +:+ "C11 compatible" +:+ ": " +:+ Py.str_of_int (c11_success_count v);
    Py.tab +:+ "Harnesses rejected" +:+ ": " +:+ Py.str_of_int (reject_count v);
    "" ].

(** The lines that close the report of a run (lines 476-482). *)
Definition closing_lines (v : LoopVars) : list string :=
  (if Py.truthy_opt (successful_harness v)
   then ["Harness " +:+ percent_s (successful_harness v) +:+ " was successful."]
   else [])
  ++ [ if Py.truthy_opt (violated_property v)
       then "Verification result: " +:+ percent_s (final_result v)
              +:+ ". Property violation ("
              +:+ percent_s (violated_property v)
              +:+ ") found by chosen configuration."
       else "Verification result: " +:+ percent_s (final_result v) ].

(** * Properties *)

(** ** The text primitives *)

#[local] Arguments String.append !s1 s2 : simpl nomatch.

Example strip_sample :
  Py.strip Py.isspace ("  ab c" +:+ Py.os_linesep +:+ " ") = "ab c".
Proof. reflexivity. Qed.

Example split_sample : Py.split ":" "/usr/bin::/bin" = ["/usr/bin"; ""; "/bin"].
Proof. reflexivity. Qed.

Example str_of_int_sample : Py.str_of_int 12 = "12" /\ Py.str_of_int 0 = "0".
Proof. split; reflexivity. Qed.

Example get_target_name_samples :
  get_target_name "output/12.harness.c" = Ok "test_cex12"
  /\ get_target_name "out7/a12b34.harness.c" = Ok "test_cex34"
  /\ get_target_name "output/harness.c" = Raise AttributeError.
Proof. repeat split; reflexivity. Qed.

Lemma append_assoc (a b c : string) : (a +:+ b) +:+ c = a +:+ (b +:+ c).
Proof. induction a as [|x a IH]; simpl; [reflexivity | now rewrite IH]. Qed.

Lemma append_empty_r (a : string) : a +:+ "" = a.
Proof. induction a as [|x a IH]; simpl; [reflexivity | now rewrite IH]. Qed.

Lemma append_eq_empty (a b : string) : a +:+ b = "" -> a = "" /\ b = "".
Proof. destruct a; simpl; [auto | discriminate]. Qed.

Lemma list_in_In (x : string) (l : list string) :
  Py.list_in x l = true <-> In x l.
Proof.
  induction l as [|y l IH]; simpl.
  - split; [discriminate | tauto].
  - rewrite orb_true_iff, IH, String.eqb_eq. split; intros [H|H]; auto.
Qed.

Lemma list_in_false (x : string) (l : list string) :
  Py.list_in x l = false <-> ~ In x l.
Proof.
  rewrite <- list_in_In. destruct (Py.list_in x l); split; congruence.
Qed.

Lemma startswith_iff (p s : string) :
  Py.startswith p s = true <-> exists rest, s = p +:+ rest.
Proof.
  revert s. induction p as [|a p IH]; intros s; simpl.
  - split; [intros _; now exists s | reflexivity].
  - destruct s as [|b s].
    + split; [discriminate | intros [rest H]; discriminate].
    + rewrite andb_true_iff, Ascii.eqb_eq, IH. split.
      * intros [-> [rest ->]]. now exists rest.
      * intros [rest H]. injection H as -> ->. split; [reflexivity | now exists rest].
Qed.

(** [needle in hay] is the substring relation. *)
Lemma str_in_iff (needle hay : string) :
  Py.str_in needle hay = true <-> occurs_in needle hay.
Proof.
  unfold occurs_in. induction hay as [|c hay IH].
  - simpl. rewrite orb_false_r, startswith_iff. split.
    + intros [rest H]. exists "", rest. exact H.
    + intros (before & after & H). symmetry in H.
      apply append_eq_empty in H as [-> H]. simpl in H. now exists after.
  - cbn [Py.str_in]. rewrite orb_true_iff, IH, startswith_iff. split.
    + intros [[rest H] | (before & after & H)].
      * exists "", rest. exact H.
      * exists (String c before), after. simpl. now rewrite H.
    + intros (before & after & H). destruct before as [|b before].
      * left. now exists after.
      * right. simpl in H. injection H as _ H. now exists before, after.
Qed.

Lemma str_in_truthy (needle hay : string) :
  Py.truthy needle = true -> Py.str_in needle hay = true -> Py.truthy hay = true.
Proof.
  destruct needle; [discriminate |]. destruct hay; [| reflexivity].
  simpl. discriminate.
Qed.

(** ** The matcher is correct for the language of a pattern *)

Module ReFacts.
Import Re.

Lemma inv_void (s : string) : Matches Void s -> False.
Proof. inversion 1. Qed.

Lemma inv_eps (s : string) : Matches Eps s -> s = "".
Proof. inversion 1; reflexivity. Qed.

Lemma inv_cls (p : ascii -> bool) (s : string) :
  Matches (Cls p) s -> exists c, s = String c "" /\ p c = true.
Proof. inversion 1; subst; eauto. Qed.

Lemma inv_cat (r1 r2 : regex) (s : string) :
  Matches (Cat r1 r2) s ->
  exists s1 s2, s = s1 +:+ s2 /\ Matches r1 s1 /\ Matches r2 s2.
Proof. inversion 1; subst; eauto. Qed.

Lemma inv_alt (r1 r2 : regex) (s : string) :
  Matches (Alt r1 r2) s -> Matches r1 s \/ Matches r2 s.
Proof. inversion 1; subst; auto. Qed.

Lemma nullable_iff (r : regex) : nullable r = true <-> Matches r "".
Proof.
  induction r as [| |p|r1 IH1 r2 IH2|r1 IH1 r2 IH2|r IH]; simpl.
  - split; [discriminate | intros H; destruct (inv_void _ H)].
  - split; [constructor | reflexivity].
  - split; [discriminate |].
    intros H. apply inv_cls in H as (c & E & _). discriminate.
  - rewrite andb_true_iff, IH1, IH2. split.
    + intros [H1 H2]. change "" with ("" +:+ ""). now constructor.
    + intros H. apply inv_cat in H as (s1 & s2 & E & H1 & H2). symmetry in E.
      apply append_eq_empty in E as [-> ->]. tauto.
  - rewrite orb_true_iff, IH1, IH2. split.
    + intros [H|H]; [now apply MAltL | now apply MAltR].
    + apply inv_alt.
  - split; [constructor | reflexivity].
Qed.

Lemma cat_void_l (r : regex) (s : string) : Matches (Cat Void r) s <-> Matches Void s.
Proof.
  split; intros H; [| destruct (inv_void _ H)].
  apply inv_cat in H as (? & ? & _ & H & _). destruct (inv_void _ H).
Qed.

Lemma cat_void_r (r : regex) (s : string) : Matches (Cat r Void) s <-> Matches Void s.
Proof.
  split; intros H; [| destruct (inv_void _ H)].
  apply inv_cat in H as (? & ? & _ & _ & H). destruct (inv_void _ H).
Qed.

Lemma cat_eps_l (r : regex) (s : string) : Matches (Cat Eps r) s <-> Matches r s.
Proof.
  split; intros H.
  - apply inv_cat in H as (s1 & s2 & -> & H1 & H2).
    apply inv_eps in H1 as ->. exact H2.
  - change s with ("" +:+ s). constructor; [constructor | exact H].
Qed.

Lemma cat_eps_r (r : regex) (s : string) : Matches (Cat r Eps) s <-> Matches r s.
Proof.
  split; intros H.
  - apply inv_cat in H as (s1 & s2 & -> & H1 & H2).
    apply inv_eps in H2 as ->. now rewrite append_empty_r.
  - rewrite <- (append_empty_r s). constructor; [exact H | constructor].
Qed.

Lemma mkCat_iff (r1 r2 : regex) (s : string) :
  Matches (mkCat r1 r2) s <-> Matches (Cat r1 r2) s.
Proof.
  destruct r1, r2; simpl;
    rewrite ?cat_void_l, ?cat_void_r, ?cat_eps_l, ?cat_eps_r; reflexivity.
Qed.

Lemma mkAlt_iff (r1 r2 : regex) (s : string) :
  Matches (mkAlt r1 r2) s <-> Matches (Alt r1 r2) s.
Proof.
  assert (L : forall r t, Matches (Alt Void r) t <-> Matches r t).
  { intros r t. split; [| now apply MAltR].
    intros H. apply inv_alt in H as [H|H]; [destruct (inv_void _ H) | exact H]. }
  assert (R : forall r t, Matches (Alt r Void) t <-> Matches r t).
  { intros r t. split; [| now apply MAltL].
    intros H. apply inv_alt in H as [H|H]; [exact H | destruct (inv_void _ H)]. }
  destruct r1, r2; simpl; rewrite ?L, ?R; reflexivity.
Qed.

(** A non-empty word of [r*] starts with a non-empty word of [r]. *)
Lemma star_uncons (r : regex) (c : ascii) (s : string) :
  Matches (Star r) (String c s) ->
  exists s1 s2, s = s1 +:+ s2 /\ Matches r (String c s1) /\ Matches (Star r) s2.
Proof.
  intros H. remember (Star r) as r' eqn:Er. remember (String c s) as w eqn:Ew.
  revert s Ew.
  induction H as [| |? ? ? ? ? _ ? _|? ? ? ? _|? ? ? ? _| |r0 s1 s2 H1 _ H2 IH2];
    intros t Et; try discriminate.
  injection Er as ->. destruct s1 as [|x s1].
  - simpl in Et. now apply IH2.
  - simpl in Et. injection Et as -> <-. now exists s1, s2.
Qed.

Lemma deriv_iff (c : ascii) (r : regex) (s : string) :
  Matches (deriv c r) s <-> Matches r (String c s).
Proof.
  revert s. induction r as [| |p|r1 IH1 r2 IH2|r1 IH1 r2 IH2|r IH]; intros s; simpl.
  - split; intros H; destruct (inv_void _ H).
  - split; intros H; [destruct (inv_void _ H) | apply inv_eps in H; discriminate].
  - destruct (p c) eqn:Hp; split; intros H.
    + apply inv_eps in H as ->. now constructor.
    + apply inv_cls in H as (c' & E & _). injection E as _ ->. constructor.
    + destruct (inv_void _ H).
    + apply inv_cls in H as (c' & E & Hc). injection E as <- _. congruence.
  - rewrite mkAlt_iff. split; intros H.
    + apply inv_alt in H as [H|H].
      * apply mkCat_iff, inv_cat in H as (s1 & s2 & -> & Ha & Hb).
        apply IH1 in Ha. change (String c (s1 +:+ s2)) with (String c s1 +:+ s2).
        now constructor.
      * destruct (nullable r1) eqn:Hn; [| destruct (inv_void _ H)].
        apply IH2 in H. apply nullable_iff in Hn.
        change (String c s) with ("" +:+ String c s). now constructor.
    + apply inv_cat in H as (s1 & s2 & E & Ha & Hb).
      destruct s1 as [|x s1]; simpl in E.
      * subst s2. apply MAltR. apply nullable_iff in Ha. rewrite Ha. now apply IH2.
      * injection E as -> ->. apply MAltL, mkCat_iff.
        constructor; [now apply IH1 | exact Hb].
  - rewrite mkAlt_iff. split; intros H; apply inv_alt in H as [H|H];
      [apply MAltL, IH1 | apply MAltR, IH2 | apply MAltL, IH1 | apply MAltR, IH2];
      exact H.
  - rewrite mkCat_iff. split; intros H.
    + apply inv_cat in H as (s1 & s2 & -> & Ha & Hb).
      apply IH in Ha. change (String c (s1 +:+ s2)) with (String c s1 +:+ s2).
      now constructor.
    + apply star_uncons in H as (s1 & s2 & -> & Ha & Hb).
      constructor; [now apply IH | exact Hb].
Qed.

Lemma fullmatch_iff (r : regex) (s : string) :
  fullmatch r s = true <-> Matches r s.
Proof.
  revert r. induction s as [|c s IH]; intros r; simpl.
  - apply nullable_iff.
  - rewrite IH. apply deriv_iff.
Qed.

(** [re.match]: a prefix of the text is in the language. *)
Lemma match_iff (r : regex) (s : string) :
  match_ r s = true <-> exists p rest, s = p +:+ rest /\ Matches r p.
Proof.
  revert r. induction s as [|c s IH]; intros r; simpl.
  - rewrite orb_false_r, nullable_iff. split.
    + intros H. now exists "", "".
    + intros (p & rest & E & H). symmetry in E.
      apply append_eq_empty in E as [-> _]. exact H.
  - rewrite orb_true_iff, nullable_iff, IH. split.
    + intros [H | (p & rest & -> & H)].
      * now exists "", (String c s).
      * exists (String c p), rest. split; [reflexivity | now apply deriv_iff].
    + intros (p & rest & E & H). destruct p as [|x p].
      * now left.
      * right. simpl in E. injection E as -> ->.
        exists p, rest. split; [reflexivity | now apply deriv_iff].
Qed.

(** [re.search]: a piece of the text is in the language. *)
Lemma search_iff (r : regex) (s : string) :
  search r s = true <->
  exists before p after, s = before +:+ p +:+ after /\ Matches r p.
Proof.
  induction s as [|c s IH]; cbn [search].
  - rewrite orb_false_r, match_iff. split.
    + intros (p & rest & E & H). now exists "", p, rest.
    + intros (before & p & after & E & H). symmetry in E.
      apply append_eq_empty in E as [-> E]. simpl in E. now exists p, after.
  - rewrite orb_true_iff, match_iff, IH. split.
    + intros [(p & rest & E & H) | (before & p & after & E & H)].
      * now exists "", p, rest.
      * exists (String c before), p, after. simpl. now rewrite E.
    + intros (before & p & after & E & H). destruct before as [|x before].
      * left. now exists p, after.
      * right. simpl in E. injection E as _ E. now exists before, p, after.
Qed.

End ReFacts.

(** ** The result classifier *)

Section Classifier.

Variables (test_result : ExecutionResult) (harness : string)
          (specification : list string).

Lemma analyze_result_unfold :
  analyze_result test_result harness specification
  = verdict_of (per_tag_results test_result harness specification registry).
Proof.
  unfold analyze_result, per_tag_results, check_if, registry. simpl.
  destruct (Py.list_in SPEC_REACH specification),
           (Py.list_in SPEC_OVERFLOW specification),
           (Py.list_in SPEC_MEM_FREE specification),
           (Py.list_in SPEC_MEM_DEREF specification),
           (Py.list_in SPEC_MEM_MEMTRACK specification); reflexivity.
Qed.

Lemma expected_errmsg_truthy (t : PropertyTag) :
  Py.truthy (expected_errmsg t) = true.
Proof. destruct t; reflexivity. Qed.

(** One per-property check accepts exactly when the signature is met. *)
Lemma values_accept (t : PropertyTag) :
  signature_met test_result t ->
  _analyze_result_values test_result harness (expected_code t)
    (expected_errmsg t) (spec_name t) = (RESULT_ACCEPT, Some (spec_name t)).
Proof.
  intros [Hc Hm]. apply str_in_iff in Hm. unfold _analyze_result_values.
  rewrite Hc, Z.eqb_refl, Hm.
  now rewrite (str_in_truthy _ _ (expected_errmsg_truthy t) Hm).
Qed.

Lemma values_no_accept (t : PropertyTag) :
  ~ signature_met test_result t ->
  _analyze_result_values test_result harness (expected_code t)
    (expected_errmsg t) (spec_name t)
  = if returncode test_result =? 0 then (RESULT_REJECT, None)
    else (RESULT_UNK, None).
Proof.
  intros Hn. unfold _analyze_result_values.
  destruct (returncode test_result =? expected_code t) eqn:Hc; simpl; [| reflexivity].
  destruct (Py.str_in (expected_errmsg t) (stderr test_result)) eqn:Hm;
    [| now rewrite andb_false_r].
  exfalso. apply Hn. split; [now apply Z.eqb_eq | now apply str_in_iff].
Qed.

Lemma per_tag_results_app (l1 l2 : list PropertyTag) :
  per_tag_results test_result harness specification (l1 ++ l2)
  = per_tag_results test_result harness specification l1
    ++ per_tag_results test_result harness specification l2.
Proof. unfold per_tag_results. apply flat_map_app. Qed.

(** Tags none of which is both active and met: every result collected is
    the same, decided by the exit code alone. *)
Lemma per_tag_results_unmet (tags : list PropertyTag) :
  (forall t, In t tags -> ~ (active specification t /\ signature_met test_result t)) ->
  forall x, In x (per_tag_results test_result harness specification tags) ->
    x = if returncode test_result =? 0 then (RESULT_REJECT, None)
        else (RESULT_UNK, None).
Proof.
  induction tags as [|t tags IH]; intros Hn x Hx; [destruct Hx |].
  change (t :: tags) with ([t] ++ tags) in Hx.
  rewrite per_tag_results_app in Hx. apply in_app_or in Hx as [Hx|Hx].
  - unfold per_tag_results in Hx. simpl in Hx.
    destruct (Py.list_in (spec_name t) specification) eqn:Ha; [| destruct Hx].
    destruct Hx as [<-|[]]. apply values_no_accept. intros Hm.
    apply (Hn t); [now left |]. split; [now apply list_in_In | exact Hm].
  - apply IH; [| exact Hx]. intros t' Ht'. apply Hn. now right.
Qed.

End Classifier.

Lemma nth_list_index (a : string) (pre post : list (string * option string))
  (p : option string) (d : string * option string) :
  (forall x, In x pre -> fst x <> a) ->
  nth (Py.list_index a (map fst (pre ++ (a, p) :: post)))
      (pre ++ (a, p) :: post) d = (a, p).
Proof.
  induction pre as [|[r q] pre IH]; intros Hpre; simpl.
  - now rewrite String.eqb_refl.
  - destruct (String.eqb a r) eqn:E.
    + apply String.eqb_eq in E. exfalso.
      apply (Hpre (r, q)); [now left | now symmetry].
    + apply IH. intros x Hx. apply Hpre. now right.
Qed.

Lemma verdict_of_first_accept (pre post : list (string * option string))
  (p : option string) :
  (forall x, In x pre -> fst x <> RESULT_ACCEPT) ->
  verdict_of (pre ++ (RESULT_ACCEPT, p) :: post) = (RESULT_ACCEPT, p).
Proof.
  intros Hpre. unfold verdict_of.
  assert (Hin : Py.list_in RESULT_ACCEPT (map fst (pre ++ (RESULT_ACCEPT, p) :: post)) = true).
  { apply list_in_In, in_map_iff. exists (RESULT_ACCEPT, p). split; [reflexivity |].
    apply in_or_app. right. now left. }
  rewrite Hin. now rewrite nth_list_index.
Qed.

Lemma verdict_of_all (l : list (string * option string)) (r : string) :
  l <> [] -> r <> RESULT_ACCEPT -> (r = RESULT_UNK \/ r = RESULT_REJECT) ->
  (forall x, In x l -> x = (r, None)) ->
  verdict_of l = (r, None).
Proof.
  intros Hne Hr Hcases Hall. unfold verdict_of.
  assert (Hacc : Py.list_in RESULT_ACCEPT (map fst l) = false).
  { apply list_in_false. intros Hin. apply in_map_iff in Hin as (x & Hx & Hin).
    rewrite (Hall x Hin) in Hx. simpl in Hx. congruence. }
  rewrite Hacc. destruct Hcases as [-> | ->].
  - assert (Hunk : Py.list_in RESULT_UNK (map fst l) = true).
    { destruct l as [|x l]; [congruence |]. rewrite (Hall x) by now left.
      reflexivity. }
    now rewrite Hunk.
  - assert (Hunk : Py.list_in RESULT_UNK (map fst l) = false).
    { apply list_in_false. intros Hin. apply in_map_iff in Hin as (x & Hx & Hin).
      rewrite (Hall x Hin) in Hx. simpl in Hx. discriminate. }
    now rewrite Hunk.
Qed.

(** Every tag splits the registry into the tags of smaller rank, itself,
    and the rest. *)
Lemma registry_split (t : PropertyTag) :
  exists pre post, registry = pre ++ t :: post
    /\ forall t', In t' pre -> (rank t' < rank t)%nat.
Proof.
  destruct t.
  - exists [], [NoOverflow; ValidFree; ValidDeref; ValidMemtrack].
    split; [reflexivity | intros t' []].
  - exists [Reachability], [ValidFree; ValidDeref; ValidMemtrack].
    split; [reflexivity |]. intros t' [<-|[]]; simpl; lia.
  - exists [Reachability; NoOverflow], [ValidDeref; ValidMemtrack].
    split; [reflexivity |]. intros t' [<-|[<-|[]]]; simpl; lia.
  - exists [Reachability; NoOverflow; ValidFree], [ValidMemtrack].
    split; [reflexivity |]. intros t' [<-|[<-|[<-|[]]]]; simpl; lia.
  - exists [Reachability; NoOverflow; ValidFree; ValidDeref], [].
    split; [reflexivity |]. intros t' [<-|[<-|[<-|[<-|[]]]]]; simpl; lia.
Qed.

Lemma in_registry (t : PropertyTag) : In t registry.
Proof. destruct t; simpl; tauto. Qed.

(** C1. For every execution result and every specification with at
    least one active property: if [t] is the first property in registry
    order (Reachability, NoOverflow, ValidFree, ValidDeref, ValidMemtrack)
    that is active, whose expected exit code (107 for Reachability, 1 for
    the others) is the observed one and whose expected diagnostic text
    occurs in the observed standard error, [analyze_result] returns
    FALSE (confirmed) with [t] as the violated property; if there is no
    such property it returns TRUE (not reproduced) when the exit code is
    zero and UNKNOWN (inconclusive) otherwise. *)
Theorem analyze_result_classifies (test_result : ExecutionResult)
  (harness : string) (specification : list string) :
  (exists t, active specification t) ->
  (forall t, first_confirmed specification test_result t ->
     analyze_result test_result harness specification
     = (RESULT_ACCEPT, Some (spec_name t)))
  /\ ((forall t, ~ (active specification t /\ signature_met test_result t)) ->
      (returncode test_result = 0 ->
       analyze_result test_result harness specification = (RESULT_REJECT, None))
      /\ (returncode test_result <> 0 ->
          analyze_result test_result harness specification = (RESULT_UNK, None))).
Proof.
  intros [t0 Hactive]. rewrite analyze_result_unfold. split.
  - intros t (Ha & Hm & Hfirst).
    destruct (registry_split t) as (pre & post & -> & Hpre).
    rewrite per_tag_results_app.
    change (t :: post) with ([t] ++ post). rewrite per_tag_results_app.
    unfold per_tag_results at 2. simpl.
    apply list_in_In in Ha. rewrite Ha, (values_accept _ _ _ Hm). simpl.
    apply verdict_of_first_accept. intros x Hx.
    rewrite (per_tag_results_unmet test_result harness specification pre) with (x := x);
      [destruct (returncode test_result =? 0); simpl; discriminate | | exact Hx].
    intros t' Ht'. apply Hfirst, Hpre, Ht'.
  - intros Hnone.
    assert (Hne : per_tag_results test_result harness specification registry <> []).
    { destruct (registry_split t0) as (pre & post & -> & _).
      rewrite per_tag_results_app. change (t0 :: post) with ([t0] ++ post).
      rewrite per_tag_results_app. unfold per_tag_results at 2. simpl.
      apply list_in_In in Hactive. rewrite Hactive.
      intros E. apply app_eq_nil in E as [_ E]. discriminate. }
    pose proof (per_tag_results_unmet test_result harness specification registry
                  (fun t _ => Hnone t)) as Hall.
    split; intros Hrc.
    + apply verdict_of_all; [exact Hne | discriminate | now right |].
      intros x Hx. rewrite (Hall x Hx), Hrc. reflexivity.
    + apply verdict_of_all; [exact Hne | discriminate | now left |].
      intros x Hx. rewrite (Hall x Hx).
      apply Z.eqb_neq in Hrc. now rewrite Hrc.
Qed.

(** The theorem applied to exit code 107 with the reachability
    diagnostic, against the reachability property alone. *)
Lemma analyze_result_classifies_witness :
  analyze_result (mkExecutionResult 107 "" "cpa_witness2test: violation")
    "output/1.harness.c" [SPEC_REACH]
  = (RESULT_ACCEPT, Some SPEC_REACH).
Proof.
  refine (proj1 (analyze_result_classifies
                   (mkExecutionResult 107 "" "cpa_witness2test: violation")
                   "output/1.harness.c" [SPEC_REACH] _) Reachability _).
  - exists Reachability. left. reflexivity.
  - split; [left; reflexivity |]. split.
    + split; [reflexivity |]. exists "", "". reflexivity.
    + simpl. intros t' Hlt. lia.
Defined.

Example analyze_result_samples :
  analyze_result (mkExecutionResult 0 "" "") "h" [SPEC_OVERFLOW]
    = (RESULT_REJECT, None)
  /\ analyze_result (mkExecutionResult 2 "" "") "h" [SPEC_OVERFLOW]
    = (RESULT_UNK, None)
  /\ analyze_result (mkExecutionResult 1 "" "x.c:3: runtime error: overflow") "h"
       [SPEC_REACH; SPEC_OVERFLOW]
    = (RESULT_ACCEPT, Some SPEC_OVERFLOW)
  /\ analyze_result (mkExecutionResult 1 "" "ERROR: AddressSanitizer: heap-use") "h"
       [SPEC_MEM_FREE; SPEC_MEM_DEREF; SPEC_MEM_MEMTRACK]
    = (RESULT_ACCEPT, Some SPEC_MEM_DEREF).
Proof. repeat split; reflexivity. Qed.

(** ** The compile-command builder *)

Lemma any_in_memory (specification : list string) :
  any_in [SPEC_MEM_FREE; SPEC_MEM_DEREF; SPEC_MEM_MEMTRACK] specification = true
  <-> wants_memory specification.
Proof.
  unfold any_in, wants_memory. cbn [existsb].
  rewrite !orb_true_iff, !list_in_In. intuition discriminate.
Qed.

Lemma list_count_app (x : string) (l1 l2 : list string) :
  Py.list_count x (l1 ++ l2) = (Py.list_count x l1 + Py.list_count x l2)%nat.
Proof.
  induction l1 as [|y l1 IH]; simpl; [reflexivity |].
  destruct (String.eqb x y); simpl; now rewrite IH.
Qed.

Lemma list_count_absent (x : string) (l : list string) :
  ~ In x l -> Py.list_count x l = 0%nat.
Proof.
  induction l as [|y l IH]; simpl; intros Hn; [reflexivity |].
  destruct (String.eqb x y) eqn:E.
  - apply String.eqb_eq in E. subst y. exfalso. apply Hn. now left.
  - apply IH. intros Hx. apply Hn. now right.
Qed.

Section BuilderFacts.

Context {X : Type} (P : Platform X).

(** The command the builder returns, piece by piece; building it leaves
    the state alone. *)
Lemma create_compile_cmd_shape (harness target : string) (args : Args)
  (specification : list string) (c_version : string) (s s' : State X)
  (cmd : list string) :
  create_compile_cmd P harness target args specification c_version s = (Ok cmd, s') ->
  s' = s /\
  exists m, (m = "-m32" \/ m = "-m64") /\
    cmd = [compiler_in P (world s)] ++ GCC_ARGS_FIXED ++ gcc_args args ++ [m]
          ++ ["-std=" +:+ c_version]
          ++ (if Py.list_in SPEC_OVERFLOW specification then OVERFLOW_FLAGS else [])
          ++ (if any_in [SPEC_MEM_FREE; SPEC_MEM_DEREF; SPEC_MEM_MEMTRACK] specification
              then MEMORY_FLAGS else [])
          ++ (if Py.list_in SPEC_OVERFLOW specification
                 || any_in [SPEC_MEM_FREE; SPEC_MEM_DEREF; SPEC_MEM_MEMTRACK] specification
              then [NO_RECOVER_FLAG] else [])
          ++ ["-o"; target; harness; file args].
Proof.
  unfold create_compile_cmd, bind, shutil_which, lift, ret, _create_gcc_basic_args,
    compiler_in.
  destruct (String.eqb (machine_model args) MACHINE_MODEL_64);
    [| destruct (String.eqb (machine_model args) MACHINE_MODEL_32)].
  - destruct (Py.list_in SPEC_OVERFLOW specification);
      destruct (any_in [SPEC_MEM_FREE; SPEC_MEM_DEREF; SPEC_MEM_MEMTRACK] specification);
      intros H; injection H as <- <-; (split; [reflexivity |]);
      exists "-m64"; (split; [now right |]); simpl; rewrite <- ?app_assoc; reflexivity.
  - destruct (Py.list_in SPEC_OVERFLOW specification);
      destruct (any_in [SPEC_MEM_FREE; SPEC_MEM_DEREF; SPEC_MEM_MEMTRACK] specification);
      intros H; injection H as <- <-; (split; [reflexivity |]);
      exists "-m32"; (split; [now left |]); simpl; rewrite <- ?app_assoc; reflexivity.
  - intros H. discriminate.
Qed.

(** The builder fails only on the machine model. *)
Lemma create_compile_cmd_ok (harness target : string) (args : Args)
  (specification : list string) (c_version : string) (s : State X) :
  (machine_model args = MACHINE_MODEL_32 \/ machine_model args = MACHINE_MODEL_64) ->
  exists cmd,
    create_compile_cmd P harness target args specification c_version s = (Ok cmd, s).
Proof.
  intros Hm.
  unfold create_compile_cmd, bind, shutil_which, lift, ret, _create_gcc_basic_args.
  destruct Hm as [-> | ->];
    destruct (Py.list_in SPEC_OVERFLOW specification);
    destruct (any_in [SPEC_MEM_FREE; SPEC_MEM_DEREF; SPEC_MEM_MEMTRACK] specification);
    eexists; reflexivity.
Qed.

End BuilderFacts.

(** The wording of the specification fails when the pass-through arguments name a
    sanitizer themselves: with [-gcc-args -fsanitize=address
    -fsanitize=leak] and the reachability property alone, the command
    holds the address and leak sanitizer flags. *)
Lemma sanitizer_flags_passed_through :
  exists cmd,
    create_compile_cmd (machine [] (fun _ => false) [] asan_args [])
      "output/1.harness.c" "output/test_cex1" asan_args [SPEC_REACH] "gnu11"
      (boot PRP_UNREACH)
    = (Ok cmd, boot PRP_UNREACH)
    /\ ~ sanitizers_as_specified [SPEC_REACH] cmd.
Proof.
  eexists. split; [reflexivity |].
  intros (_ & [Hmem _] & _).
  assert (Hw : wants_memory [SPEC_REACH]).
  { apply Hmem. intros f Hf. simpl in Hf. simpl.
    destruct Hf as [<- | [<- | []]]; tauto. }
  unfold wants_memory in Hw. simpl in Hw.
  destruct Hw as [[H|[]] | [[H|[]] | [H|[]]]]; discriminate.
Qed.

Section SanitizerFlags.

Context {X : Type} (P : Platform X).
Variables (harness target : string) (args : Args) (specification : list string)
          (c_version : string) (s s' : State X) (cmd : list string).
Hypothesis Hbuilt :
  create_compile_cmd P harness target args specification c_version s = (Ok cmd, s').
Hypothesis Hcaller :
  forall x, In x (caller_strings harness target args) -> ~ In x SANITIZER_FLAGS.

(** A sanitizer flag is in the command only as one the builder derived. *)
Lemma sanitizer_flag_in_cmd (f : string) :
  In f SANITIZER_FLAGS -> (In f cmd <-> In f (derived_flags specification)).
Proof.
  intros Hf.
  destruct (create_compile_cmd_shape P _ _ _ _ _ _ _ _ Hbuilt) as (_ & m & Hm & ->).
  assert (Hgcc : ~ In f (gcc_args args)).
  { intros Hin. apply (Hcaller f); [| exact Hf]. unfold caller_strings. simpl. tauto. }
  assert (Hh : f <> harness).
  { intros ->. apply (Hcaller harness); [| exact Hf]. unfold caller_strings. simpl. tauto. }
  assert (Ht : f <> target).
  { intros ->. apply (Hcaller target); [| exact Hf]. unfold caller_strings. simpl. tauto. }
  assert (Hfile : f <> file args).
  { intros E. apply (Hcaller f); [| exact Hf]. unfold caller_strings. simpl. rewrite E. tauto. }
  set (pre := [compiler_in P (world s)] ++ GCC_ARGS_FIXED ++ gcc_args args ++ [m]
              ++ ["-std=" +:+ c_version]).
  set (tail := ["-o"; target; harness; file args]).
  assert (Hpre : ~ In f pre).
  { unfold pre, compiler_in. rewrite !in_app_iff. intros H.
    destruct H as [H|[H|[H|[H|H]]]]; [| | exact (Hgcc H) | |];
      destruct (which P "clang" (world s)); destruct Hm as [-> | ->];
      simpl in Hf; destruct Hf as [<-|[<-|[<-|[<-|[<-|[]]]]]]; simpl in H;
      repeat (destruct H as [H|H]; try discriminate H); destruct H. }
  assert (Htail : ~ In f tail).
  { unfold tail. simpl. intros [H|[H|[H|[H|[]]]]]; try congruence.
    subst f. simpl in Hf.
    repeat (destruct Hf as [Hf|Hf]; try discriminate Hf); destruct Hf. }
  replace (_ ++ _) with (pre ++ derived_flags specification ++ tail).
  - rewrite !in_app_iff. tauto.
  - unfold pre, derived_flags, tail. rewrite <- !app_assoc. reflexivity.
Qed.

Lemma no_recover_count :
  Py.list_count NO_RECOVER_FLAG cmd
  = if Py.list_in SPEC_OVERFLOW specification
       || any_in [SPEC_MEM_FREE; SPEC_MEM_DEREF; SPEC_MEM_MEMTRACK] specification
    then 1%nat else 0%nat.
Proof.
  assert (Hf : In NO_RECOVER_FLAG SANITIZER_FLAGS) by (simpl; tauto).
  assert (Hgcc : ~ In NO_RECOVER_FLAG (gcc_args args)).
  { intros Hin. apply (Hcaller NO_RECOVER_FLAG); [| exact Hf].
    unfold caller_strings. simpl. tauto. }
  assert (Htail : Py.list_count NO_RECOVER_FLAG ["-o"; target; harness; file args] = 0%nat).
  { apply list_count_absent. intros Hin. simpl in Hin.
    destruct Hin as [H|[H|[H|[H|[]]]]]; [discriminate H | | |];
      apply (Hcaller NO_RECOVER_FLAG); try exact Hf;
      unfold caller_strings; rewrite <- H; simpl; tauto. }
  destruct (create_compile_cmd_shape P _ _ _ _ _ _ _ _ Hbuilt) as (_ & m & Hm & ->).
  rewrite !list_count_app, Htail, (list_count_absent _ _ Hgcc).
  unfold compiler_in.
  destruct (which P "clang" (world s)); destruct Hm as [-> | ->];
    destruct (Py.list_in SPEC_OVERFLOW specification);
    destruct (any_in [SPEC_MEM_FREE; SPEC_MEM_DEREF; SPEC_MEM_MEMTRACK] specification);
    reflexivity.
Qed.

Lemma sanitizers_follow_holds : sanitizers_follow specification cmd.
Proof.
  pose proof (any_in_memory specification) as Hmem.
  pose proof (list_in_In SPEC_OVERFLOW specification) as Hov.
  unfold sanitizers_follow, wants_overflow.
  rewrite no_recover_count.
  repeat split.
  - intros Hw f Hf. apply sanitizer_flag_in_cmd.
    + unfold SANITIZER_FLAGS. apply in_or_app. now left.
    + unfold derived_flags. apply Hov in Hw. rewrite Hw. apply in_or_app. now left.
  - intros Hw f Hf Hin. apply sanitizer_flag_in_cmd in Hin.
    + unfold derived_flags in Hin.
      destruct (Py.list_in SPEC_OVERFLOW specification); [apply Hw; now apply Hov |].
      destruct (any_in [SPEC_MEM_FREE; SPEC_MEM_DEREF; SPEC_MEM_MEMTRACK] specification);
        simpl in Hin, Hf;
        destruct Hf as [<-|[<-|[]]];
        repeat (destruct Hin as [Hin|Hin]; try discriminate Hin); destruct Hin.
    + unfold SANITIZER_FLAGS. apply in_or_app. now left.
  - intros Hw f Hf. apply sanitizer_flag_in_cmd.
    + unfold SANITIZER_FLAGS. apply in_or_app. right. apply in_or_app. now left.
    + unfold derived_flags. apply Hmem in Hw. rewrite Hw.
      apply in_or_app. right. apply in_or_app. now left.
  - intros Hw f Hf Hin. apply sanitizer_flag_in_cmd in Hin.
    + unfold derived_flags in Hin.
      destruct (any_in [SPEC_MEM_FREE; SPEC_MEM_DEREF; SPEC_MEM_MEMTRACK] specification);
        [apply Hw; now apply Hmem |].
      destruct (Py.list_in SPEC_OVERFLOW specification);
        simpl in Hin, Hf;
        destruct Hf as [<-|[<-|[]]];
        repeat (destruct Hin as [Hin|Hin]; try discriminate Hin); destruct Hin.
    + unfold SANITIZER_FLAGS. apply in_or_app. right. apply in_or_app. now left.
  - intros [Hw | Hw].
    + apply Hov in Hw. now rewrite Hw.
    + apply Hmem in Hw. rewrite Hw. now rewrite orb_true_r.
  - intros Hw.
    destruct (Py.list_in SPEC_OVERFLOW specification) eqn:E1.
    { exfalso. apply Hw. left. now apply Hov. }
    destruct (any_in [SPEC_MEM_FREE; SPEC_MEM_DEREF; SPEC_MEM_MEMTRACK] specification) eqn:E2.
    { exfalso. apply Hw. right. now apply Hmem. }
    reflexivity.
Qed.

End SanitizerFlags.

(** C5, amended. For every specification and every compile command the
    builder returns, provided none of the strings the caller supplies
    (pass-through arguments, harness, target and program paths) is itself
    a sanitizer flag: the command holds both overflow-sanitizer flags when
    NoOverflow is active and neither of them otherwise; it holds the
    address and leak sanitizer flags when one of ValidFree, ValidDeref,
    ValidMemtrack is active and neither of them otherwise; it holds the
    no-recovery flag exactly once when one of the two pairs was added
    and not at all otherwise.  For the reachability property alone no
    sanitizer flag and no no-recovery flag appears. *)
Theorem compile_cmd_sanitizer_flags {X : Type} (P : Platform X)
  (harness target : string) (args : Args) (specification : list string)
  (c_version : string) (s s' : State X) (cmd : list string) :
  create_compile_cmd P harness target args specification c_version s = (Ok cmd, s') ->
  (forall x, In x (caller_strings harness target args) -> ~ In x SANITIZER_FLAGS) ->
  sanitizers_follow specification cmd
  /\ (specification = [SPEC_REACH] -> forall f, In f SANITIZER_FLAGS -> ~ In f cmd).
Proof.
  intros Hbuilt Hcaller. split.
  - exact (sanitizers_follow_holds P _ _ _ _ _ _ _ _ Hbuilt Hcaller).
  - intros -> f Hf Hin.
    apply (sanitizer_flag_in_cmd P _ _ _ _ _ _ _ _ Hbuilt Hcaller f Hf) in Hin.
    exact Hin.
Qed.

(** The theorem applied to the overflow property on a machine without
    [clang]. *)
Lemma compile_cmd_sanitizer_flags_witness :
  sanitizers_follow [SPEC_OVERFLOW]
    ["gcc"; "-D__alias__(x)="; "-m32"; "-std=gnu11";
     "-fsanitize=signed-integer-overflow"; "-fsanitize=float-cast-overflow";
     "-fno-sanitize-recover"; "-o"; "output/test_cex1"; "output/1.harness.c";
     "prog.c"].
Proof.
  refine (proj1 (compile_cmd_sanitizer_flags
                   (machine [] (fun _ => false) [] sample_args sample_argv)
                   "output/1.harness.c" "output/test_cex1" sample_args
                   [SPEC_OVERFLOW] "gnu11" (boot PRP_OVERFLOW) (boot PRP_OVERFLOW)
                   _ _ _)).
  - reflexivity.
  - intros x Hx Hf. simpl in Hx, Hf.
    destruct Hx as [<-|[<-|[<-|[]]]];
      repeat (destruct Hf as [Hf|Hf]; try discriminate Hf); destruct Hf.
Defined.

Example compile_cmd_samples :
  fst (create_compile_cmd (machine [] (fun _ => true) [] sample_args sample_argv)
         "output/1.harness.c" "output/test_cex1" sample_args [SPEC_MEM_DEREF]
         "gnu90" (boot PRP_MEMSAFETY))
  = Ok ["clang"; "-D__alias__(x)="; "-m32"; "-std=gnu90"; "-fsanitize=address";
        "-fsanitize=leak"; "-fno-sanitize-recover"; "-o"; "output/test_cex1";
        "output/1.harness.c"; "prog.c"]
  /\ fst (create_compile_cmd (machine [] (fun _ => false) [] sample_args sample_argv)
         "output/1.harness.c" "output/test_cex1" sample_args [SPEC_REACH]
         "gnu11" (boot PRP_UNREACH))
  = Ok ["gcc"; "-D__alias__(x)="; "-m32"; "-std=gnu11"; "-o"; "output/test_cex1";
        "output/1.harness.c"; "prog.c"].
Proof. split; reflexivity. Qed.

(** ** The specification parser *)

Lemma splits_complete (p q : string) : In (p, q) (splits (p +:+ q)).
Proof.
  induction p as [|c p IH]; simpl.
  - destruct q; now left.
  - right. apply in_map_iff. exists (p, q). split; [reflexivity | exact IH].
Qed.

(** Every text the group can stand for is among the candidates. *)
Lemma candidate_formulas_complete (content f : string) :
  formula_of content f -> In f (candidate_formulas content).
Proof.
  intros (head & tail & rest & -> & Hh & Hf & Ht).
  unfold candidate_formulas. apply in_flat_map.
  exists (head, f +:+ tail +:+ rest). split; [apply splits_complete |].
  apply ReFacts.fullmatch_iff in Hh. rewrite Hh.
  apply in_flat_map. exists (f, tail +:+ rest). split; [apply splits_complete |].
  apply ReFacts.fullmatch_iff in Hf. rewrite Hf.
  assert (Hm : Re.match_ REGEX_CHECK_TAIL (tail +:+ rest) = true).
  { apply ReFacts.match_iff. now exists tail, rest. }
  rewrite Hm. now left.
Qed.

(** What the loop over [SPECIFICATIONS] keeps: the tags whose pattern is
    found somewhere in the text it is given. *)
Lemma matching_specifications_iff (content : string) (t : PropertyTag) :
  In (spec_name t) (matching_specifications content)
  <-> Re.search (recognize t) content = true.
Proof.
  unfold matching_specifications, SPECIFICATIONS. cbn [List.filter].
  destruct (Re.search REGEX_REACH content) eqn:E1;
    destruct (Re.search REGEX_OVERFLOW content) eqn:E2;
    destruct (Re.search REGEX_MEM_FREE content) eqn:E3;
    destruct (Re.search REGEX_MEM_DEREF content) eqn:E4;
    destruct (Re.search REGEX_MEM_MEMTRACK content) eqn:E5;
    destruct t; cbn [recognize spec_name map fst In];
    rewrite ?E1, ?E2, ?E3, ?E4, ?E5;
    (split; [intros H; try reflexivity;
             repeat (destruct H as [H|H]; try discriminate H); try contradiction
            | intros H; try discriminate H;
              repeat first [left; reflexivity | right]]).
Qed.

Lemma matching_specifications_names (content x : string) :
  In x (matching_specifications content) -> exists t, x = spec_name t.
Proof.
  unfold matching_specifications. intros H.
  apply in_map_iff in H as ([n r] & <- & H). apply filter_In in H as [H _].
  unfold SPECIFICATIONS in H. simpl in H.
  destruct H as [H|[H|[H|[H|[H|[]]]]]]; injection H as <- _;
    [exists Reachability | exists NoOverflow | exists ValidFree
     | exists ValidDeref | exists ValidMemtrack]; reflexivity.
Qed.

(** What [get_spec] returns when it returns: the file exists, its
    stripped text starts with the [CHECK] clause, and the result is the
    non-empty list of names found in that text. *)
Lemma get_spec_ok {X : Type} (specification_file : string) (s s' : State X)
  (specification : list string) :
  get_spec specification_file s = (Ok specification, s') ->
  s' = s /\ exists raw,
    files (world s) !! specification_file = Some raw
    /\ Re.match_ REGEX_CHECK (Py.strip Py.isspace raw) = true
    /\ specification = matching_specifications (Py.strip Py.isspace raw)
    /\ specification <> [].
Proof.
  unfold get_spec, bind, read_file, raise, ret.
  destruct (files (world s) !! specification_file) as [raw|]; [| discriminate].
  destruct (Re.match_ REGEX_CHECK (Py.strip Py.isspace raw)) eqn:Hm.
  - simpl. destruct (matching_specifications (Py.strip Py.isspace raw)) eqn:E;
      [discriminate |].
    intros H. injection H as <- <-. split; [reflexivity |].
    exists raw. repeat split; congruence.
  - simpl. discriminate.
Qed.

(** The memory-safety property file has one clause per line.  The
    parser reports all three memory properties, although [valid-deref]
    occurs in no text the group of the [CHECK] pattern can stand for. *)
Lemma get_spec_reads_whole_document :
  exists specification,
    get_spec "prop.prp" (boot PRP_MEMSAFETY) = (Ok specification, boot PRP_MEMSAFETY)
    /\ specification = [SPEC_MEM_FREE; SPEC_MEM_DEREF; SPEC_MEM_MEMTRACK]
    /\ ~ parsed_from_formula (Py.strip Py.isspace PRP_MEMSAFETY) specification.
Proof.
  exists [SPEC_MEM_FREE; SPEC_MEM_DEREF; SPEC_MEM_MEMTRACK].
  split; [reflexivity |]. split; [reflexivity |].
  intros Hworded. destruct (Hworded ValidDeref) as [Hin _].
  destruct Hin as (f & Hf & Hsearch); [right; left; reflexivity |].
  apply candidate_formulas_complete in Hf.
  assert (Hnone : forallb (fun f => negb (Re.search (recognize ValidDeref) f))
                    (candidate_formulas (Py.strip Py.isspace PRP_MEMSAFETY)) = true)
    by (vm_compute; reflexivity).
  rewrite forallb_forall in Hnone. specialize (Hnone f Hf).
  rewrite Hsearch in Hnone. discriminate.
Qed.

(** C6, amended. When the parser returns a specification, the stripped
    text of the document begins with a
    [CHECK(init(...), LTL(<formula>))] clause, and a property tag is in
    the active set exactly when its recognition pattern matches a piece
    of that whole text; the formula text inside the clause is not taken
    out, so a pattern that occurs elsewhere in the document counts as
    well.  The set holds nothing but property tags. *)
Theorem get_spec_recognizes {X : Type} (specification_file : string)
  (s s' : State X) (specification : list string) :
  get_spec specification_file s = (Ok specification, s') ->
  exists raw,
    files (world s) !! specification_file = Some raw
    /\ (exists clause rest,
          Py.strip Py.isspace raw = clause +:+ rest
          /\ Re.Matches REGEX_CHECK clause)
    /\ (forall t,
          In (spec_name t) specification <->
          exists before piece after,
            Py.strip Py.isspace raw = before +:+ piece +:+ after
            /\ Re.Matches (recognize t) piece)
    /\ (forall x, In x specification -> exists t, x = spec_name t).
Proof.
  intros H. apply get_spec_ok in H as (_ & raw & Hfile & Hm & -> & _).
  exists raw. split; [exact Hfile |]. split; [now apply ReFacts.match_iff |]. split.
  - intros t. rewrite matching_specifications_iff. apply ReFacts.search_iff.
  - apply matching_specifications_names.
Qed.

(** The theorem applied to the reachability property file. *)
Lemma get_spec_recognizes_witness :
  exists raw,
    files (world (boot PRP_UNREACH)) !! "prop.prp" = Some raw
    /\ (exists clause rest,
          Py.strip Py.isspace raw = clause +:+ rest
          /\ Re.Matches REGEX_CHECK clause)
    /\ (forall t,
          In (spec_name t) [SPEC_REACH] <->
          exists before piece after,
            Py.strip Py.isspace raw = before +:+ piece +:+ after
            /\ Re.Matches (recognize t) piece)
    /\ (forall x, In x [SPEC_REACH] -> exists t, x = spec_name t).
Proof.
  apply (get_spec_recognizes "prop.prp" (boot PRP_UNREACH) (boot PRP_UNREACH)
           [SPEC_REACH]).
  reflexivity.
Defined.

Example get_spec_samples :
  fst (get_spec "prop.prp" (boot PRP_UNREACH)) = Ok [SPEC_REACH]
  /\ fst (get_spec "prop.prp" (boot PRP_OVERFLOW)) = Ok [SPEC_OVERFLOW]
  /\ fst (get_spec "prop.prp" (boot "CHECK( init(main()), LTL(F end) )"))
     = Raise (AssertionError
                "No specification found for specification string: CHECK( init(main()), LTL(F end) )")
  /\ fst (get_spec "prop.prp" (boot "G ! overflow"))
     = Raise (AssertionError
                "No specification found for specification string: G ! overflow")
  /\ fst (get_spec "missing.prp" (boot PRP_UNREACH))
     = Raise (FileNotFoundError "missing.prp").
Proof. repeat split; reflexivity. Qed.

(** ** The monad *)

Section MonadFacts.

Context {X A B : Type}.

Lemma bind_ok (m : M X A) (k : A -> M X B) (s s' : State X) (b : B) :
  bind m k s = (Ok b, s') ->
  exists a s1, m s = (Ok a, s1) /\ k a s1 = (Ok b, s').
Proof.
  unfold bind. destruct (m s) as [[a|e] s1]; intros H; [eauto | discriminate].
Qed.

Lemma bind_raise (m : M X A) (k : A -> M X B) (s s' : State X) (e : exn) :
  bind m k s = (Raise e, s') ->
  m s = (Raise e, s') \/ exists a s1, m s = (Ok a, s1) /\ k a s1 = (Raise e, s').
Proof.
  unfold bind. destruct (m s) as [[a|e0] s1]; intros H; [eauto |].
  left. injection H as -> ->. reflexivity.
Qed.

Lemma bind_step (m : M X A) (k : A -> M X B) (s s1 : State X) (a : A) :
  m s = (Ok a, s1) -> bind m k s = k a s1.
Proof. unfold bind. now intros ->. Qed.

End MonadFacts.

(** ** One harness: compile, run, record *)

Section LoopBody.

Context {X : Type} (P : Platform X).
Variables (args : Args) (output_dir : string) (specification : list string).

(** The test run never fails: it spawns the binary and captures what it
    printed. *)
Lemma run_test_eq (harness exe_target : string) (s : State X) :
  run_test P harness exe_target output_dir s
  = (Ok (fst (popen P [exe_target] (world s))),
     after_test harness exe_target output_dir
       (fst (popen P [exe_target] (world s)))
       (snd (popen P [exe_target] (world s))) (trace s)).
Proof.
  unfold run_test, bind, execute, write_file, ret, after_test, capture,
    capture_event, stdout_file, stderr_file.
  destruct (popen P [exe_target] (world s)) as [r [fs hid]]. simpl.
  destruct (Py.truthy (stdout r)), (Py.truthy (stderr r)); simpl;
    rewrite <- ?app_assoc; reflexivity.
Qed.

(** The two compile attempts, step by step. *)
Lemma compile_harness_ok (harness exe_target : string) (s s1 : State X)
  (compiled : option bool) :
  compile_harness P harness exe_target args specification s = (Ok compiled, s1) ->
  exists cmd1,
    create_compile_cmd P harness exe_target args specification "gnu11" s = (Ok cmd1, s)
    /\ let r1 := fst (popen P cmd1 (world s)) in
       let w1 := snd (popen P cmd1 (world s)) in
       let s_mid := mkState w1 (trace s ++ [Spawn (AtCompile harness) cmd1 r1]) in
       (returncode r1 = 0 /\ compiled = Some true /\ s1 = s_mid)
       \/ (returncode r1 <> 0 /\
           exists cmd2,
             create_compile_cmd P harness exe_target args specification "gnu90" s_mid
             = (Ok cmd2, s_mid)
             /\ let r2 := fst (popen P cmd2 w1) in
                let w2 := snd (popen P cmd2 w1) in
                s1 = mkState w2 (trace s ++ [Spawn (AtCompile harness) cmd1 r1;
                                             Spawn (AtCompile harness) cmd2 r2])
                /\ compiled = if returncode r2 =? 0 then Some false else None).
Proof.
  unfold compile_harness. intros H.
  apply bind_ok in H as (cmd1 & s0 & Hc1 & H).
  destruct (create_compile_cmd_shape P _ _ _ _ _ _ _ _ Hc1) as [-> _].
  exists cmd1. split; [exact Hc1 |].
  apply bind_ok in H as (r1 & s_mid & He1 & H).
  unfold execute in He1. destruct (popen P cmd1 (world s)) as [r1' w1] eqn:Ep1.
  injection He1 as -> <-. simpl.
  destruct (returncode r1 =? 0) eqn:Hr1; simpl in H.
  - left. unfold ret in H. injection H as <- <-.
    apply Z.eqb_eq in Hr1. auto.
  - right. apply Z.eqb_neq in Hr1. split; [exact Hr1 |].
    apply bind_ok in H as (cmd2 & s0 & Hc2 & H).
    destruct (create_compile_cmd_shape P _ _ _ _ _ _ _ _ Hc2) as [-> _].
    exists cmd2. split; [exact Hc2 |].
    apply bind_ok in H as (r2 & s2 & He2 & H).
    unfold execute in He2. simpl in He2.
    destruct (popen P cmd2 w1) as [r2' w2] eqn:Ep2.
    injection He2 as -> <-. simpl.
    rewrite <- app_assoc in H. simpl in H.
    destruct (returncode r2 =? 0); simpl in H; unfold ret in H;
      injection H as <- <-; auto.
Qed.

(** One iteration that does not raise, step by step. *)
Lemma loop_body_ok (harness : string) (v v' : LoopVars) (c : control)
  (s s' : State X) :
  loop_body P args output_dir specification harness v s = (Ok (c, v'), s') ->
  exists target_name compiled s1,
    get_target_name harness = Ok target_name
    /\ let exe_target := output_dir +:+ Py.os_sep +:+ target_name in
       compile_harness P harness exe_target args specification s = (Ok compiled, s1)
       /\ match compiled with
          | None => c = Next /\ v' = count_iteration v /\ s' = s1
          | Some c11 =>
              let r := fst (popen P [exe_target] (world s1)) in
              let w := snd (popen P [exe_target] (world s1)) in
              s' = after_test harness exe_target output_dir r w (trace s1)
              /\ (c, v') = record_result harness
                             (analyze_result r harness specification)
                             (count_compiled c11 (count_iteration v))
          end.
Proof.
  unfold loop_body. intros H.
  apply bind_ok in H as (target_name & s0 & Ht & H).
  unfold lift in Ht. injection Ht as Ht <-.
  apply bind_ok in H as (compiled & s1 & Hc & H).
  exists target_name, compiled, s1. split; [exact Ht |]. split; [exact Hc |].
  destruct compiled as [c11|].
  - apply bind_ok in H as (r & s2 & Hr & H).
    rewrite run_test_eq in Hr. injection Hr as <- <-.
    unfold ret in H. injection H as H <-. split; [reflexivity | now symmetry].
  - unfold ret in H. injection H as <- <- <-. auto.
Qed.

End LoopBody.

(** ** What one iteration adds to the trace *)

Lemma test_runs_app (l1 l2 : list event) :
  test_runs (l1 ++ l2) = test_runs l1 ++ test_runs l2.
Proof. apply omap_app. Qed.

Lemma compile_commands_app (l1 l2 : list event) :
  compile_commands (l1 ++ l2) = compile_commands l1 ++ compile_commands l2.
Proof. apply omap_app. Qed.

Lemma outcomes_app (specification : list string) (l1 l2 : list event) :
  outcomes specification (l1 ++ l2)
  = outcomes specification l1 ++ outcomes specification l2.
Proof. unfold outcomes. now rewrite test_runs_app, map_app. Qed.

Lemma capture_event_quiet (path text : string) :
  test_runs (capture_event path text) = []
  /\ compile_commands (capture_event path text) = []
  /\ forall h e, In e (capture_event path text) -> event_of_harness h e.
Proof.
  unfold capture_event. destruct (Py.truthy text); repeat split; try reflexivity.
  - intros h e [<-|[]]. right. eauto.
  - intros h e [].
Qed.

Section Iteration.

Context {X : Type} (P : Platform X).
Variables (args : Args) (output_dir : string) (specification : list string).

(** The compile attempts add one or two compile events of the harness
    and nothing else. *)
Lemma compile_harness_trace (harness exe_target : string) (s s1 : State X)
  (compiled : option bool) :
  compile_harness P harness exe_target args specification s = (Ok compiled, s1) ->
  exists new,
    trace s1 = trace s ++ new
    /\ test_runs new = []
    /\ forall e, In e new -> event_harness e = Some harness.
Proof.
  intros H. apply compile_harness_ok in H as (cmd1 & _ & H). simpl in H.
  destruct H as [(_ & _ & ->) | (_ & cmd2 & _ & -> & _)]; simpl;
    eexists; (split; [reflexivity |]); (split; [reflexivity |]); intros e He;
    simpl in He.
  - destruct He as [<-|[]]. reflexivity.
  - destruct He as [<-|[<-|[]]]; reflexivity.
Qed.

(** An iteration that does not raise either compiles nothing and moves
    on, or runs the test once and records its classification; all it
    adds to the trace belongs to its harness. *)
Lemma loop_body_trace (harness : string) (v v' : LoopVars) (c : control)
  (s s' : State X) :
  loop_body P args output_dir specification harness v s = (Ok (c, v'), s') ->
  exists new,
    trace s' = trace s ++ new
    /\ (forall e, In e new -> event_of_harness harness e)
    /\ ((test_runs new = [] /\ c = Next /\ v' = count_iteration v)
        \/ exists c11 r,
             test_runs new = [(harness, r)]
             /\ (c, v') = record_result harness
                            (analyze_result r harness specification)
                            (count_compiled c11 (count_iteration v))).
Proof.
  intros H. apply loop_body_ok in H as (target_name & compiled & s1 & _ & Hc & H).
  simpl in H. apply compile_harness_trace in Hc as (cev & Hcev & Hruns & Hown).
  destruct compiled as [c11|].
  - destruct H as [-> Hrec]. set (exe := output_dir +:+ Py.os_sep +:+ target_name) in *.
    set (r := fst (popen P [exe] (world s1))) in *.
    exists (cev ++ [Spawn (AtTest harness) [exe] r]
              ++ capture_event (stdout_file output_dir) (stdout r)
              ++ capture_event (stderr_file output_dir) (stderr r)).
    destruct (capture_event_quiet (stdout_file output_dir) (stdout r)) as (Q1 & _ & O1).
    destruct (capture_event_quiet (stderr_file output_dir) (stderr r)) as (Q2 & _ & O2).
    split; [| split].
    + unfold after_test. simpl. rewrite Hcev. now rewrite <- app_assoc.
    + intros e He. apply in_app_or in He as [He|He]; [left; now apply Hown |].
      apply in_app_or in He as [He|He].
      * destruct He as [<-|[]]. left. reflexivity.
      * apply in_app_or in He as [He|He]; [now apply O1 | now apply O2].
    + right. exists c11, r. split; [| exact Hrec].
      rewrite !test_runs_app, Hruns, Q1, Q2. reflexivity.
  - destruct H as (-> & -> & ->). exists cev.
    split; [exact Hcev |]. split; [| left; auto].
    intros e He. left. now apply Hown.
Qed.

End Iteration.

(** ** The loop over the harnesses *)

Section Loop.

Context {X : Type} (P : Platform X).
Variables (args : Args) (output_dir : string) (specification : list string).

Lemma for_harnesses_nil (v : LoopVars) (s : State X) :
  for_harnesses P args output_dir specification [] v s = (Ok (Next, v), s).
Proof. reflexivity. Qed.

Lemma for_harnesses_cons (h : string) (rest : list string) (v : LoopVars)
  (s : State X) :
  for_harnesses P args output_dir specification (h :: rest) v s
  = match loop_body P args output_dir specification h v s with
    | (Ok (Break, v1), s1) => (Ok (Break, v1), s1)
    | (Ok (Next, v1), s1) =>
        for_harnesses P args output_dir specification rest v1 s1
    | (Raise e, s1) => (Raise e, s1)
    end.
Proof.
  simpl. unfold bind.
  destruct (loop_body P args output_dir specification h v s) as [[[[|] v1]|e] s1];
    reflexivity.
Qed.

(** A loop that ran through a first list without [break] goes on with
    the second. *)
Lemma for_harnesses_app (pre rest : list string) (v v1 : LoopVars)
  (s s1 : State X) :
  for_harnesses P args output_dir specification pre v s = (Ok (Next, v1), s1) ->
  for_harnesses P args output_dir specification (pre ++ rest) v s
  = for_harnesses P args output_dir specification rest v1 s1.
Proof.
  revert v s. induction pre as [|h pre IH]; intros v s H.
  - rewrite for_harnesses_nil in H. now injection H as -> ->.
  - rewrite <- app_comm_cons, for_harnesses_cons. rewrite for_harnesses_cons in H.
    destruct (loop_body P args output_dir specification h v s)
      as [[[[|] v2]|e] s2]; [now apply IH | discriminate | discriminate].
Qed.

(** A property of the processed harnesses, the way the last iteration
    ended, the variables and the state that every iteration carries
    along holds when the loop is left; the loop is left by [break] or
    with every harness processed. *)
Lemma for_harnesses_invariant
  (I : list string -> control -> LoopVars -> State X -> Prop) :
  (forall done h v s c v' s',
      I done Next v s ->
      loop_body P args output_dir specification h v s = (Ok (c, v'), s') ->
      I (done ++ [h]) c v' s') ->
  forall hs done v s c v' s',
    I done Next v s ->
    for_harnesses P args output_dir specification hs v s = (Ok (c, v'), s') ->
    exists used rest,
      hs = used ++ rest /\ I (done ++ used) c v' s' /\ (c = Next -> rest = []).
Proof.
  intros Hstep hs. induction hs as [|h hs IH]; intros done v s c v' s' HI H.
  - rewrite for_harnesses_nil in H. injection H as <- <- <-.
    exists [], []. split; [reflexivity |].
    split; [now rewrite app_nil_r | reflexivity].
  - rewrite for_harnesses_cons in H.
    destruct (loop_body P args output_dir specification h v s)
      as [[[[|] v1]|e] s1] eqn:Hb; [| | discriminate].
    + apply (Hstep done) in Hb; [| exact HI].
      destruct (IH _ _ _ _ _ _ Hb H) as (used & rest & -> & HI' & Hc).
      exists (h :: used), rest. rewrite <- app_assoc in HI'.
      repeat split; [exact HI' | exact Hc].
    + injection H as <- <- <-. apply (Hstep done) in Hb; [| exact HI].
      exists [h], hs. split; [reflexivity |]. split; [exact Hb |].
      discriminate.
Qed.

(** *** The statistics counters *)

Lemma record_result_counters (harness : string) (classified : string * option string)
  (v v' : LoopVars) (c : control) :
  record_result harness classified v = (c, v') ->
  iter_count v' = iter_count v
  /\ compile_success_count v' = compile_success_count v
  /\ c11_success_count v' = c11_success_count v
  /\ steps_by_at_most_one (reject_count v) (reject_count v').
Proof.
  unfold record_result, steps_by_at_most_one. destruct classified as [result p].
  destruct (String.eqb result RESULT_ACCEPT); [| destruct (String.eqb result RESULT_REJECT)];
    intros H; injection H as <- <-; simpl; auto.
Qed.

(** One iteration: every counter stays or goes up by one, and the chain
    of inequalities moves from [n] harnesses seen to [n + 1]. *)
Lemma loop_body_counters (h : string) (v v' : LoopVars) (c : control)
  (s s' : State X) :
  loop_body P args output_dir specification h v s = (Ok (c, v'), s') ->
  counters_step v v'
  /\ forall n, counters_ok n v -> counters_ok (S n) v'.
Proof.
  intros H. apply loop_body_trace in H as (new & _ & _ & H).
  destruct H as [(_ & _ & ->) | (c11 & r & _ & Hrec)].
  - unfold counters_step, counters_ok, steps_by_at_most_one. simpl.
    split; [auto |]. intros n. lia.
  - symmetry in Hrec. apply record_result_counters in Hrec as (E1 & E2 & E3 & E4).
    unfold counters_step, counters_ok, steps_by_at_most_one in *.
    rewrite E1, E2, E3. simpl in *.
    destruct c11; (split; [repeat split; auto | intros n Hn; lia]).
Qed.

End Loop.

(** C10. Throughout every run and at its end: after the loop has gone
    through any initial part [pre] of the harnesses produced, the
    counters satisfy (C11 compile successes) <= (overall compile
    successes) <= (harnesses tested) <= (harnesses produced) and
    (harnesses rejected) <= (harnesses tested), each counter is
    non-negative, and in every iteration each counter stays or goes up
    by one. *)
Theorem counters_invariant {X : Type} (P : Platform X) (args : Args)
  (output_dir : string) (specification : list string) :
  (forall (pre post : list string) (c : control) (v : LoopVars) (s s' : State X),
      for_harnesses P args output_dir specification pre initial_vars s
      = (Ok (c, v), s') ->
      counters_ok (length (pre ++ post)) v
      /\ 0 <= compile_success_count v /\ 0 <= iter_count v)
  /\ (forall (h : string) (c : control) (v v' : LoopVars) (s s' : State X),
         loop_body P args output_dir specification h v s = (Ok (c, v'), s') ->
         counters_step v v').
Proof.
  split.
  - intros pre post c v s s' H.
    pose proof (for_harnesses_invariant P args output_dir specification
                  (fun done _ v _ => counters_ok (length done) v)) as Hinv.
    destruct (Hinv) with (hs := pre) (done := @nil string) (v := initial_vars)
      (s := s) (c := c) (v' := v) (s' := s') as (used & rest & -> & Hok & _).
    + intros done h v0 s0 c0 v1 s1 Hok Hb.
      rewrite length_app, Nat.add_1_r.
      exact (proj2 (loop_body_counters P _ _ _ _ _ _ _ _ _ Hb) _ Hok).
    + unfold counters_ok, initial_vars. simpl. lia.
    + exact H.
    + simpl in Hok. unfold counters_ok in *. rewrite !length_app. lia.
  - intros h c v v' s s' H.
    exact (proj1 (loop_body_counters P _ _ _ _ _ _ _ _ _ H)).
Qed.

(** The first part of the theorem applied to the loop of the
    two-harness run. *)
Lemma counters_invariant_witness :
  let v := mkLoopVars (Some RESULT_REJECT) None None 2 2 1 2 in
  counters_ok 2 v /\ 0 <= compile_success_count v /\ 0 <= iter_count v.
Proof.
  refine (proj1 (counters_invariant two_harness_machine sample_args "output"
                   [SPEC_REACH])
            [HARNESS_1; HARNESS_2] [] Next _ at_loop_start
            (snd (for_harnesses two_harness_machine sample_args "output"
                    [SPEC_REACH] [HARNESS_1; HARNESS_2] initial_vars
                    at_loop_start)) _).
  vm_compute. reflexivity.
Defined.

(** ** The verdict of the loop *)

Lemma nth_list_index_in (a : string) (l : list (string * option string))
  (d : string * option string) :
  In a (map fst l) ->
  exists p, nth (Py.list_index a (map fst l)) l d = (a, p) /\ In (a, p) l.
Proof.
  induction l as [|[r q] l IH]; simpl; intros H; [destruct H |].
  destruct (String.eqb a r) eqn:E.
  - apply String.eqb_eq in E as ->. exists q. auto.
  - destruct H as [H|H]; [subst r; rewrite String.eqb_refl in E; discriminate |].
    destruct (IH H) as (p & Hn & Hin). exists p. auto.
Qed.

(** The three shapes of a classification. *)
Lemma analyze_result_cases (test_result : ExecutionResult) (harness : string)
  (specification : list string) :
  analyze_result test_result harness specification = (RESULT_REJECT, None)
  \/ analyze_result test_result harness specification = (RESULT_UNK, None)
  \/ exists t, active specification t /\ signature_met test_result t
       /\ analyze_result test_result harness specification
          = (RESULT_ACCEPT, Some (spec_name t)).
Proof.
  rewrite analyze_result_unfold. unfold verdict_of.
  set (l := per_tag_results test_result harness specification registry).
  destruct (Py.list_in RESULT_ACCEPT (map fst l)) eqn:Hacc.
  - right. right. apply list_in_In in Hacc.
    destruct (nth_list_index_in _ _ (RESULT_UNK, None) Hacc) as (p & -> & Hin).
    unfold l, per_tag_results in Hin. apply in_flat_map in Hin as (t & _ & Hin).
    destruct (Py.list_in (spec_name t) specification) eqn:Ha; [| destruct Hin].
    destruct Hin as [Hin|[]]. exists t. apply list_in_In in Ha.
    split; [exact Ha |]. unfold _analyze_result_values in Hin.
    destruct ((returncode test_result =? expected_code t)
              && Py.truthy (stderr test_result)
              && Py.str_in (expected_errmsg t) (stderr test_result)) eqn:Hc.
    + injection Hin as <-. apply andb_true_iff in Hc as [Hc Hm].
      apply andb_true_iff in Hc as [Hc _]. split; [| reflexivity].
      split; [now apply Z.eqb_eq | now apply str_in_iff].
    + destruct (returncode test_result =? 0); discriminate.
  - destruct (Py.list_in RESULT_UNK (map fst l)); auto.
Qed.

Lemma accumulate_not_accept (final : option string) (result : string) :
  final <> Some RESULT_ACCEPT -> result <> RESULT_ACCEPT ->
  accumulate final result <> Some RESULT_ACCEPT.
Proof.
  intros Hf Hr. unfold accumulate.
  destruct (String.eqb result RESULT_ACCEPT) eqn:E;
    [apply String.eqb_eq in E; contradiction |].
  destruct (String.eqb result RESULT_REJECT); [| discriminate].
  destruct (negb (Py.truthy_opt final)); [discriminate | exact Hf].
Qed.

(** Lines 450-462, case by case. *)
Lemma record_result_accept (harness : string) (p : option string) (v : LoopVars) :
  violated_property v = None ->
  record_result harness (RESULT_ACCEPT, p) v
  = (Break, mkLoopVars (Some RESULT_ACCEPT) p (Some harness) (iter_count v)
              (compile_success_count v) (c11_success_count v) (reject_count v)).
Proof. intros Hv. unfold record_result. simpl. now rewrite Hv. Qed.

Lemma record_result_other (harness result : string) (p : option string)
  (v : LoopVars) :
  result <> RESULT_ACCEPT ->
  exists v',
    record_result harness (result, p) v = (Next, v')
    /\ final_result v' = accumulate (final_result v) result
    /\ violated_property v' = violated_property v
    /\ successful_harness v' = successful_harness v
    /\ compile_success_count v' = compile_success_count v.
Proof.
  intros Hr. unfold record_result, accumulate.
  destruct (String.eqb result RESULT_ACCEPT) eqn:E;
    [apply String.eqb_eq in E; contradiction |].
  destruct (String.eqb result RESULT_REJECT); eexists; (split; [reflexivity |]);
    simpl; auto.
Qed.

Lemma fold_left_snoc {A B : Type} (f : A -> B -> A) (l : list B) (x : B) (a : A) :
  fold_left f (l ++ [x]) a = f (fold_left f l a) x.
Proof. now rewrite fold_left_app. Qed.

Section Summary.

Context {X : Type} (P : Platform X).
Variables (args : Args) (output_dir : string) (specification : list string).

Lemma loop_summary_start (s : State X) :
  loop_summary specification (trace s) [] Next initial_vars (trace s).
Proof.
  exists []. rewrite app_nil_r. repeat split; try reflexivity.
  - intros e [].
  - intros [].
Qed.

(** One iteration keeps the summary. *)
Lemma loop_summary_step (tr0 : list event) (done : list string) (h : string)
  (v v' : LoopVars) (c : control) (s s' : State X) :
  loop_summary specification tr0 done Next v (trace s) ->
  loop_body P args output_dir specification h v s = (Ok (c, v'), s') ->
  loop_summary specification tr0 (done ++ [h]) c v' (trace s').
Proof.
  intros (new & Htr & Hown & Hcount & Hnone & Hfinal & Hviol & Hsucc) Hb.
  apply loop_body_trace in Hb as (new1 & Htr1 & Hown1 & Hcase).
  assert (Hown' : forall e, In e (new ++ new1) ->
                    exists h', In h' (done ++ [h]) /\ event_of_harness h' e).
  { intros e He. apply in_app_or in He as [He|He].
    - destruct (Hown e He) as (h' & Hh' & He'). exists h'.
      split; [apply in_or_app; now left | exact He'].
    - exists h. split; [apply in_or_app; right; now left | now apply Hown1]. }
  destruct Hcase as [(Hruns & -> & ->) | (c11 & r & Hruns & Hrec)].
  - exists (new ++ new1). rewrite Htr1, Htr, app_assoc.
    split; [reflexivity |]. split; [exact Hown' |].
    unfold outcomes. rewrite test_runs_app, Hruns, app_nil_r. auto.
  - destruct (analyze_result_cases r h specification)
      as [E | [E | (t & _ & _ & E)]]; rewrite E in Hrec.
    + destruct (record_result_other h RESULT_REJECT None
                  (count_compiled c11 (count_iteration v)))
        as (v1 & Hv1 & F1 & F2 & F3 & F4); [discriminate |].
      rewrite Hv1 in Hrec. injection Hrec as -> ->.
      exists (new ++ new1). rewrite Htr1, Htr, app_assoc.
      split; [reflexivity |]. split; [exact Hown' |].
      assert (Ho : outcomes specification (new ++ new1)
                   = outcomes specification new ++ [RESULT_REJECT]).
      { rewrite outcomes_app. f_equal. unfold outcomes, classify.
        rewrite Hruns. simpl. now rewrite E. }
      split.
      { rewrite test_runs_app, Hruns, length_app, F4. simpl. lia. }
      rewrite Ho, fold_left_snoc, F1, F2, F3. simpl. rewrite <- Hfinal.
      repeat split; auto.
      intros Hin. apply in_app_or in Hin as [Hin|[Hin|[]]];
        [now apply Hnone | discriminate].
    + destruct (record_result_other h RESULT_UNK None
                  (count_compiled c11 (count_iteration v)))
        as (v1 & Hv1 & F1 & F2 & F3 & F4); [discriminate |].
      rewrite Hv1 in Hrec. injection Hrec as -> ->.
      exists (new ++ new1). rewrite Htr1, Htr, app_assoc.
      split; [reflexivity |]. split; [exact Hown' |].
      assert (Ho : outcomes specification (new ++ new1)
                   = outcomes specification new ++ [RESULT_UNK]).
      { rewrite outcomes_app. f_equal. unfold outcomes, classify.
        rewrite Hruns. simpl. now rewrite E. }
      split.
      { rewrite test_runs_app, Hruns, length_app, F4. simpl. lia. }
      rewrite Ho, fold_left_snoc, F1, F2, F3. simpl. rewrite <- Hfinal.
      repeat split; auto.
      intros Hin. apply in_app_or in Hin as [Hin|[Hin|[]]];
        [now apply Hnone | discriminate].
    + rewrite record_result_accept in Hrec by exact Hviol.
      injection Hrec as -> ->.
      exists (new ++ new1). rewrite Htr1, Htr, app_assoc.
      split; [reflexivity |]. split; [exact Hown' |].
      split.
      { rewrite test_runs_app, Hruns, length_app. simpl. lia. }
      exists (test_runs new), h, r, t. rewrite test_runs_app, Hruns.
      split; [reflexivity |]. split; [exact Hnone |].
      split; [apply last_snoc |]. simpl. auto.
Qed.

(** The summary holds whenever the loop, started with the initial
    variables, is left without an exception. *)
Lemma for_harnesses_summary (hs : list string) (c : control) (v : LoopVars)
  (s s' : State X) :
  for_harnesses P args output_dir specification hs initial_vars s
  = (Ok (c, v), s') ->
  exists used rest,
    hs = used ++ rest
    /\ loop_summary specification (trace s) used c v (trace s')
    /\ (c = Next -> rest = []).
Proof.
  intros H.
  apply (for_harnesses_invariant P args output_dir specification
           (fun done c v s1 =>
              loop_summary specification (trace s) done c v (trace s1)))
    with (done := []) in H.
  - exact H.
  - intros done h v0 s0 c0 v1 s1. apply loop_summary_step.
  - apply loop_summary_start.
Qed.

End Summary.

(** *** The accumulation is the order-blind reduction *)

Lemma fold_accumulate (results : list string) (final : option string) :
  (final = None \/ final = Some RESULT_REJECT \/ final = Some RESULT_UNK) ->
  (forall o, In o results -> o = RESULT_REJECT \/ o = RESULT_UNK) ->
  fold_left accumulate results final
  = if Py.list_in RESULT_UNK results then Some RESULT_UNK
    else if Py.list_in RESULT_REJECT results
         then match final with None => Some RESULT_REJECT | Some _ => final end
         else final.
Proof.
  revert final. induction results as [|o results IH]; intros final Hf Ho;
    [reflexivity |].
  assert (Ho' : forall o', In o' results -> o' = RESULT_REJECT \/ o' = RESULT_UNK)
    by (intros o' Hin; apply Ho; now right).
  destruct (Ho o (or_introl eq_refl)) as [-> | ->]; cbn [fold_left Py.list_in].
  - change (String.eqb RESULT_UNK RESULT_REJECT) with false.
    change (String.eqb RESULT_REJECT RESULT_REJECT) with true. cbn [orb].
    destruct Hf as [-> | [-> | ->]];
      (rewrite IH; [| auto | exact Ho']);
      destruct (Py.list_in RESULT_UNK results), (Py.list_in RESULT_REJECT results);
      reflexivity.
  - change (String.eqb RESULT_UNK RESULT_UNK) with true. cbn [orb].
    assert (Hacc : accumulate final RESULT_UNK = Some RESULT_UNK) by reflexivity.
    rewrite Hacc, IH; [| auto | exact Ho'].
    destruct (Py.list_in RESULT_UNK results), (Py.list_in RESULT_REJECT results);
      reflexivity.
Qed.

Lemma outcomes_verdicts (specification : list string) (tr : list event) (o : string) :
  In o (outcomes specification tr) ->
  o = RESULT_REJECT \/ o = RESULT_UNK \/ o = RESULT_ACCEPT.
Proof.
  unfold outcomes, classify. intros H. apply in_map_iff in H as ([h r] & <- & _).
  simpl. destruct (analyze_result_cases r h specification)
    as [E | [E | (t & _ & _ & E)]]; rewrite E; auto.
Qed.

Lemma reduce_outcomes_permutation (l l' : list string) :
  Permutation l l' -> reduce_outcomes l = reduce_outcomes l'.
Proof.
  intros Hp. unfold reduce_outcomes.
  assert (Hin : forall x, Py.list_in x l = Py.list_in x l').
  { intros x. destruct (Py.list_in x l') eqn:E.
    - apply list_in_In. apply list_in_In in E.
      eapply Permutation_in; [symmetry; exact Hp | exact E].
    - apply list_in_false. apply list_in_false in E. intros Hx. apply E.
      eapply Permutation_in; [exact Hp | exact Hx]. }
  now rewrite !Hin.
Qed.

(** C2. When no harness is classified as confirmed, the order-sensitive
    accumulation of the loop (a later TRUE never replaces a verdict that
    is already set, a later UNKNOWN always does) gives the order-blind
    reduction, for every sequence of per-harness outcomes and in every
    run of the loop: the final verdict is UNKNOWN (inconclusive) if any
    harness that was run was classified so, otherwise TRUE (not
    reproduced) if at least one was classified so; reordering the
    outcomes does not change it. *)
Theorem accumulation_is_reduction {X : Type} (P : Platform X) (args : Args)
  (output_dir : string) (specification : list string) :
  (forall results : list string,
      (forall o, In o results -> o = RESULT_REJECT \/ o = RESULT_UNK) ->
      fold_left accumulate results None = reduce_outcomes results)
  /\ (forall (hs : list string) (c : control) (v : LoopVars) (s s' : State X),
         for_harnesses P args output_dir specification hs initial_vars s
         = (Ok (c, v), s') ->
         exists new,
           trace s' = trace s ++ new
           /\ let results := outcomes specification new in
              (~ In RESULT_ACCEPT results ->
               final_result v = fold_left accumulate results None
               /\ (In RESULT_UNK results -> final_result v = Some RESULT_UNK)
               /\ (~ In RESULT_UNK results -> In RESULT_REJECT results ->
                   final_result v = Some RESULT_REJECT)
               /\ (forall results', Permutation results results' ->
                     final_result v = reduce_outcomes results'))).
Proof.
  assert (Hgen : forall results : list string,
             (forall o, In o results -> o = RESULT_REJECT \/ o = RESULT_UNK) ->
             fold_left accumulate results None = reduce_outcomes results).
  { intros results Ho. rewrite fold_accumulate; [reflexivity | auto | exact Ho]. }
  split; [exact Hgen |].
  intros hs c v s s' H.
  apply for_harnesses_summary in H as (used & rest & _ & Hsum & _).
  destruct Hsum as (new & Htr & _ & _ & Hcase). exists new.
  split; [exact Htr |]. intros results Hnone.
  assert (Hres : forall o, In o results -> o = RESULT_REJECT \/ o = RESULT_UNK).
  { intros o Ho. destruct (outcomes_verdicts _ _ _ Ho) as [E|[E|E]]; auto.
    subst o. contradiction. }
  assert (Hfinal : final_result v = fold_left accumulate results None).
  { destruct c.
    - now destruct Hcase as (_ & Hf & _).
    - destruct Hcase as (runs & h & r & t & Hruns & _ & _ & E & _).
      exfalso. apply Hnone. unfold results, outcomes. rewrite Hruns, map_app.
      apply in_or_app. right. left. unfold classify. simpl. now rewrite E. }
  split; [exact Hfinal |]. rewrite Hfinal, (Hgen results Hres).
  unfold reduce_outcomes. repeat split.
  - intros Hin. apply list_in_In in Hin. now rewrite Hin.
  - intros Hn Hin. apply list_in_false in Hn. apply list_in_In in Hin.
    now rewrite Hn, Hin.
  - intros results' Hp. apply (reduce_outcomes_permutation _ _ Hp).
Qed.

(** The second part of the theorem applied to the loop of the run whose
    first harness is inconclusive and whose second is not reproduced:
    the verdict stays UNKNOWN. *)
Lemma accumulation_is_reduction_witness :
  let v := mkLoopVars (Some RESULT_UNK) None None 2 2 2 1 in
  let s' := snd (for_harnesses mixed_machine sample_args "output" [SPEC_OVERFLOW]
                   [HARNESS_1; HARNESS_2] initial_vars at_loop_start) in
  exists new,
    trace s' = trace at_loop_start ++ new
    /\ let results := outcomes [SPEC_OVERFLOW] new in
       (~ In RESULT_ACCEPT results ->
        final_result v = fold_left accumulate results None
        /\ (In RESULT_UNK results -> final_result v = Some RESULT_UNK)
        /\ (~ In RESULT_UNK results -> In RESULT_REJECT results ->
            final_result v = Some RESULT_REJECT)
        /\ (forall results', Permutation results results' ->
              final_result v = reduce_outcomes results')).
Proof.
  refine (proj2 (accumulation_is_reduction mixed_machine sample_args "output"
                   [SPEC_OVERFLOW])
            [HARNESS_1; HARNESS_2] Next _ at_loop_start _ _).
  vm_compute. reflexivity.
Defined.

Example accumulate_samples :
  fold_left accumulate [RESULT_REJECT; RESULT_UNK] None = Some RESULT_UNK
  /\ fold_left accumulate [RESULT_UNK; RESULT_REJECT] None = Some RESULT_UNK
  /\ fold_left accumulate [RESULT_REJECT; RESULT_REJECT] None = Some RESULT_REJECT.
Proof. repeat split; reflexivity. Qed.

(** ** The short-circuit on the first confirmed harness *)

Section ShortCircuit.

Context {X : Type} (P : Platform X).
Variables (args : Args) (output_dir : string) (specification : list string).

(** An iteration ends the loop exactly when it runs the test and the
    result is classified as confirmed. *)
Lemma loop_body_break_iff (h : string) (v v' : LoopVars) (c : control)
  (s s' : State X) :
  loop_body P args output_dir specification h v s = (Ok (c, v'), s') ->
  exists new,
    trace s' = trace s ++ new
    /\ (c = Break <-> In RESULT_ACCEPT (outcomes specification new)).
Proof.
  intros H. apply loop_body_trace in H as (new & Htr & _ & Hcase).
  exists new. split; [exact Htr |]. unfold outcomes.
  destruct Hcase as [(-> & -> & _) | (c11 & r & -> & Hrec)]; simpl.
  - split; [discriminate | intros []].
  - unfold classify. simpl.
    destruct (analyze_result r h specification) as [result p].
    unfold record_result in Hrec. simpl.
    destruct (String.eqb result RESULT_ACCEPT) eqn:E.
    + apply String.eqb_eq in E as ->. injection Hrec as -> _.
      split; [now left | reflexivity].
    + apply String.eqb_neq in E.
      destruct (String.eqb result RESULT_REJECT); injection Hrec as -> _;
        (split; [discriminate | intros [Hr|[]]; congruence]).
Qed.

End ShortCircuit.

(** C3. When the loop has gone through the harnesses [pre] without
    leaving, and the iteration for the next harness [h] ends in [break]
    (its test result is classified as confirmed, the first one to be),
    then whatever harnesses [post] follow, the loop over the whole list
    ends right there, in the state that iteration left: the verdict is
    FALSE (confirmed), the successful harness is [h], the violated
    property is the one the classifier reported for [h]; every process
    spawned and every file written by the loop belongs to a harness of
    [pre] or to [h], so nothing is compiled or run for a later one. *)
Theorem first_confirmed_harness_ends_loop {X : Type} (P : Platform X)
  (args : Args) (output_dir : string) (specification : list string)
  (pre : list string) (h : string) (v1 v2 : LoopVars) (s s1 s2 : State X) :
  for_harnesses P args output_dir specification pre initial_vars s
  = (Ok (Next, v1), s1) ->
  loop_body P args output_dir specification h v1 s1 = (Ok (Break, v2), s2) ->
  (forall post,
      for_harnesses P args output_dir specification (pre ++ h :: post)
        initial_vars s = (Ok (Break, v2), s2))
  /\ final_result v2 = Some RESULT_ACCEPT
  /\ successful_harness v2 = Some h
  /\ exists new runs r t,
       trace s2 = trace s ++ new
       /\ test_runs new = runs ++ [(h, r)]
       /\ ~ In RESULT_ACCEPT (map (classify specification) runs)
       /\ analyze_result r h specification = (RESULT_ACCEPT, Some (spec_name t))
       /\ violated_property v2 = Some (spec_name t)
       /\ forall e, In e new ->
            exists h', In h' (pre ++ [h]) /\ event_of_harness h' e.
Proof.
  intros Hpre Hb.
  assert (Hall : forall post,
             for_harnesses P args output_dir specification (pre ++ h :: post)
               initial_vars s = (Ok (Break, v2), s2)).
  { intros post. rewrite (for_harnesses_app P _ _ _ _ _ _ _ _ _ Hpre).
    rewrite for_harnesses_cons, Hb. reflexivity. }
  split; [exact Hall |].
  pose proof (Hall []) as H.
  apply for_harnesses_summary in H as (used & rest & Hsplit & Hsum & _).
  destruct Hsum as (new & Htr & Hown & _ & runs & h0 & r & t & Hruns & Hnone
                    & Hlast & E & Hfinal & Hviol & Hsucc).
  assert (Hused : forall x, In x used -> In x (pre ++ [h])).
  { intros x Hx. rewrite Hsplit. apply in_or_app. now left. }
  assert (Hh : h0 = h).
  { apply loop_body_trace in Hb as (new1 & Htr1 & _ & Hcase).
    apply for_harnesses_summary in Hpre as (used1 & rest1 & _ & Hsum1 & _).
    destruct Hsum1 as (new0 & Htr0 & _ & _ & Hnone0 & _).
    assert (Enew : new = new0 ++ new1).
    { apply (app_inv_head (trace s)). now rewrite <- Htr, Htr1, Htr0, app_assoc. }
    destruct Hcase as [(_ & Hc & _) | (c11 & r1 & Hruns1 & _)]; [discriminate |].
    rewrite Enew, test_runs_app, Hruns1 in Hruns.
    apply app_inj_tail in Hruns as [_ Hpair]. now injection Hpair as <- _. }
  subst h0. split; [exact Hfinal |]. split; [exact Hsucc |].
  exists new, runs, r, t. repeat split; try assumption.
  intros e He. destruct (Hown e He) as (h' & Hh' & He'). exists h'. auto.
Qed.

(** The theorem applied to the three-harness run: the first harness is
    not reproduced, the second confirms the overflow, the third is never
    looked at. *)
Lemma first_confirmed_harness_ends_loop_witness :
  let v1 := mkLoopVars (Some RESULT_REJECT) None None 1 1 1 1 in
  let s1 := snd (for_harnesses overflow_machine sample_args "output"
                   [SPEC_OVERFLOW] [HARNESS_1] initial_vars at_loop_start) in
  let v2 := mkLoopVars (Some RESULT_ACCEPT) (Some SPEC_OVERFLOW)
                       (Some HARNESS_2) 2 2 2 1 in
  let s2 := snd (loop_body overflow_machine sample_args "output"
                   [SPEC_OVERFLOW] HARNESS_2 v1 s1) in
  for_harnesses overflow_machine sample_args "output" [SPEC_OVERFLOW]
    ([HARNESS_1] ++ HARNESS_2 :: [HARNESS_3]) initial_vars at_loop_start
  = (Ok (Break, v2), s2).
Proof.
  intros v1 s1 v2 s2.
  refine (proj1 (first_confirmed_harness_ends_loop overflow_machine sample_args
                   "output" [SPEC_OVERFLOW] [HARNESS_1] HARNESS_2 v1 v2
                   at_loop_start s1 s2 _ _) [HARNESS_3]).
  - vm_compute. reflexivity.
  - vm_compute. reflexivity.
Defined.

Example three_harness_trace :
  map event_harness
    (trace (snd (for_harnesses overflow_machine sample_args "output"
                   [SPEC_OVERFLOW] [HARNESS_1; HARNESS_2; HARNESS_3]
                   initial_vars at_loop_start)))
  = [Some HARNESS_1; Some HARNESS_1; Some HARNESS_2; Some HARNESS_2; None].
Proof. vm_compute. reflexivity. Qed.

(** What the three-harness run prints with [-stats]: the generator's
    standard error, the statistics, the successful harness and the
    verdict with the violated property. *)
Example three_harness_report :
  printed (trace (snd (main stats_machine (boot PRP_OVERFLOW))))
  = [ "";
      Py.os_linesep +:+ "Statistics:";
      Py.tab +:+ "Harnesses produced: 3";
      Py.tab +:+ "Harnesses tested: 2";
      Py.tab +:+ "C11 compatible: 2";
      Py.tab +:+ "Harnesses rejected: 1";
      "";
      "Harness output/2.harness.c was successful.";
      "Verification result: FALSE. Property violation (no-overflow) found by chosen configuration." ].
Proof. vm_compute. reflexivity. Qed.

(** ** The capture files *)

Lemma append_cancel_l (a b c : string) : a +:+ b = a +:+ c -> b = c.
Proof.
  induction a as [|x a IH]; simpl; intros H; [exact H |].
  injection H as H. now apply IH.
Qed.

Lemma capture_files_differ (output_dir : string) :
  stdout_file output_dir <> stderr_file output_dir.
Proof.
  unfold stdout_file, stderr_file. intros H.
  apply append_cancel_l in H. discriminate.
Qed.

Lemma lookup_capture (path text other : string) (fs : gmap string string) :
  capture path text fs !! other
  = if Py.truthy text
    then if String.eqb path other then Some text else fs !! other
    else fs !! other.
Proof.
  unfold capture. destruct (Py.truthy text); [| reflexivity].
  destruct (String.eqb path other) eqn:E.
  - apply String.eqb_eq in E as ->. apply lookup_insert_eq.
  - apply String.eqb_neq in E. now apply lookup_insert_ne.
Qed.

(** In the two-harness run the second test prints nothing; when the run
    is over the file for the standard output still holds what the first
    test printed. *)
Lemma stale_capture_survives :
  let s' := snd (main two_harness_machine (boot PRP_UNREACH)) in
  last (test_runs (trace s')) = Some (HARNESS_2, mkExecutionResult 0 "" "")
  /\ files (world s') !! stdout_file "output" = Some "first"
  /\ ~ captures_hold_last "output" s'.
Proof.
  intros s'.
  assert (Hlast : last (test_runs (trace s'))
                  = Some (HARNESS_2, mkExecutionResult 0 "" ""))
    by (vm_compute; reflexivity).
  assert (Hfile : files (world s') !! stdout_file "output" = Some "first")
    by (vm_compute; reflexivity).
  split; [exact Hlast |]. split; [exact Hfile |].
  intros Hworded. destruct (Hworded _ _ Hlast) as [Hout _].
  rewrite Hfile in Hout. discriminate.
Qed.

(** C9, amended. Every run of a test binary (lines 438-448) returns the
    captured result and leaves each of the two capture files holding the
    stream captured from that run when the stream is not empty, any
    earlier capture overwritten; a stream that was captured empty is not
    written, and its file is as the test binary left it, so it can still
    hold an earlier harness's capture.  No other file is touched. *)
Theorem capture_files_after_test {X : Type} (P : Platform X)
  (harness exe_target output_dir : string) (s : State X) :
  let r := fst (popen P [exe_target] (world s)) in
  let w := snd (popen P [exe_target] (world s)) in
  exists s',
    run_test P harness exe_target output_dir s = (Ok r, s')
    /\ files (world s') !! stdout_file output_dir
       = (if Py.truthy (stdout r) then Some (stdout r)
          else files w !! stdout_file output_dir)
    /\ files (world s') !! stderr_file output_dir
       = (if Py.truthy (stderr r) then Some (stderr r)
          else files w !! stderr_file output_dir)
    /\ forall path,
         path <> stdout_file output_dir -> path <> stderr_file output_dir ->
         files (world s') !! path = files w !! path.
Proof.
  intros r w. eexists. split; [apply run_test_eq |].
  fold r. fold w. unfold after_test. cbn [world files].
  pose proof (capture_files_differ output_dir) as Hne.
  repeat split.
  - rewrite !lookup_capture, String.eqb_refl.
    assert (E : String.eqb (stderr_file output_dir) (stdout_file output_dir) = false)
      by (apply String.eqb_neq; congruence).
    rewrite E. now destruct (Py.truthy (stderr r)).
  - rewrite !lookup_capture, String.eqb_refl.
    assert (E : String.eqb (stdout_file output_dir) (stderr_file output_dir) = false)
      by (now apply String.eqb_neq).
    rewrite E. now destruct (Py.truthy (stdout r)).
  - intros path H1 H2. rewrite !lookup_capture.
    assert (E1 : String.eqb (stdout_file output_dir) path = false)
      by (apply String.eqb_neq; congruence).
    assert (E2 : String.eqb (stderr_file output_dir) path = false)
      by (apply String.eqb_neq; congruence).
    rewrite E1, E2. now destruct (Py.truthy (stdout r)), (Py.truthy (stderr r)).
Qed.

(** An iteration that runs the test leaves the state the test run
    left. *)
Lemma loop_body_runs_test {X : Type} (P : Platform X) (args : Args)
  (output_dir : string) (specification : list string) (harness : string)
  (v v' : LoopVars) (c : control) (s s' : State X) :
  loop_body P args output_dir specification harness v s = (Ok (c, v'), s') ->
  compile_success_count v' <> compile_success_count v ->
  exists target_name s1 r,
    get_target_name harness = Ok target_name
    /\ run_test P harness (output_dir +:+ Py.os_sep +:+ target_name) output_dir s1
       = (Ok r, s').
Proof.
  intros H Hcount.
  apply loop_body_ok in H as (target_name & compiled & s1 & Ht & _ & H).
  simpl in H. destruct compiled as [c11|].
  - destruct H as [-> _]. exists target_name, s1. eexists.
    split; [exact Ht | apply run_test_eq].
  - destruct H as (_ & -> & _). simpl in Hcount. congruence.
Qed.

(** ** The choice of the compiler *)

Section Keeps.

Context {X : Type}.
Variable I : State X -> Prop.

Lemma keeps_ret {A : Type} (a : A) : keeps I (ret a).
Proof. intros s r s' HI H. injection H as _ <-. exact HI. Qed.

Lemma keeps_raise {A : Type} (e : exn) : keeps I (@raise X A e).
Proof. intros s r s' HI H. injection H as _ <-. exact HI. Qed.

Lemma keeps_lift {A : Type} (x : result A) : keeps I (lift x).
Proof. intros s r s' HI H. injection H as _ <-. exact HI. Qed.

Lemma keeps_bind {A B : Type} (m : M X A) (k : A -> M X B) :
  keeps I m -> (forall a, keeps I (k a)) -> keeps I (bind m k).
Proof.
  intros Hm Hk s r s' HI H. unfold bind in H.
  destruct (m s) as [[a|e] s1] eqn:Em.
  - exact (Hk a s1 r s' (Hm _ _ _ HI Em) H).
  - injection H as _ <-. exact (Hm _ _ _ HI Em).
Qed.

(** A computation that leaves the state alone. *)
Lemma keeps_pure {A : Type} (m : M X A) :
  (forall s, snd (m s) = s) -> keeps I m.
Proof.
  intros Hm s r s' HI H. specialize (Hm s). rewrite H in Hm. simpl in Hm.
  now subst s'.
Qed.

End Keeps.

Section CompilerChoice.

Context {X : Type} (P : Platform X).
Variable compiler : string.
Hypothesis Hstable : clang_stable P.

Lemma compile_commands_snoc_other (tr : list event) (e : event) :
  (forall h cmd r, e <> Spawn (AtCompile h) cmd r) ->
  compile_commands (tr ++ [e]) = compile_commands tr.
Proof.
  intros He. rewrite compile_commands_app. unfold compile_commands at 2. simpl.
  destruct e as [[| |h|h] cmd r| |]; simpl; rewrite ?app_nil_r; try reflexivity.
  exfalso. now apply (He h cmd r).
Qed.

(** Spawning a process that is not a compile attempt. *)
Lemma keeps_execute_other (origin : site) (command : list string) :
  (forall h, origin <> AtCompile h) ->
  keeps (compiler_fixed P compiler) (execute P origin command).
Proof.
  intros Ho s r s' [Hc Hcmds] H. unfold execute in H.
  destruct (popen P command (world s)) as [r0 w] eqn:Ep. injection H as _ <-.
  split; simpl.
  - unfold compiler_in in *. destruct Hstable as [Hp _].
    specialize (Hp command (world s)). rewrite Ep in Hp. simpl in Hp. now rewrite Hp.
  - rewrite compile_commands_snoc_other; [exact Hcmds |].
    intros h cmd r1 E. injection E as E _ _. now apply (Ho h).
Qed.

(** Spawning a compile attempt whose command names the compiler. *)
Lemma keeps_execute_compile (h : string) (command : list string) :
  hd_error command = Some compiler ->
  keeps (compiler_fixed P compiler) (execute P (AtCompile h) command).
Proof.
  intros Hhd s r s' [Hc Hcmds] H. unfold execute in H.
  destruct (popen P command (world s)) as [r0 w] eqn:Ep. injection H as _ <-.
  split; simpl.
  - unfold compiler_in in *. destruct Hstable as [Hp _].
    specialize (Hp command (world s)). rewrite Ep in Hp. simpl in Hp. now rewrite Hp.
  - rewrite compile_commands_app. intros cmd Hin.
    apply in_app_or in Hin as [Hin | [<- | []]]; [now apply Hcmds | exact Hhd].
Qed.

Lemma keeps_print (text : string) : keeps (compiler_fixed P compiler) (print text).
Proof.
  intros s r s' [Hc Hcmds] H. injection H as _ <-. split; [exact Hc |].
  simpl. rewrite compile_commands_snoc_other; [exact Hcmds | discriminate].
Qed.

Lemma keeps_write_file (path content : string) :
  keeps (compiler_fixed P compiler) (write_file path content).
Proof.
  intros s r s' [Hc Hcmds] H. injection H as _ <-. split; simpl.
  - unfold compiler_in in *. destruct Hstable as [_ Hw]. now rewrite Hw.
  - rewrite compile_commands_snoc_other; [exact Hcmds | discriminate].
Qed.

(** Building a compile command leaves the state alone, whatever comes
    of it. *)
Lemma create_compile_cmd_state (harness target : string) (args : Args)
  (specification : list string) (c_version : string) (s : State X) :
  snd (create_compile_cmd P harness target args specification c_version s) = s.
Proof.
  unfold create_compile_cmd, bind, shutil_which, lift, ret, _create_gcc_basic_args.
  destruct (String.eqb (machine_model args) MACHINE_MODEL_64);
    [| destruct (String.eqb (machine_model args) MACHINE_MODEL_32)];
    try reflexivity;
    destruct (Py.list_in SPEC_OVERFLOW specification);
    destruct (any_in [SPEC_MEM_FREE; SPEC_MEM_DEREF; SPEC_MEM_MEMTRACK] specification);
    reflexivity.
Qed.

(** The command names the compiler found when it is built. *)
Lemma create_compile_cmd_head (harness target : string) (args : Args)
  (specification : list string) (c_version : string) (s s' : State X)
  (cmd : list string) :
  create_compile_cmd P harness target args specification c_version s = (Ok cmd, s') ->
  hd_error cmd = Some (compiler_in P (world s)).
Proof.
  intros H. apply create_compile_cmd_shape in H as (_ & m & _ & ->). reflexivity.
Qed.

Lemma keeps_compile_step (harness exe_target : string) (args : Args)
  (specification : list string) (c_version : string) {A : Type}
  (k : ExecutionResult -> M X A) :
  (forall r, keeps (compiler_fixed P compiler) (k r)) ->
  keeps (compiler_fixed P compiler)
    (bind (create_compile_cmd P harness exe_target args specification c_version)
       (fun cmd => bind (execute P (AtCompile harness) cmd) k)).
Proof.
  intros Hk s r s' HI H. unfold bind at 1 in H.
  pose proof (create_compile_cmd_state harness exe_target args specification
                c_version s) as Hs.
  destruct (create_compile_cmd P harness exe_target args specification c_version s)
    as [[cmd|e] s0] eqn:Ec; simpl in Hs; subst s0.
  - apply create_compile_cmd_head in Ec. destruct HI as [Hc Hcmds].
    rewrite Hc in Ec.
    exact (keeps_bind _ _ _ (keeps_execute_compile harness cmd Ec) Hk
             s r s' (conj Hc Hcmds) H).
  - injection H as _ <-. exact HI.
Qed.

Lemma keeps_compile_harness (harness exe_target : string) (args : Args)
  (specification : list string) :
  keeps (compiler_fixed P compiler)
    (compile_harness P harness exe_target args specification).
Proof.
  unfold compile_harness. apply keeps_compile_step. intros r1.
  destruct (negb (returncode r1 =? 0)); [| apply keeps_ret].
  apply keeps_compile_step. intros r2.
  destruct (negb (returncode r2 =? 0)); apply keeps_ret.
Qed.

Lemma keeps_run_test (harness exe_target output_dir : string) :
  keeps (compiler_fixed P compiler) (run_test P harness exe_target output_dir).
Proof.
  unfold run_test. apply keeps_bind.
  - apply keeps_execute_other. discriminate.
  - intros r. apply keeps_bind.
    + destruct (Py.truthy (stdout r)); [apply keeps_write_file | apply keeps_ret].
    + intros _. apply keeps_bind; [| intros _; apply keeps_ret].
      destruct (Py.truthy (stderr r)); [apply keeps_write_file | apply keeps_ret].
Qed.

Lemma keeps_loop_body (args : Args) (output_dir : string)
  (specification : list string) (harness : string) (v : LoopVars) :
  keeps (compiler_fixed P compiler)
    (loop_body P args output_dir specification harness v).
Proof.
  unfold loop_body. apply keeps_bind; [apply keeps_lift |]. intros target_name.
  apply keeps_bind; [apply keeps_compile_harness |]. intros [c11|].
  - apply keeps_bind; [apply keeps_run_test |]. intros r. apply keeps_ret.
  - apply keeps_ret.
Qed.

Lemma keeps_for_harnesses (args : Args) (output_dir : string)
  (specification : list string) (hs : list string) (v : LoopVars) :
  keeps (compiler_fixed P compiler)
    (for_harnesses P args output_dir specification hs v).
Proof.
  revert v. induction hs as [|h hs IH]; intros v; [apply keeps_ret |].
  simpl. apply keeps_bind; [apply keeps_loop_body |].
  intros [[|] v1]; [apply IH | apply keeps_ret].
Qed.

Lemma keeps_get_cpachecker_executable :
  keeps (compiler_fixed P compiler) (get_cpachecker_executable P).
Proof.
  apply keeps_pure. intros s. unfold get_cpachecker_executable.
  now destruct (first_executable P (world s) _ _).
Qed.

Lemma keeps_get_spec (specification_file : string) :
  keeps (compiler_fixed P compiler) (get_spec specification_file).
Proof.
  apply keeps_pure. intros s. unfold get_spec, bind, read_file.
  destruct (files (world s) !! specification_file) as [raw|]; [| reflexivity].
  destruct (Re.match_ REGEX_CHECK (Py.strip Py.isspace raw)); simpl;
    [destruct (matching_specifications (Py.strip Py.isspace raw)) |]; reflexivity.
Qed.

Lemma keeps_print_statistics (statistics : list (string * Z)) :
  keeps (compiler_fixed P compiler) (@print_statistics X statistics).
Proof.
  induction statistics as [|[prop value] rest IH]; simpl; [apply keeps_ret |].
  apply keeps_bind; [apply keeps_print | intros _; exact IH].
Qed.

Lemma keeps_run : keeps (compiler_fixed P compiler) (run P).
Proof.
  unfold run. apply keeps_bind.
  { unfold _parse_args, get_cpachecker_version.
    apply keeps_bind; [| intros _; apply keeps_ret].
    apply keeps_bind; [apply keeps_get_cpachecker_executable |]. intros exe.
    apply keeps_bind; [| intros _; apply keeps_ret].
    apply keeps_execute_other. discriminate. }
  intros args. apply keeps_bind; [apply keeps_get_spec |]. intros specification.
  apply keeps_bind.
  { unfold create_harness_gen_cmd.
    apply keeps_bind; [apply keeps_get_cpachecker_executable |].
    intros exe. apply keeps_ret. }
  intros cmd. apply keeps_bind; [apply keeps_execute_other; discriminate |].
  intros r. apply keeps_bind; [apply keeps_print |]. intros _.
  apply keeps_bind; [apply keeps_pure; reflexivity |]. intros hs.
  apply keeps_bind; [apply keeps_for_harnesses |]. intros [c v].
  destruct (compile_success_count v =? 0); [apply keeps_raise |].
  apply keeps_bind.
  { destruct (stats args); [| apply keeps_ret].
    apply keeps_bind; [apply keeps_print |]. intros _.
    apply keeps_bind; [apply keeps_print_statistics |]. intros _.
    apply keeps_print. }
  intros _. apply keeps_bind.
  { destruct (Py.truthy_opt (successful_harness v));
      [apply keeps_print | apply keeps_ret]. }
  intros _. apply keeps_print.
Qed.

Lemma keeps_main (s s' : State X) (r : option exn) :
  compiler_fixed P compiler s -> main P s = (r, s') -> compiler_fixed P compiler s'.
Proof.
  intros HI H. unfold main in H.
  destruct (run P s) as [[u|e] s1] eqn:Er.
  - injection H as _ <-. exact (keeps_run _ _ _ HI Er).
  - pose proof (keeps_run _ _ _ HI Er) as H1.
    destruct e; injection H as _ <-; try exact H1.
    exact (keeps_print _ _ _ _ H1 eq_refl).
Qed.

End CompilerChoice.

(** In the two-harness run a [clang] binary shows up after the first
    compile attempt: that attempt names [gcc], the retry with the
    fallback standard and the attempt for the second harness name
    [clang]. *)
Lemma compiler_changes_within_run :
  let s' := snd (main two_harness_machine (boot PRP_UNREACH)) in
  map hd_error (compile_commands (trace s'))
  = [Some "gcc"; Some "clang"; Some "clang"]
  /\ ~ same_compiler (trace s').
Proof.
  intros s'.
  assert (Hcmds : compile_commands (trace s')
                  = [ ["gcc"; "-D__alias__(x)="; "-m32"; "-std=gnu11"; "-o";
                       "output/test_cex1"; "output/1.harness.c"; "prog.c"];
                      ["clang"; "-D__alias__(x)="; "-m32"; "-std=gnu90"; "-o";
                       "output/test_cex1"; "output/1.harness.c"; "prog.c"];
                      ["clang"; "-D__alias__(x)="; "-m32"; "-std=gnu11"; "-o";
                       "output/test_cex2"; "output/2.harness.c"; "prog.c"] ])
    by (vm_compute; reflexivity).
  split; [now rewrite Hcmds |].
  intros [compiler Hsame]. rewrite Hcmds in Hsame.
  pose proof (Hsame _ (or_introl eq_refl)) as H1.
  pose proof (Hsame _ (or_intror (or_introl eq_refl))) as H2.
  simpl in H1, H2. congruence.
Qed.

(** C7, amended. The compiler is looked up every time a compile command
    is built: the command names [clang] if [clang] is found at that
    moment and [gcc] otherwise.  When nothing that happens during a run
    changes whether [clang] is found (no process spawned, no file
    written), every compile command of the run, across all harnesses and
    both language-standard attempts, names the compiler found at the
    start of the run. *)
Theorem compiler_chosen_per_command {X : Type} (P : Platform X) :
  (forall (harness target : string) (args : Args) (specification : list string)
          (c_version : string) (s s' : State X) (cmd : list string),
      create_compile_cmd P harness target args specification c_version s
      = (Ok cmd, s') ->
      hd_error cmd = Some (compiler_in P (world s)))
  /\ (clang_stable P ->
      forall (s s' : State X) (r : option exn),
        main P s = (r, s') ->
        compile_commands (trace s) = [] ->
        forall cmd, In cmd (compile_commands (trace s')) ->
                    hd_error cmd = Some (compiler_in P (world s))).
Proof.
  split.
  - intros harness target args specification c_version s s' cmd.
    apply create_compile_cmd_head.
  - intros Hstable s s' r Hmain Hnone.
    assert (HI : compiler_fixed P (compiler_in P (world s)) s).
    { split; [reflexivity |]. rewrite Hnone. intros cmd []. }
    exact (proj2 (keeps_main P _ Hstable s s' r HI Hmain)).
Qed.

(** The theorem applied to the three-harness run, on a machine that
    never has [clang]: every compile command names [gcc]. *)
Lemma compiler_chosen_per_command_witness :
  Forall (fun cmd => hd_error cmd = Some "gcc")
    (compile_commands (trace (snd (main overflow_machine (boot PRP_OVERFLOW))))).
Proof.
  apply List.Forall_forall.
  refine (proj2 (compiler_chosen_per_command overflow_machine) _
            (boot PRP_OVERFLOW)
            (snd (main overflow_machine (boot PRP_OVERFLOW)))
            (fst (main overflow_machine (boot PRP_OVERFLOW))) _ _).
  - split; intros; reflexivity.
  - vm_compute. reflexivity.
  - reflexivity.
Defined.

(** ** The report of a run *)

Lemma printed_app (l1 l2 : list event) : printed (l1 ++ l2) = printed l1 ++ printed l2.
Proof. apply omap_app. Qed.

Lemma terminal_line_print (tr : list event) (text : string) :
  terminal_line (tr ++ [Print text]) = Some text.
Proof. unfold terminal_line. rewrite printed_app. simpl. apply last_snoc. Qed.

Lemma print_ok {X : Type} (text : string) (s s' : State X) (r : result unit) :
  print text s = (r, s') -> r = Ok tt /\ trace s' = trace s ++ [Print text].
Proof. intros H. injection H as <- <-. auto. Qed.

Lemma spec_name_truthy (t : PropertyTag) : Py.truthy (spec_name t) = true.
Proof. destruct t; reflexivity. Qed.

(** Once a test has been run, the variables of the loop hold one of the
    three verdicts, and a violated property exactly with FALSE. *)
Lemma loop_verdict_shape (specification : list string) (tr0 tr : list event)
  (done : list string) (c : control) (v : LoopVars) :
  loop_summary specification tr0 done c v tr ->
  compile_success_count v <> 0 ->
  (final_result v = Some RESULT_REJECT /\ violated_property v = None)
  \/ (final_result v = Some RESULT_UNK /\ violated_property v = None)
  \/ (exists t, final_result v = Some RESULT_ACCEPT
                /\ violated_property v = Some (spec_name t)).
Proof.
  intros (new & _ & _ & Hcount & Hcase) Hne. destruct c.
  - destruct Hcase as (Hnone & Hfinal & Hviol & _).
    assert (Hres : forall o, In o (outcomes specification new) ->
                     o = RESULT_REJECT \/ o = RESULT_UNK).
    { intros o Ho. destruct (outcomes_verdicts _ _ _ Ho) as [E|[E|E]]; auto.
      subst o. contradiction. }
    rewrite fold_accumulate in Hfinal; [| auto | exact Hres].
    destruct (Py.list_in RESULT_UNK (outcomes specification new)) eqn:Hunk; [auto |].
    left. split; [| exact Hviol].
    assert (Hrej : Py.list_in RESULT_REJECT (outcomes specification new) = true).
    { destruct (outcomes specification new) as [|o os] eqn:Eo.
      - unfold outcomes in Eo. apply map_eq_nil in Eo. rewrite Eo in Hcount.
        simpl in Hcount. contradiction.
      - destruct (Hres o (or_introl eq_refl)) as [-> | ->]; [reflexivity |].
        simpl in Hunk. discriminate. }
    now rewrite Hrej in Hfinal.
  - destruct Hcase as (runs & h & r & t & _ & _ & _ & _ & Hfinal & Hviol & _).
    right. right. exists t. auto.
Qed.

(** The two-harness run ends with the line [Verification result: TRUE],
    which has none of the four tokens after the prefix. *)
Lemma terminal_line_uses_other_tokens :
  terminal_line (trace (snd (main two_harness_machine (boot PRP_UNREACH))))
  = Some "Verification result: TRUE"
  /\ ~ line_as_specified "Verification result: TRUE".
Proof.
  split; [vm_compute; reflexivity |].
  intros (token & rest & Hin & Hline). simpl in Hin.
  destruct Hin as [<-|[<-|[<-|[<-|[]]]]]; discriminate.
Qed.

(** C8, amended. For every run that reaches a conclusion (it returns, or
    raises the validation error the top level handles), the last line
    printed is [Verification result: TRUE] (not reproduced),
    [Verification result: UNKNOWN] (inconclusive),
    [Verification result: ERROR.], or, when the verdict is confirmed,
    [Verification result: FALSE. Property violation (<name>) found by
    chosen configuration.] with the name of the violated property. *)
Theorem terminal_line_of_run {X : Type} (P : Platform X) (s s' : State X) :
  main P s = (None, s') ->
  exists line, terminal_line (trace s') = Some line /\ verdict_line line.
Proof.
  unfold main. destruct (run P s) as [[u|e] s1] eqn:Hrun.
  - intros H. injection H as <-. unfold run in Hrun.
    apply bind_ok in Hrun as (args & sa & _ & Hrun).
    apply bind_ok in Hrun as (specification & sb & _ & Hrun).
    apply bind_ok in Hrun as (cmd & sc & _ & Hrun).
    apply bind_ok in Hrun as (r & sd & _ & Hrun).
    apply bind_ok in Hrun as (u1 & se & _ & Hrun).
    apply bind_ok in Hrun as (hs & sf & _ & Hrun).
    apply bind_ok in Hrun as ([c v] & sg & Hloop & Hrun).
    destruct (compile_success_count v =? 0) eqn:Hcount; [discriminate |].
    apply Z.eqb_neq in Hcount.
    apply bind_ok in Hrun as (u2 & sh & _ & Hrun).
    apply bind_ok in Hrun as (u3 & si & _ & Hrun).
    apply print_ok in Hrun as [_ Htr]. rewrite Htr, terminal_line_print.
    eexists. split; [reflexivity |].
    apply for_harnesses_summary in Hloop as (used & rest & _ & Hsum & _).
    destruct (loop_verdict_shape _ _ _ _ _ _ Hsum Hcount)
      as [[-> ->] | [[-> ->] | (t & -> & ->)]].
    + left. reflexivity.
    + right. left. reflexivity.
    + right. right. left. exists t. cbn [Py.truthy_opt percent_s].
      rewrite spec_name_truthy. reflexivity.
  - destruct e as [msg|msg| |path]; intros H; try discriminate.
    injection H as <-. cbn [print emit snd trace].
    rewrite terminal_line_print.
    eexists. split; [reflexivity |]. right. right. right. reflexivity.
Qed.

(** The theorem applied to the three-harness run, which confirms the
    overflow. *)
Lemma terminal_line_of_run_witness :
  exists line,
    terminal_line (trace (snd (main overflow_machine (boot PRP_OVERFLOW))))
    = Some line
    /\ verdict_line line.
Proof.
  apply (terminal_line_of_run overflow_machine (boot PRP_OVERFLOW)).
  vm_compute. reflexivity.
Defined.

Example terminal_line_samples :
  terminal_line (trace (snd (main overflow_machine (boot PRP_OVERFLOW))))
  = Some "Verification result: FALSE. Property violation (no-overflow) found by chosen configuration."
  /\ terminal_line (trace (snd (main mixed_machine (boot PRP_OVERFLOW))))
     = Some "Verification result: UNKNOWN".
Proof. split; vm_compute; reflexivity. Qed.

(** ** The failures of a run *)

Section Failures.

Context {X : Type} (P : Platform X).

(** Without the generator the run ends in the error report. *)
Lemma generator_missing_reports_error (s : State X) :
  first_executable P (world s) "cpa.sh"
    (Py.split ":" (environ_PATH P)
       ++ [script_dir P; "."; "." +:+ Py.os_sep +:+ "scripts"]) = None ->
  main P s
  = (None, mkState (world s) (trace s ++ [Print "Verification result: ERROR."])).
Proof.
  intros Hnone. unfold main, run, _parse_args, get_cpachecker_version, bind,
    get_cpachecker_executable.
  rewrite Hnone. reflexivity.
Qed.

(** The parser raises nothing the top level handles. *)
Lemma get_spec_raises (specification_file : string) (s s' : State X) (e : exn) :
  get_spec specification_file s = (Raise e, s') ->
  s' = s /\ ((exists msg, e = AssertionError msg)
             \/ (exists path, e = FileNotFoundError path)).
Proof.
  unfold get_spec, bind, read_file, raise, ret.
  destruct (files (world s) !! specification_file) as [raw|].
  - destruct (Re.match_ REGEX_CHECK (Py.strip Py.isspace raw)); simpl;
      [destruct (matching_specifications (Py.strip Py.isspace raw)) |];
      intros H; try discriminate; injection H as <- <-; eauto.
  - intros H. injection H as <- <-. eauto.
Qed.

(** A failing parse leaves the script through the top level, with
    nothing printed on the way. *)
Lemma failed_parse_escapes (s s1 s2 : State X) (args : Args) (e : exn) :
  _parse_args P s = (Ok args, s1) ->
  get_spec (specification_file args) s1 = (Raise e, s2) ->
  main P s = (Some e, s1) /\ printed (trace s1) = printed (trace s).
Proof.
  intros Hargs Hspec.
  destruct (get_spec_raises _ _ _ _ Hspec) as [-> He].
  split.
  - unfold main, run. rewrite (bind_step _ _ _ _ _ Hargs).
    unfold bind at 1. rewrite Hspec.
    destruct He as [[msg ->] | [path ->]]; reflexivity.
  - unfold _parse_args, get_cpachecker_version in Hargs.
    apply bind_ok in Hargs as (u & s0 & Hv & Hret).
    unfold ret in Hret. injection Hret as _ Hs0. subst s0.
    apply bind_ok in Hv as (exe & sa & Hexe & Hv).
    apply bind_ok in Hv as (r & sb & Hex & Hret).
    unfold ret in Hret. injection Hret as _ Hsb. subst sb.
    unfold get_cpachecker_executable in Hexe.
    destruct (first_executable P (world s) _ _); [| discriminate].
    injection Hexe as _ Hsa. subst sa. unfold execute in Hex.
    destruct (popen P [exe; "-help"] (world s)) as [r0 w].
    injection Hex as _ Hs1. subst s1.
    simpl. rewrite printed_app. simpl. now rewrite app_nil_r.
Qed.

(** A run that comes back from the loop with no harness compiled raises
    the validation error. *)
Lemma nothing_compiled_raises (s s1 : State X) (u : unit) :
  run P s = (Ok u, s1) -> test_runs (trace s1) <> [].
Proof.
  unfold run. intros Hrun.
  apply bind_ok in Hrun as (args & sa & _ & Hrun).
  apply bind_ok in Hrun as (specification & sb & _ & Hrun).
  apply bind_ok in Hrun as (cmd & sc & _ & Hrun).
  apply bind_ok in Hrun as (r & sd & _ & Hrun).
  apply bind_ok in Hrun as (u1 & se & _ & Hrun).
  apply bind_ok in Hrun as (hs & sf & _ & Hrun).
  apply bind_ok in Hrun as ([c v] & sg & Hloop & Hrun).
  destruct (compile_success_count v =? 0) eqn:Hcount; [discriminate |].
  apply Z.eqb_neq in Hcount.
  apply for_harnesses_summary in Hloop as (used & rest & _ & Hsum & _).
  destruct Hsum as (new & Htr & _ & Hlen & _).
  assert (Hgrow : forall (A : Type) (m : M X A),
             keeps (fun s0 : State X => test_runs (trace s0) <> []) m ->
             forall s0 r0 s0', test_runs (trace s0) <> [] -> m s0 = (r0, s0') ->
                               test_runs (trace s0') <> []).
  { intros A m Hm s0 r0 s0' H0 Hm0. exact (Hm _ _ _ H0 Hm0). }
  assert (Hprint : forall text,
             keeps (fun s0 : State X => test_runs (trace s0) <> []) (print text)).
  { intros text s0 r0 s0' H0 Hp. apply print_ok in Hp as [_ ->].
    rewrite test_runs_app. simpl. now rewrite app_nil_r. }
  assert (Hstats : forall l,
             keeps (fun s0 : State X => test_runs (trace s0) <> [])
               (@print_statistics X l)).
  { induction l as [|[prop value] l IH]; simpl; [apply keeps_ret |].
    apply keeps_bind; [apply Hprint | intros _; exact IH]. }
  refine (Hgrow _ _ _ sg _ s1 _ Hrun).
  - apply keeps_bind.
    { destruct (stats args); [| apply keeps_ret].
      apply keeps_bind; [apply Hprint |]. intros _.
      apply keeps_bind; [apply Hstats |]. intros _. apply Hprint. }
    intros _. apply keeps_bind.
    { destruct (Py.truthy_opt (successful_harness v));
        [apply Hprint | apply keeps_ret]. }
    intros _. apply Hprint.
  - rewrite Htr, test_runs_app. intros E. apply app_eq_nil in E as [_ E].
    rewrite E in Hlen. simpl in Hlen. contradiction.
Qed.

(** So a run that reaches a conclusion without a single test run ends in
    the error report. *)
Lemma nothing_compiled_reports_error (s s' : State X) :
  main P s = (None, s') ->
  test_runs (trace s') = [] ->
  terminal_line (trace s') = Some "Verification result: ERROR.".
Proof.
  unfold main. destruct (run P s) as [[u|e] s1] eqn:Hrun.
  - intros H Hnone. injection H as <-.
    exfalso. exact (nothing_compiled_raises _ _ _ Hrun Hnone).
  - destruct e as [msg|msg| |path]; intros H; try discriminate.
    injection H as <-. intros _. cbn [print emit snd trace].
    apply terminal_line_print.
Qed.

End Failures.

(** C4, where the code departs from it. Of the three run-level failure
    conditions, a missing generator and a run in which no harness
    compiles raise the validation error and end in the line
    [Verification result: ERROR.] (the two lemmas above and the examples
    below).  A specification document without a recognizable property,
    or without the outer [CHECK] shape, does not: [get_spec] fails by an
    assertion, which the top level does not handle, so the script is
    left with an [AssertionError] and no report line at all is
    printed. *)
Theorem unrecognized_specification_is_not_reported :
  main overflow_machine (boot PRP_UNKNOWN)
  = (Some (AssertionError
             ("No specification found for specification string: " +:+ PRP_UNKNOWN)),
     mkState (mkWorld {[ "prop.prp" := PRP_UNKNOWN ]} 1%nat)
             [Spawn AtVersion ["/usr/bin/cpa.sh"; "-help"] quiet_exit])
  /\ fst (main overflow_machine (boot PRP_SHAPELESS))
     = Some (AssertionError
               ("No specification found for specification string: "
                +:+ PRP_SHAPELESS))
  /\ printed (trace (snd (main overflow_machine (boot PRP_UNKNOWN)))) = []
  /\ printed (trace (snd (main overflow_machine (boot PRP_SHAPELESS)))) = [].
Proof. repeat split; vm_compute; reflexivity. Qed.

(** The other two conditions on concrete machines: no generator
    anywhere, and a run whose only harness fails both compile
    attempts. *)
Example reported_failures :
  main (machine_without_generator sample_args sample_argv) (boot PRP_UNREACH)
  = (None, mkState (world (boot PRP_UNREACH)) [Print "Verification result: ERROR."])
  /\ (let '(r, s') :=
        main (machine [quiet_exit; quiet_exit;
                       mkExecutionResult 1 "" "error"; mkExecutionResult 1 "" "error"]
                (fun _ => false) [HARNESS_1] sample_args sample_argv)
             (boot PRP_UNREACH) in
      r = None
      /\ terminal_line (trace s') = Some "Verification result: ERROR."
      /\ length (compile_commands (trace s')) = 2%nat
      /\ test_runs (trace s') = []).
Proof. split; vm_compute; repeat split; reflexivity. Qed.

(** ** The name of the test binary *)

Section HarnessNumber.

Import Re.

Lemma star_digits (d : string) : Matches (Star digit) d -> all_digits d = true.
Proof.
  intros H. remember (Star digit) as r eqn:Er.
  induction H as [| |? ? ? ? ? _ ? _|? ? ? ? _|? ? ? ? _| |r0 s1 s2 H1 _ H2 IH2];
    try discriminate; [reflexivity |].
  injection Er as ->. specialize (IH2 eq_refl).
  apply ReFacts.inv_cls in H1 as (c & -> & Hc). simpl. now rewrite Hc.
Qed.

Lemma digits_star (d : string) : all_digits d = true -> Matches (Star digit) d.
Proof.
  induction d as [|c d IH]; simpl; intros H; [constructor |].
  apply andb_true_iff in H as [Hc Hd].
  change (String c d) with (String c "" +:+ d).
  constructor; [now constructor | now apply IH].
Qed.

Lemma span_digits_spec (s d rest : string) :
  span_digits s = (d, rest) ->
  s = d +:+ rest /\ all_digits d = true
  /\ match rest with String c _ => Py.isdigit c = false | EmptyString => True end.
Proof.
  revert d rest. induction s as [|c s IH]; simpl; intros d rest H.
  - injection H as <- <-. auto.
  - destruct (Py.isdigit c) eqn:Hc.
    + destruct (span_digits s) as [d0 rest0]. injection H as <- <-.
      destruct (IH _ _ eq_refl) as (-> & Hd & Hr). simpl. rewrite Hc. auto.
    + injection H as <- <-. simpl. auto.
Qed.

Lemma span_digits_app (d rest : string) :
  all_digits d = true ->
  match rest with String c _ => Py.isdigit c = false | EmptyString => True end ->
  span_digits (d +:+ rest) = (d, rest).
Proof.
  induction d as [|c d IH]; simpl; intros Hd Hr.
  - destruct rest as [|c rest]; [reflexivity |]. simpl. now rewrite Hr.
  - apply andb_true_iff in Hd as [Hc Hd]. rewrite Hc, (IH Hd Hr). reflexivity.
Qed.

Lemma harness_number_tail (c : ascii) (s : string) :
  harness_number (String c s) = None -> harness_number s = None.
Proof.
  cbn [harness_number]. destruct (Py.isdigit c); [| auto].
  destruct (span_digits (String c s)) as [d rest].
  destruct (Py.startswith ".harness.c" rest); [discriminate | auto].
Qed.

(** A literal pattern matches its own text only. *)
Lemma lit_inv (s l : string) : Matches (lit s) l -> l = s.
Proof.
  revert l. induction s as [|c s IH]; intros l H.
  - now apply ReFacts.inv_eps in H.
  - destruct s as [|c' s].
    + apply ReFacts.inv_cls in H as (x & -> & Hx).
      apply Ascii.eqb_eq in Hx as <-. reflexivity.
    + change (lit (String c (String c' s)))
        with (Cat (chr c) (lit (String c' s))) in H.
      apply ReFacts.inv_cat in H as (a & b & -> & Ha & Hb).
      apply ReFacts.inv_cls in Ha as (x & -> & Hx).
      apply Ascii.eqb_eq in Hx as <-. apply IH in Hb as ->. reflexivity.
Qed.

(** The digits found are a match of the pattern's group, followed by the
    literal part. *)
Lemma harness_number_sound (s d : string) :
  harness_number s = Some d ->
  exists before after,
    s = before +:+ d +:+ ".harness.c" +:+ after
    /\ Matches (plus digit) d.
Proof.
  induction s as [|c s IH]; [discriminate |]. cbn [harness_number].
  assert (Hrec : harness_number s = Some d ->
                 exists before after,
                   String c s = before +:+ d +:+ ".harness.c" +:+ after
                   /\ Matches (plus digit) d).
  { intros H. destruct (IH H) as (before & after & -> & Hm).
    now exists (String c before), after. }
  destruct (Py.isdigit c) eqn:Hc; [| exact Hrec].
  destruct (span_digits (String c s)) as [d0 rest] eqn:Es.
  destruct (Py.startswith ".harness.c" rest) eqn:Hp; [| exact Hrec].
  intros H. injection H as <-.
  apply span_digits_spec in Es as (E & Hd & _).
  apply startswith_iff in Hp as [after ->].
  exists "", after. split; [exact E |].
  destruct d0 as [|x d0].
  { simpl in E. injection E as -> _. discriminate Hc. }
  simpl in Hd. apply andb_true_iff in Hd as [Hx Hd].
  change (String x d0) with (String x "" +:+ d0).
  constructor; [now constructor | now apply digits_star].
Qed.

(** There are digits to find whenever the pattern has a match. *)
Lemma harness_number_complete (s : string) :
  search REGEX_HARNESS s = true -> exists d, harness_number s = Some d.
Proof.
  intros H. apply ReFacts.search_iff in H as (before & p & after & -> & Hm).
  apply ReFacts.inv_cat in Hm as (d & l & -> & Hd & Hl).
  apply ReFacts.inv_cat in Hd as (d1 & d2 & -> & Hd1 & Hd2).
  apply ReFacts.inv_cls in Hd1 as (c & -> & Hc).
  apply star_digits in Hd2. apply lit_inv in Hl as ->.
  destruct (harness_number (before +:+ ((String c "" +:+ d2) +:+ ".harness.c") +:+ after))
    as [d|] eqn:Hn; [now exists d |].
  exfalso. induction before as [|x before IH].
  - simpl in Hn. rewrite Hc in Hn.
    assert (Hs : span_digits (d2 +:+ ".harness.c" +:+ after)
                 = (d2, ".harness.c" +:+ after))
      by (apply span_digits_app; [exact Hd2 | reflexivity]).
    rewrite append_assoc in Hn. rewrite Hs in Hn. discriminate.
  - apply IH. simpl in Hn. now apply harness_number_tail in Hn.
Qed.

End HarnessNumber.

(** X1. [get_target_name] fails, with the [AttributeError] of calling
    [.group] on [None], exactly when the harness name has no place where
    digits are followed by [.harness.c]; when it returns, the name is
    [test_cex] followed by a non-empty run of digits that stands in the
    harness name right before [.harness.c]. *)
Theorem get_target_name_spec (harness_name : string) :
  (get_target_name harness_name = Raise AttributeError
   <-> Re.search REGEX_HARNESS harness_name = false)
  /\ (forall target, get_target_name harness_name = Ok target ->
        exists before d after,
          harness_name = before +:+ d +:+ ".harness.c" +:+ after
          /\ target = "test_cex" +:+ d
          /\ d <> "" /\ all_digits d = true).
Proof.
  unfold get_target_name. split; [split |].
  - destruct (harness_number harness_name) eqn:Hn; [discriminate |]. intros _.
    destruct (Re.search REGEX_HARNESS harness_name) eqn:Hs; [| reflexivity].
    apply harness_number_complete in Hs as [d Hd]. congruence.
  - intros Hs. destruct (harness_number harness_name) as [d|] eqn:Hn; [| reflexivity].
    apply harness_number_sound in Hn as (before & after & -> & Hm).
    assert (Ht : Re.search REGEX_HARNESS (before +:+ d +:+ ".harness.c" +:+ after) = true).
    { apply ReFacts.search_iff. exists before, (d +:+ ".harness.c"), after.
      split; [now rewrite append_assoc |].
      constructor; [exact Hm |]. apply ReFacts.fullmatch_iff. reflexivity. }
    congruence.
  - intros target. destruct (harness_number harness_name) as [d|] eqn:Hn;
      [| discriminate].
    intros H. injection H as <-.
    apply harness_number_sound in Hn as (before & after & -> & Hm).
    exists before, d, after. repeat split.
    + intros ->. apply ReFacts.inv_cat in Hm as (a & b & E & Ha & _).
      apply ReFacts.inv_cls in Ha as (c & -> & _). discriminate.
    + apply ReFacts.inv_cat in Hm as (a & b & -> & Ha & Hb).
      apply ReFacts.inv_cls in Ha as (c & -> & Hc). apply star_digits in Hb.
      simpl. now rewrite Hc.
Qed.

(** The second part applied to a harness in a directory whose name has
    digits of its own. *)
Lemma get_target_name_spec_witness :
  exists before d after,
    "out7/a12b34.harness.c" = before +:+ d +:+ ".harness.c" +:+ after
    /\ "test_cex34" = "test_cex" +:+ d
    /\ d <> "" /\ all_digits d = true.
Proof.
  apply (proj2 (get_target_name_spec "out7/a12b34.harness.c") "test_cex34").
  reflexivity.
Defined.

(** ** Finding and calling the generator *)

Section Generator.

Context {X : Type} (P : Platform X).

Lemma first_executable_some (w : World X) (name : string) (l : list string)
  (exe : string) :
  first_executable P w name l = Some exe ->
  exists earlier dir later,
    l = earlier ++ dir :: later
    /\ exe = Py.path_join (Py.strip is_quote dir) name
    /\ is_exe P exe w = true
    /\ forall d, In d earlier ->
         is_exe P (Py.path_join (Py.strip is_quote d) name) w = false.
Proof.
  induction l as [|dir l IH]; simpl; [discriminate |].
  destruct (is_exe P (Py.path_join (Py.strip is_quote dir) name) w) eqn:E.
  - intros H. injection H as <-. exists [], dir, l.
    repeat split; [exact E | intros d []].
  - intros H. destruct (IH H) as (earlier & d0 & later & -> & -> & He & Hn).
    exists (dir :: earlier), d0, later. repeat split; [exact He |].
    intros d [<-|Hd]; [exact E | now apply Hn].
Qed.

Lemma first_executable_none (w : World X) (name : string) (l : list string) :
  first_executable P w name l = None ->
  forall d, In d l -> is_exe P (Py.path_join (Py.strip is_quote d) name) w = false.
Proof.
  induction l as [|dir l IH]; simpl; [intros _ d [] |].
  destruct (is_exe P (Py.path_join (Py.strip is_quote dir) name) w) eqn:E;
    [discriminate |].
  intros H d [<-|Hd]; [exact E | now apply IH].
Qed.

Lemma list_remove_first (x : string) (front tail : list string) :
  ~ In x front -> Py.list_remove x (front ++ x :: tail) = front ++ tail.
Proof.
  induction front as [|y front IH]; simpl; intros Hn.
  - now rewrite String.eqb_refl.
  - destruct (String.eqb x y) eqn:E.
    + apply String.eqb_eq in E. subst y. exfalso. apply Hn. now left.
    + f_equal. apply IH. intros Hx. apply Hn. now right.
Qed.

(** Removing, one after the other, the first occurrence of each of
    [given] from a list that holds them in a row after a part free of
    them. *)
Lemma remove_in_a_row (given front back : list string) :
  (forall x, In x given -> ~ In x front) ->
  fold_left
    (fun cpachecker_args gcc_arg =>
       if Py.list_in gcc_arg cpachecker_args
       then Py.list_remove gcc_arg cpachecker_args
       else cpachecker_args)
    given (front ++ given ++ back)
  = front ++ back.
Proof.
  induction given as [|x given IH]; intros Hfree; [reflexivity |].
  cbn [fold_left app].
  assert (Hin : Py.list_in x (front ++ x :: given ++ back) = true).
  { apply list_in_In, in_or_app. right. now left. }
  rewrite Hin, list_remove_first; [| apply Hfree; now left].
  apply IH. intros y Hy. apply Hfree. now right.
Qed.

Lemma get_cpachecker_executable_state (s s' : State X) (r : result string) :
  get_cpachecker_executable P s = (r, s') -> s' = s.
Proof.
  unfold get_cpachecker_executable.
  destruct (first_executable P (world s) _ _); intros H; now injection H as _ <-.
Qed.

End Generator.

(** X2. [get_cpachecker_executable] leaves the state alone.  When it
    returns, the file is executable and is [cpa.sh] in the first of the
    candidate directories (those of [PATH] in order, then the script's
    directory, [.] and [./scripts], each with surrounding double quotes
    taken off) where such a file is executable; it raises the validation
    error exactly when [cpa.sh] is executable in none of them. *)
Theorem get_cpachecker_executable_search {X : Type} (P : Platform X) (s : State X) :
  (forall exe s',
      get_cpachecker_executable P s = (Ok exe, s') ->
      s' = s /\ is_exe P exe (world s) = true
      /\ exists earlier dir later,
           path_candidates P = earlier ++ dir :: later
           /\ exe = exe_in dir
           /\ forall d, In d earlier -> is_exe P (exe_in d) (world s) = false)
  /\ (forall e s',
         get_cpachecker_executable P s = (Raise e, s') ->
         s' = s
         /\ e = ValidationError "CPAchecker executable not found or not executable!"
         /\ forall d, In d (path_candidates P) ->
                      is_exe P (exe_in d) (world s) = false).
Proof.
  unfold get_cpachecker_executable. fold (path_candidates P).
  destruct (first_executable P (world s) "cpa.sh" (path_candidates P)) as [exe0|] eqn:E.
  - split; [| intros e s' H; discriminate].
    intros exe s' H. injection H as <- <-.
    apply first_executable_some in E as (earlier & dir & later & Hl & -> & He & Hn).
    split; [reflexivity |]. split; [exact He |].
    exists earlier, dir, later. auto.
  - split; [intros exe s' H; discriminate |].
    intros e s' H. injection H as <- <-. split; [reflexivity |].
    split; [reflexivity |]. now apply first_executable_none.
Qed.

(** The first part applied to a machine whose generator is in the second
    directory of [PATH]. *)
Lemma get_cpachecker_executable_search_witness :
  boot PRP_UNREACH = boot PRP_UNREACH
  /\ is_exe two_harness_machine "/usr/bin/cpa.sh" (world (boot PRP_UNREACH)) = true
  /\ exists earlier dir later,
       path_candidates two_harness_machine = earlier ++ dir :: later
       /\ "/usr/bin/cpa.sh" = exe_in dir
       /\ forall d, In d earlier ->
            is_exe two_harness_machine (exe_in d) (world (boot PRP_UNREACH)) = false.
Proof.
  apply (proj1 (get_cpachecker_executable_search two_harness_machine
                  (boot PRP_UNREACH)) "/usr/bin/cpa.sh" (boot PRP_UNREACH)).
  reflexivity.
Defined.

(** X3. When the command line is [front], then [-gcc-args], then the
    pass-through arguments, then [back], and nothing in [front] is
    [-gcc-args] or one of the pass-through arguments, the generator is
    called as the executable found, followed by [front], [back] and
    [-witness2test]: the compiler's arguments never reach it. *)
Theorem generator_command_drops_gcc_args {X : Type} (P : Platform X)
  (args : Args) (front back : list string) (s s' : State X) (cmd : list string) :
  argv P = front ++ "-gcc-args" :: gcc_args args ++ back ->
  (forall x, In x ("-gcc-args" :: gcc_args args) -> ~ In x front) ->
  create_harness_gen_cmd P args s = (Ok cmd, s') ->
  s' = s
  /\ exists exe,
       get_cpachecker_executable P s = (Ok exe, s)
       /\ cmd = exe :: front ++ back ++ ["-witness2test"].
Proof.
  intros Hargv Hfree H. unfold create_harness_gen_cmd in H.
  apply bind_ok in H as (exe & s0 & Hexe & H).
  pose proof (get_cpachecker_executable_state P _ _ _ Hexe) as ->.
  unfold ret in H. injection H as <- <-. split; [reflexivity |].
  exists exe. split; [exact Hexe |]. simpl. f_equal.
  unfold _create_cpachecker_args. rewrite Hargv.
  change (front ++ "-gcc-args" :: gcc_args args ++ back)
    with (front ++ ("-gcc-args" :: gcc_args args) ++ back).
  rewrite remove_in_a_row by exact Hfree. now rewrite <- app_assoc.
Qed.

(** The theorem applied to a command line with two pass-through
    arguments. *)
Lemma generator_command_drops_gcc_args_witness :
  boot PRP_UNREACH = boot PRP_UNREACH
  /\ exists exe,
       get_cpachecker_executable passthrough_machine (boot PRP_UNREACH)
       = (Ok exe, boot PRP_UNREACH)
       /\ [ "/usr/bin/cpa.sh"; "-spec"; "prop.prp"; "prog.c"; "-witness2test" ]
          = exe :: ["-spec"; "prop.prp"] ++ ["prog.c"] ++ ["-witness2test"].
Proof.
  apply (generator_command_drops_gcc_args passthrough_machine asan_args
           ["-spec"; "prop.prp"] ["prog.c"] (boot PRP_UNREACH) (boot PRP_UNREACH)).
  - reflexivity.
  - simpl. intros x [<-|[<-|[<-|[]]]] [H|[H|[]]]; discriminate.
  - reflexivity.
Defined.

(** ** Building and running the compile commands *)

(** X4. Building a compile command never changes the state.  It fails,
    with the validation error about the machine model, exactly when the
    machine model is neither [32bit] nor [64bit]; otherwise the command
    is the compiler found at that moment, the fixed alias flag, the
    pass-through arguments in their order, the one machine-model flag
    ([-m64] for [64bit], else [-m32]), the language standard, the
    sanitizer flags, and last [-o], the target, the harness and the
    program under test, in that order. *)
Theorem create_compile_cmd_outcome {X : Type} (P : Platform X)
  (harness target : string) (args : Args) (specification : list string)
  (c_version : string) (s : State X) :
  snd (create_compile_cmd P harness target args specification c_version s) = s
  /\ (machine_model args <> MACHINE_MODEL_64 ->
      machine_model args <> MACHINE_MODEL_32 ->
      fst (create_compile_cmd P harness target args specification c_version s)
      = Raise (ValidationError "Neither 32 nor 64 bit machine model specified"))
  /\ (forall cmd,
         fst (create_compile_cmd P harness target args specification c_version s)
         = Ok cmd ->
         (machine_model args = MACHINE_MODEL_64
          \/ machine_model args = MACHINE_MODEL_32)
         /\ cmd = compiler_in P (world s) :: "-D__alias__(x)=" :: gcc_args args
                  ++ [machine_flag args; "-std=" +:+ c_version]
                  ++ derived_flags specification
                  ++ ["-o"; target; harness; file args]).
Proof.
  split; [apply create_compile_cmd_state |].
  unfold create_compile_cmd, bind, shutil_which, lift, ret, _create_gcc_basic_args,
    machine_flag, derived_flags, compiler_in.
  destruct (String.eqb (machine_model args) MACHINE_MODEL_64) eqn:E64;
    [| destruct (String.eqb (machine_model args) MACHINE_MODEL_32) eqn:E32].
  - apply String.eqb_eq in E64. split; [intros H; contradiction |].
    destruct (Py.list_in SPEC_OVERFLOW specification);
      destruct (any_in [SPEC_MEM_FREE; SPEC_MEM_DEREF; SPEC_MEM_MEMTRACK] specification);
      intros cmd H; injection H as <-; (split; [now left |]);
      simpl; rewrite <- ?app_assoc; reflexivity.
  - apply String.eqb_eq in E32. split; [intros _ H; contradiction |].
    destruct (Py.list_in SPEC_OVERFLOW specification);
      destruct (any_in [SPEC_MEM_FREE; SPEC_MEM_DEREF; SPEC_MEM_MEMTRACK] specification);
      intros cmd H; injection H as <-; (split; [now right |]);
      simpl; rewrite <- ?app_assoc; reflexivity.
  - split; [reflexivity | intros cmd H; discriminate].
Qed.

(** The failure applied to a machine model that does not exist. *)
Lemma create_compile_cmd_outcome_witness :
  fst (create_compile_cmd two_harness_machine HARNESS_1 "output/test_cex1"
         (mkArgs "16bit" "output" false [] "prop.prp" "prog.c") [SPEC_REACH]
         "gnu11" (boot PRP_UNREACH))
  = Raise (ValidationError "Neither 32 nor 64 bit machine model specified").
Proof.
  apply (proj1 (proj2 (create_compile_cmd_outcome two_harness_machine HARNESS_1
                         "output/test_cex1"
                         (mkArgs "16bit" "output" false [] "prop.prp" "prog.c")
                         [SPEC_REACH] "gnu11" (boot PRP_UNREACH))));
    simpl; discriminate.
Defined.

(** X5. The compile attempts for one harness: the first uses the
    standard [gnu11]; the second, with [gnu90], is made only when the
    first exits with a non-zero code, and there is no third.  The
    harness counts as compiled when the last attempt made exits with
    zero, and as compiled with C11 when that was the first. *)
Theorem compile_fallback_once {X : Type} (P : Platform X)
  (harness exe_target : string) (args : Args) (specification : list string)
  (s s1 : State X) (compiled : option bool) :
  compile_harness P harness exe_target args specification s = (Ok compiled, s1) ->
  exists cmd1 r1,
    In "-std=gnu11" cmd1
    /\ ((returncode r1 = 0 /\ compiled = Some true
         /\ trace s1 = trace s ++ [Spawn (AtCompile harness) cmd1 r1])
        \/ (returncode r1 <> 0
            /\ exists cmd2 r2,
                 In "-std=gnu90" cmd2
                 /\ trace s1 = trace s ++ [Spawn (AtCompile harness) cmd1 r1;
                                           Spawn (AtCompile harness) cmd2 r2]
                 /\ compiled = if returncode r2 =? 0 then Some false else None)).
Proof.
  intros H. apply compile_harness_ok in H as (cmd1 & Hc1 & H). cbn zeta in H.
  assert (Hstd : forall cv st cmd,
             create_compile_cmd P harness exe_target args specification cv st
             = (Ok cmd, st) -> In ("-std=" +:+ cv) cmd).
  { intros cv st cmd Hc. apply create_compile_cmd_shape in Hc as (_ & m & _ & ->).
    rewrite !in_app_iff. right. right. right. right. left. now left. }
  exists cmd1, (fst (popen P cmd1 (world s))).
  split; [exact (Hstd _ _ _ Hc1) |].
  destruct H as [(Hr & -> & ->) | (Hr & cmd2 & Hc2 & -> & ->)].
  - left. auto.
  - right. split; [exact Hr |].
    exists cmd2, (fst (popen P cmd2 (snd (popen P cmd1 (world s))))).
    split; [exact (Hstd _ _ _ Hc2) |]. split; reflexivity.
Qed.

(** The theorem applied to the first harness of the two-harness run,
    whose first attempt fails. *)
Lemma compile_fallback_once_witness :
  exists cmd1 r1,
    In "-std=gnu11" cmd1
    /\ ((returncode r1 = 0 /\ Some false = Some true
         /\ trace (snd (compile_harness two_harness_machine HARNESS_1
                          "output/test_cex1" sample_args [SPEC_REACH] at_loop_start))
            = trace at_loop_start ++ [Spawn (AtCompile HARNESS_1) cmd1 r1])
        \/ (returncode r1 <> 0
            /\ exists cmd2 r2,
                 In "-std=gnu90" cmd2
                 /\ trace (snd (compile_harness two_harness_machine HARNESS_1
                                  "output/test_cex1" sample_args [SPEC_REACH]
                                  at_loop_start))
                    = trace at_loop_start ++ [Spawn (AtCompile HARNESS_1) cmd1 r1;
                                              Spawn (AtCompile HARNESS_1) cmd2 r2]
                 /\ Some false = if returncode r2 =? 0 then Some false else None)).
Proof.
  apply (compile_fallback_once two_harness_machine HARNESS_1 "output/test_cex1"
           sample_args [SPEC_REACH] at_loop_start).
  vm_compute. reflexivity.
Defined.

(** X6. An iteration of the loop that does not raise either skips its
    harness or tests it.  It skips it when both compile attempts exit
    with a non-zero code: then nothing but the count of harnesses tested
    changes, no test is run and no file is written, and the loop goes
    on.  Otherwise the count of compiled harnesses goes up by one and
    the test binary is run exactly once. *)
Theorem harness_skipped_or_tested {X : Type} (P : Platform X) (args : Args)
  (output_dir : string) (specification : list string) (harness : string)
  (v v' : LoopVars) (c : control) (s s' : State X) :
  loop_body P args output_dir specification harness v s = (Ok (c, v'), s') ->
  (c = Next /\ v' = count_iteration v
   /\ exists cmd1 r1 cmd2 r2,
        trace s' = trace s ++ [Spawn (AtCompile harness) cmd1 r1;
                               Spawn (AtCompile harness) cmd2 r2]
        /\ returncode r1 <> 0 /\ returncode r2 <> 0)
  \/ (compile_success_count v' = compile_success_count v + 1
      /\ iter_count v' = iter_count v + 1
      /\ exists new r,
           trace s' = trace s ++ new /\ test_runs new = [(harness, r)]).
Proof.
  intros H.
  pose proof (loop_body_trace P _ _ _ _ _ _ _ _ _ H) as (new & Htr & _ & Hcase).
  apply loop_body_ok in H as (target_name & compiled & s1 & _ & Hc & H).
  cbn zeta in H. destruct compiled as [c11|].
  - right. destruct H as [_ Hrec]. symmetry in Hrec.
    apply record_result_counters in Hrec as (E1 & E2 & _ & _).
    rewrite E1, E2. simpl. split; [reflexivity |]. split; [reflexivity |].
    destruct Hcase as [(_ & _ & Hv) | (c11' & r & Hruns & _)].
    + exfalso. rewrite Hv in E2. simpl in E2. lia.
    + exists new, r. auto.
  - left. destruct H as (-> & -> & ->). split; [reflexivity |].
    split; [reflexivity |].
    apply compile_harness_ok in Hc as (cmd1 & _ & Hc). cbn zeta in Hc.
    destruct Hc as [(_ & Hn & _) | (Hr1 & cmd2 & _ & Htr2 & Hn)];
      [discriminate |].
    exists cmd1, (fst (popen P cmd1 (world s))), cmd2,
      (fst (popen P cmd2 (snd (popen P cmd1 (world s))))).
    rewrite Htr2. split; [reflexivity |]. split; [exact Hr1 |].
    destruct (returncode (fst (popen P cmd2 (snd (popen P cmd1 (world s))))) =? 0)
      eqn:E; [discriminate |]. now apply Z.eqb_neq.
Qed.

(** The theorem applied to the harness that fails both attempts. *)
Lemma harness_skipped_or_tested_witness :
  let v' := mkLoopVars None None None 1 0 0 0 in
  let s' := snd (loop_body failing_machine sample_args "output" [SPEC_REACH]
                   HARNESS_1 initial_vars at_loop_start) in
  (Next = Next /\ v' = count_iteration initial_vars
   /\ exists cmd1 r1 cmd2 r2,
        trace s' = trace at_loop_start ++ [Spawn (AtCompile HARNESS_1) cmd1 r1;
                                           Spawn (AtCompile HARNESS_1) cmd2 r2]
        /\ returncode r1 <> 0 /\ returncode r2 <> 0)
  \/ (compile_success_count v' = compile_success_count initial_vars + 1
      /\ iter_count v' = iter_count initial_vars + 1
      /\ exists new r,
           trace s' = trace at_loop_start ++ new
           /\ test_runs new = [(HARNESS_1, r)]).
Proof.
  apply (harness_skipped_or_tested failing_machine sample_args "output"
           [SPEC_REACH] HARNESS_1 initial_vars).
  vm_compute. reflexivity.
Defined.

(** ** What the statistics count *)

Section Statistics.

Context {X : Type} (P : Platform X).
Variables (args : Args) (output_dir : string) (specification : list string).

Lemma record_result_reject (harness result : string) (p : option string)
  (v v' : LoopVars) (c : control) :
  record_result harness (result, p) v = (c, v') ->
  reject_count v'
  = reject_count v + Z.of_nat (Py.list_count RESULT_REJECT [result]).
Proof.
  unfold record_result. cbn [Py.list_count].
  rewrite (String.eqb_sym RESULT_REJECT result).
  destruct (String.eqb result RESULT_ACCEPT) eqn:E.
  - apply String.eqb_eq in E as ->. intros H. injection H as <- <-. simpl. lia.
  - destruct (String.eqb result RESULT_REJECT); intros H; injection H as <- <-;
      simpl; lia.
Qed.

(** One iteration, as the counters and the trace see it. *)
Lemma loop_body_account (h : string) (v v' : LoopVars) (c : control)
  (s s' : State X) :
  loop_body P args output_dir specification h v s = (Ok (c, v'), s') ->
  exists new,
    trace s' = trace s ++ new
    /\ iter_count v' = iter_count v + 1
    /\ compile_success_count v'
       = compile_success_count v + Z.of_nat (length (test_runs new))
    /\ reject_count v'
       = reject_count v
         + Z.of_nat (Py.list_count RESULT_REJECT (outcomes specification new))
    /\ c11_success_count v'
       = c11_success_count v + 2 - Z.of_nat (length (compile_commands new)).
Proof.
  intros H. apply loop_body_ok in H as (target_name & compiled & s1 & _ & Hc & H).
  cbn zeta in H.
  apply compile_harness_ok in Hc as (cmd1 & _ & Hc). cbn zeta in Hc.
  set (exe := output_dir +:+ Py.os_sep +:+ target_name) in *.
  destruct (capture_event_quiet (stdout_file output_dir)
              (stdout (fst (popen P [exe] (world s1))))) as (Q1 & C1 & _).
  destruct (capture_event_quiet (stderr_file output_dir)
              (stderr (fst (popen P [exe] (world s1))))) as (Q2 & C2 & _).
  destruct Hc as [(_ & -> & Hs1) | (_ & cmd2 & _ & Hs1 & ->)].
  - destruct H as [-> Hrec]. symmetry in Hrec.
    destruct (analyze_result (fst (popen P [exe] (world s1))) h specification)
      as [result p] eqn:Ea.
    pose proof (record_result_reject _ _ _ _ _ _ Hrec) as Hrej.
    apply record_result_counters in Hrec as (E1 & E2 & E3 & _).
    eexists. split.
    { unfold after_test. cbn [trace]. rewrite Hs1. cbn [trace].
      rewrite <- app_assoc. reflexivity. }
    unfold outcomes. rewrite !test_runs_app, !compile_commands_app, Q1, Q2, C1, C2.
    cbn. unfold classify. cbn. rewrite Ea, E1, E2, E3, Hrej. cbn.
    repeat split; lia.
  - destruct (returncode (fst (popen P cmd2 (snd (popen P cmd1 (world s))))) =? 0).
    + destruct H as [-> Hrec]. symmetry in Hrec.
      destruct (analyze_result (fst (popen P [exe] (world s1))) h specification)
        as [result p] eqn:Ea.
      pose proof (record_result_reject _ _ _ _ _ _ Hrec) as Hrej.
      apply record_result_counters in Hrec as (E1 & E2 & E3 & _).
      eexists. split.
      { unfold after_test. cbn [trace]. rewrite Hs1. cbn [trace].
        rewrite <- app_assoc. reflexivity. }
      unfold outcomes. rewrite !test_runs_app, !compile_commands_app, Q1, Q2, C1, C2.
      cbn. unfold classify. cbn. rewrite Ea, E1, E2, E3, Hrej. cbn.
      repeat split; lia.
    + destruct H as (_ & -> & ->). eexists. split; [rewrite Hs1; reflexivity |].
      cbn. repeat split; lia.
Qed.

Lemma counters_account_step (trace0 : list event) (done : list string)
  (h : string) (v v' : LoopVars) (c : control) (s s' : State X) :
  counters_account specification trace0 done v (trace s) ->
  loop_body P args output_dir specification h v s = (Ok (c, v'), s') ->
  counters_account specification trace0 (done ++ [h]) v' (trace s').
Proof.
  intros (new & Htr & Hi & Hc & Hr & H11) Hb.
  apply loop_body_account in Hb as (new1 & Htr1 & Ei & Ec & Er & E11).
  exists (new ++ new1). rewrite Htr1, Htr, app_assoc. split; [reflexivity |].
  rewrite outcomes_app, list_count_app, test_runs_app, compile_commands_app,
    !length_app. simpl. lia.
Qed.

End Statistics.

(** X7. What the counters of the loop stand for when the loop is left:
    the count of harnesses tested is the number of harnesses the loop
    looked at (all of them unless it was left by [break]); the count of
    compile successes is the number of test binaries run; the count of
    rejected harnesses is the number of test runs classified TRUE; and
    the count of C11 successes is twice the harnesses looked at minus
    the compile processes spawned, each harness taking one compile
    process when C11 works and two when it does not. *)
Theorem counters_meaning {X : Type} (P : Platform X) (args : Args)
  (output_dir : string) (specification : list string) (hs : list string)
  (c : control) (v : LoopVars) (s s' : State X) :
  for_harnesses P args output_dir specification hs initial_vars s
  = (Ok (c, v), s') ->
  exists used rest,
    hs = used ++ rest /\ (c = Next -> rest = [])
    /\ counters_account specification (trace s) used v (trace s').
Proof.
  intros H.
  apply (for_harnesses_invariant P args output_dir specification
           (fun done _ v s1 =>
              counters_account specification (trace s) done v (trace s1)))
    with (done := []) in H.
  - destruct H as (used & rest & Hs & Hacc & Hc). exists used, rest. auto.
  - intros done h v0 s0 c0 v1 s1. apply counters_account_step.
  - exists []. rewrite app_nil_r. repeat split.
Qed.

(** The theorem applied to the loop of the two-harness run: two
    harnesses, two tests, both not reproduced, three compile
    processes. *)
Lemma counters_meaning_witness :
  exists used rest,
    [HARNESS_1; HARNESS_2] = used ++ rest /\ (Next = Next -> rest = [])
    /\ counters_account [SPEC_REACH] (trace at_loop_start) used
         (mkLoopVars (Some RESULT_REJECT) None None 2 2 1 2)
         (trace (snd (for_harnesses two_harness_machine sample_args "output"
                        [SPEC_REACH] [HARNESS_1; HARNESS_2] initial_vars
                        at_loop_start))).
Proof.
  apply (counters_meaning two_harness_machine sample_args "output" [SPEC_REACH]
           [HARNESS_1; HARNESS_2] Next).
  vm_compute. reflexivity.
Defined.

(** ** More on the specification and the classifier *)

Lemma confirms_iff (specification : list string) (test_result : ExecutionResult)
  (t : PropertyTag) :
  confirms specification test_result t = true
  <-> active specification t /\ signature_met test_result t.
Proof.
  unfold confirms, active, signature_met.
  rewrite !andb_true_iff, list_in_In, Z.eqb_eq, str_in_iff. tauto.
Qed.

Lemma confirms_false (specification : list string) (test_result : ExecutionResult)
  (t : PropertyTag) :
  confirms specification test_result t = false
  <-> ~ (active specification t /\ signature_met test_result t).
Proof.
  rewrite <- confirms_iff.
  destruct (confirms specification test_result t); split; congruence.
Qed.

Section ClassifierFacts.

Variables (test_result : ExecutionResult) (harness : string)
          (specification : list string).

(** The first tag that is active and met is the one reported. *)
Lemma first_confirmed_result (t : PropertyTag) :
  first_confirmed specification test_result t ->
  analyze_result test_result harness specification
  = (RESULT_ACCEPT, Some (spec_name t)).
Proof.
  intros (Ha & Hm & Hfirst). rewrite analyze_result_unfold.
  destruct (registry_split t) as (pre & post & -> & Hpre).
  rewrite per_tag_results_app.
  change (t :: post) with ([t] ++ post). rewrite per_tag_results_app.
  unfold per_tag_results at 2. simpl.
  apply list_in_In in Ha. rewrite Ha, (values_accept _ _ _ Hm). simpl.
  apply verdict_of_first_accept. intros x Hx.
  rewrite (per_tag_results_unmet test_result harness specification pre) with (x := x);
    [destruct (returncode test_result =? 0); simpl; discriminate | | exact Hx].
  intros t' Ht'. apply Hfirst, Hpre, Ht'.
Qed.

(** With no tag both active and met, every per-tag result is the same
    and so is the verdict. *)
Lemma unconfirmed_result :
  (forall t, ~ (active specification t /\ signature_met test_result t)) ->
  analyze_result test_result harness specification
  = if Py.list_in RESULT_UNK
         (map fst (per_tag_results test_result harness specification registry))
    then (RESULT_UNK, None) else (RESULT_REJECT, None).
Proof.
  intros Hnone. rewrite analyze_result_unfold. unfold verdict_of.
  pose proof (per_tag_results_unmet test_result harness specification registry
                (fun t _ => Hnone t)) as Hall.
  assert (Hacc : Py.list_in RESULT_ACCEPT
                   (map fst (per_tag_results test_result harness specification
                               registry)) = false).
  { apply list_in_false. intros Hin. apply in_map_iff in Hin as (x & Hx & Hin).
    rewrite (Hall x Hin) in Hx.
    destruct (returncode test_result =? 0); discriminate. }
  now rewrite Hacc.
Qed.

(** Some tag is the first to be active and met, or none is. *)
Lemma first_confirmed_or_none :
  (exists t, first_confirmed specification test_result t)
  \/ (forall t, ~ (active specification t /\ signature_met test_result t)).
Proof.
  destruct (confirms specification test_result Reachability) eqn:C1;
    [left; exists Reachability |
     destruct (confirms specification test_result NoOverflow) eqn:C2;
     [left; exists NoOverflow |
      destruct (confirms specification test_result ValidFree) eqn:C3;
      [left; exists ValidFree |
       destruct (confirms specification test_result ValidDeref) eqn:C4;
       [left; exists ValidDeref |
        destruct (confirms specification test_result ValidMemtrack) eqn:C5;
        [left; exists ValidMemtrack | right]]]]].
  all: rewrite ?confirms_false in *; rewrite ?confirms_iff in *.
  1-5: match goal with
       | H : active _ ?t /\ signature_met _ ?t |- first_confirmed _ _ ?t =>
           destruct H as [Ha Hm]; split; [exact Ha |]; split; [exact Hm |];
           intros t' Hlt; destruct t'; simpl in Hlt; try lia; assumption
       end.
  intros t. destruct t; assumption.
Qed.

(** A confirmed result names the first tag that is active and met. *)
Lemma accept_is_first (p : option string) :
  analyze_result test_result harness specification = (RESULT_ACCEPT, p) ->
  exists t, first_confirmed specification test_result t /\ p = Some (spec_name t).
Proof.
  intros H. destruct first_confirmed_or_none as [[t Ht] | Hnone].
  - exists t. split; [exact Ht |].
    rewrite (first_confirmed_result t Ht) in H. now injection H as <-.
  - rewrite (unconfirmed_result Hnone) in H.
    destruct (Py.list_in RESULT_UNK _); discriminate.
Qed.

End ClassifierFacts.

(** X8. A specification the parser returns is never empty, holds no
    name twice, and is the registry's names, in registry order, of the
    tags whose pattern is found in the document; so the classifier is
    always handed a specification with an active property.  The parser
    leaves the state alone. *)
Theorem get_spec_wellformed {X : Type} (specification_file : string)
  (s s' : State X) (specification : list string) :
  get_spec specification_file s = (Ok specification, s') ->
  s' = s
  /\ specification <> []
  /\ List.NoDup specification
  /\ (exists raw,
        files (world s) !! specification_file = Some raw
        /\ specification
           = map spec_name
               (List.filter
                  (fun t => Re.search (recognize t) (Py.strip Py.isspace raw))
                  registry))
  /\ exists t, active specification t.
Proof.
  intros H. apply get_spec_ok in H as (-> & raw & Hfile & _ & -> & Hne).
  split; [reflexivity |]. split; [exact Hne |].
  assert (Hshape : matching_specifications (Py.strip Py.isspace raw)
                   = map spec_name
                       (List.filter
                          (fun t => Re.search (recognize t) (Py.strip Py.isspace raw))
                          registry)).
  { unfold matching_specifications, SPECIFICATIONS, registry.
    cbn [List.filter recognize].
    destruct (Re.search REGEX_REACH _), (Re.search REGEX_OVERFLOW _),
      (Re.search REGEX_MEM_FREE _), (Re.search REGEX_MEM_DEREF _),
      (Re.search REGEX_MEM_MEMTRACK _); reflexivity. }
  split; [| split].
  - rewrite Hshape. unfold registry. cbn [List.filter].
    destruct (Re.search (recognize Reachability) _),
      (Re.search (recognize NoOverflow) _), (Re.search (recognize ValidFree) _),
      (Re.search (recognize ValidDeref) _), (Re.search (recognize ValidMemtrack) _);
      cbn [map spec_name];
      repeat (apply List.NoDup_cons;
              [cbn [In]; intros Hin;
               repeat (destruct Hin as [Hin|Hin]; try discriminate Hin);
               exact Hin |]);
      apply List.NoDup_nil.
  - exists raw. split; [exact Hfile | exact Hshape].
  - destruct (matching_specifications (Py.strip Py.isspace raw)) as [|x l] eqn:E;
      [contradiction |].
    destruct (matching_specifications_names (Py.strip Py.isspace raw) x) as [t ->].
    { rewrite E. now left. }
    exists t. now left.
Qed.

(** The theorem applied to the memory-safety property file. *)
Lemma get_spec_wellformed_witness :
  boot PRP_MEMSAFETY = boot PRP_MEMSAFETY
  /\ [SPEC_MEM_FREE; SPEC_MEM_DEREF; SPEC_MEM_MEMTRACK] <> []
  /\ List.NoDup [SPEC_MEM_FREE; SPEC_MEM_DEREF; SPEC_MEM_MEMTRACK]
  /\ (exists raw,
        files (world (boot PRP_MEMSAFETY)) !! "prop.prp" = Some raw
        /\ [SPEC_MEM_FREE; SPEC_MEM_DEREF; SPEC_MEM_MEMTRACK]
           = map spec_name
               (List.filter
                  (fun t => Re.search (recognize t) (Py.strip Py.isspace raw))
                  registry))
  /\ exists t, active [SPEC_MEM_FREE; SPEC_MEM_DEREF; SPEC_MEM_MEMTRACK] t.
Proof.
  apply (get_spec_wellformed "prop.prp" (boot PRP_MEMSAFETY) (boot PRP_MEMSAFETY)).
  vm_compute. reflexivity.
Defined.

(** X9. The memory properties [valid-deref] and [valid-memtrack] expect
    the same exit code and the same diagnostic text, and [valid-deref]
    is checked first: when [valid-deref] is part of the specification,
    the classifier never reports [valid-memtrack] as the violated
    property. *)
Theorem memtrack_hidden_by_deref (test_result : ExecutionResult)
  (harness : string) (specification : list string) :
  In SPEC_MEM_DEREF specification ->
  analyze_result test_result harness specification
  <> (RESULT_ACCEPT, Some SPEC_MEM_MEMTRACK).
Proof.
  intros Hderef H. apply accept_is_first in H as (t & (Ha & Hm & Hfirst) & Hp).
  injection Hp as Hp.
  assert (t = ValidMemtrack) as -> by (destruct t; try discriminate Hp; reflexivity).
  apply (Hfirst ValidDeref); [simpl; lia |]. split; [exact Hderef | exact Hm].
Qed.

(** The theorem applied to the full memory-safety specification and a
    leak report. *)
Lemma memtrack_hidden_by_deref_witness :
  analyze_result
    (mkExecutionResult 1 "" "ERROR: AddressSanitizer: detected memory leaks")
    HARNESS_1 [SPEC_MEM_FREE; SPEC_MEM_DEREF; SPEC_MEM_MEMTRACK]
  <> (RESULT_ACCEPT, Some SPEC_MEM_MEMTRACK).
Proof.
  apply memtrack_hidden_by_deref. simpl. right. left. reflexivity.
Defined.

(** X10. What the exit code alone decides.  A test that exits with zero
    is never confirmed and never inconclusive: the verdict is TRUE, for
    any specification.  A specification with no known property gives
    TRUE for any test result.  With a known property in the
    specification, an exit code other than 0, 1 and 107 (a crash, a
    signal) gives UNKNOWN, and so does any non-zero exit code when
    nothing was written to the standard error. *)
Theorem verdict_by_exit_code (test_result : ExecutionResult) (harness : string)
  (specification : list string) :
  (returncode test_result = 0 ->
   analyze_result test_result harness specification = (RESULT_REJECT, None))
  /\ ((forall t, ~ active specification t) ->
      analyze_result test_result harness specification = (RESULT_REJECT, None))
  /\ ((exists t, active specification t) ->
      returncode test_result <> 0 ->
      (returncode test_result <> 1 /\ returncode test_result <> 107)
      \/ stderr test_result = "" ->
      analyze_result test_result harness specification = (RESULT_UNK, None)).
Proof.
  assert (Hempty : per_tag_results test_result harness specification registry = [] ->
                   analyze_result test_result harness specification
                   = (RESULT_REJECT, None)).
  { intros E. rewrite analyze_result_unfold, E. reflexivity. }
  assert (Hall : (forall t, ~ (active specification t /\ signature_met test_result t)) ->
                 per_tag_results test_result harness specification registry <> [] ->
                 analyze_result test_result harness specification
                 = if returncode test_result =? 0 then (RESULT_REJECT, None)
                   else (RESULT_UNK, None)).
  { intros Hnone Hne. rewrite analyze_result_unfold.
    pose proof (per_tag_results_unmet test_result harness specification registry
                  (fun t _ => Hnone t)) as Hres.
    destruct (returncode test_result =? 0).
    - apply verdict_of_all; [exact Hne | discriminate | now right | exact Hres].
    - apply verdict_of_all; [exact Hne | discriminate | now left | exact Hres]. }
  assert (Hnonempty : (exists t, active specification t) ->
                      per_tag_results test_result harness specification registry <> []).
  { intros [t0 Ha]. destruct (registry_split t0) as (pre & post & -> & _).
    rewrite per_tag_results_app. change (t0 :: post) with ([t0] ++ post).
    rewrite per_tag_results_app. unfold per_tag_results at 2. simpl.
    apply list_in_In in Ha. rewrite Ha.
    intros E. apply app_eq_nil in E as [_ E]. discriminate. }
  split; [| split].
  - intros Hrc.
    assert (Hd : per_tag_results test_result harness specification registry = []
                 \/ per_tag_results test_result harness specification registry <> []).
    { destruct (per_tag_results test_result harness specification registry);
        [now left | right; discriminate]. }
    destruct Hd as [E|E]; [now apply Hempty |].
    rewrite Hall, Hrc; [reflexivity | | exact E].
    intros t [_ [Hc _]]. rewrite Hrc in Hc. destruct t; discriminate.
  - intros Hnone. apply Hempty. unfold per_tag_results, registry. simpl.
    rewrite !(proj2 (list_in_false _ _)); [reflexivity | | | | |];
      [apply (Hnone ValidMemtrack) | apply (Hnone ValidDeref)
       | apply (Hnone ValidFree) | apply (Hnone NoOverflow)
       | apply (Hnone Reachability)].
  - intros Hsome Hrc Hcase.
    rewrite Hall; [| | now apply Hnonempty].
    + apply Z.eqb_neq in Hrc. now rewrite Hrc.
    + intros t [_ [Hc Hm]]. destruct Hcase as [[H1 H107] | Herr].
      * destruct t; simpl in Hc; congruence.
      * rewrite Herr in Hm. destruct Hm as (before & after & E).
        symmetry in E. apply append_eq_empty in E as [_ E].
        apply append_eq_empty in E as [E _]. destruct t; discriminate.
Qed.

(** The third part applied to a test killed by a signal. *)
Lemma verdict_by_exit_code_witness :
  analyze_result (mkExecutionResult (-11) "" "") HARNESS_1 [SPEC_OVERFLOW]
  = (RESULT_UNK, None).
Proof.
  apply (proj2 (proj2 (verdict_by_exit_code (mkExecutionResult (-11) "" "")
                         HARNESS_1 [SPEC_OVERFLOW]))).
  - exists NoOverflow. left. reflexivity.
  - discriminate.
  - left. split; discriminate.
Defined.

(** X11. The verdict depends on the specification only through the
    names in it, not on their order or on repetitions, and not on the
    harness path at all. *)
Theorem analyze_result_ignores_order (test_result : ExecutionResult)
  (harness1 harness2 : string) (specification1 specification2 : list string) :
  (forall x, In x specification1 <-> In x specification2) ->
  analyze_result test_result harness1 specification1
  = analyze_result test_result harness2 specification2.
Proof.
  intros Hsame.
  assert (Hin : forall x, Py.list_in x specification1 = Py.list_in x specification2).
  { intros x. destruct (Py.list_in x specification2) eqn:E.
    - apply list_in_In, Hsame, list_in_In, E.
    - apply list_in_false. apply list_in_false in E. intros Hx. apply E.
      now apply Hsame. }
  unfold analyze_result, check_if. now rewrite !Hin.
Qed.

(** The theorem applied to two orders of the memory properties. *)
Lemma analyze_result_ignores_order_witness :
  analyze_result (mkExecutionResult 1 "" "ERROR: AddressSanitizer: attempting free")
    HARNESS_1 [SPEC_MEM_FREE; SPEC_MEM_DEREF]
  = analyze_result (mkExecutionResult 1 "" "ERROR: AddressSanitizer: attempting free")
      HARNESS_2 [SPEC_MEM_DEREF; SPEC_MEM_FREE; SPEC_MEM_DEREF].
Proof.
  apply analyze_result_ignores_order.
  intros x. simpl. tauto.
Defined.

(** ** More on the run as a whole *)

Section Triples.

Context {X : Type}.
Variable E : exn -> Prop.

Lemma raises_only_ret {A : Type} (Q : A -> Prop) (a : A) :
  Q a -> raises_only (X := X) E Q (ret a).
Proof. intros Ha s r s' H. injection H as <- _. exact Ha. Qed.

Lemma raises_only_raise {A : Type} (Q : A -> Prop) (e : exn) :
  E e -> raises_only (X := X) E Q (raise e).
Proof. intros He s r s' H. injection H as <- _. exact He. Qed.

Lemma raises_only_bind {A B : Type} (Q : A -> Prop) (R : B -> Prop)
  (m : M X A) (k : A -> M X B) :
  raises_only E Q m -> (forall a, Q a -> raises_only E R (k a)) ->
  raises_only E R (bind m k).
Proof.
  intros Hm Hk s r s' H. unfold bind in H.
  destruct (m s) as [[a|e] s1] eqn:Em.
  - exact (Hk a (Hm _ _ _ Em) s1 r s' H).
  - injection H as <- _. exact (Hm _ _ _ Em).
Qed.

(** A computation that always returns. *)
Lemma raises_only_total {A : Type} (m : M X A) :
  (forall s, exists a, fst (m s) = Ok a) -> raises_only E (fun _ => True) m.
Proof.
  intros Hm s r s' H. destruct (Hm s) as [a Ha]. rewrite H in Ha. simpl in Ha.
  now subst r.
Qed.

End Triples.

Section Escapes.

Context {X : Type} (P : Platform X).
Hypothesis Hnamed : harnesses_well_named P.

Lemma escapes_bind {A B : Type} (m : M X A) (k : A -> M X B) :
  raises_only not_attribute_error (fun _ => True) m ->
  (forall a, raises_only not_attribute_error (fun _ => True) (k a)) ->
  raises_only not_attribute_error (fun _ => True) (bind m k).
Proof. intros Hm Hk. apply (raises_only_bind not_attribute_error (fun _ => True)); auto. Qed.

Lemma escapes_ret {A : Type} (a : A) : raises_only (X := X) not_attribute_error (fun _ => True) (ret a).
Proof. now apply raises_only_ret. Qed.

Lemma escapes_print (text : string) : raises_only (X := X) not_attribute_error (fun _ => True) (print text).
Proof. apply raises_only_total. intros s. now exists tt. Qed.

Lemma escapes_execute (origin : site) (command : list string) :
  raises_only not_attribute_error (fun _ => True) (execute P origin command).
Proof.
  apply raises_only_total. intros s. unfold execute.
  destruct (popen P command (world s)) as [r w]. now exists r.
Qed.

Lemma escapes_executable :
  raises_only not_attribute_error (fun _ => True) (get_cpachecker_executable P).
Proof.
  intros s r s' H. unfold get_cpachecker_executable in H.
  destruct (first_executable P (world s) _ _); injection H as <- _;
    [exact I | discriminate].
Qed.

Lemma escapes_create_compile_cmd (harness target : string) (args : Args)
  (specification : list string) (c_version : string) :
  raises_only not_attribute_error (fun _ => True)
    (create_compile_cmd P harness target args specification c_version).
Proof.
  intros s r s' H.
  unfold create_compile_cmd, bind, shutil_which, lift, ret,
    _create_gcc_basic_args in H.
  destruct (String.eqb (machine_model args) MACHINE_MODEL_64);
    [| destruct (String.eqb (machine_model args) MACHINE_MODEL_32)].
  3: { injection H as <- _. discriminate. }
  all: destruct (Py.list_in SPEC_OVERFLOW specification);
    destruct (any_in [SPEC_MEM_FREE; SPEC_MEM_DEREF; SPEC_MEM_MEMTRACK] specification);
    injection H as <- _; exact I.
Qed.

Lemma escapes_compile_harness (harness exe_target : string) (args : Args)
  (specification : list string) :
  raises_only not_attribute_error (fun _ => True)
    (compile_harness P harness exe_target args specification).
Proof.
  unfold compile_harness.
  apply escapes_bind; [apply escapes_create_compile_cmd |]. intros cmd1.
  apply escapes_bind; [apply escapes_execute |]. intros r1.
  destruct (negb (returncode r1 =? 0)); [| apply escapes_ret].
  apply escapes_bind; [apply escapes_create_compile_cmd |]. intros cmd2.
  apply escapes_bind; [apply escapes_execute |]. intros r2.
  destruct (negb (returncode r2 =? 0)); apply escapes_ret.
Qed.

Lemma escapes_loop_body (args : Args) (output_dir : string)
  (specification : list string) (harness : string) (v : LoopVars) :
  Re.search REGEX_HARNESS harness = true ->
  raises_only not_attribute_error (fun _ => True)
    (loop_body P args output_dir specification harness v).
Proof.
  intros Hname. unfold loop_body.
  apply harness_number_complete in Hname as [d Hd].
  unfold get_target_name. rewrite Hd.
  apply escapes_bind.
  { intros s r s' H. injection H as <- _. exact I. }
  intros target_name.
  apply escapes_bind; [apply escapes_compile_harness |]. intros [c11|].
  - apply escapes_bind.
    + apply raises_only_total. intros s. rewrite run_test_eq. eauto.
    + intros r. apply escapes_ret.
  - apply escapes_ret.
Qed.

Lemma escapes_for_harnesses (args : Args) (output_dir : string)
  (specification : list string) (hs : list string) (v : LoopVars) :
  (forall h, In h hs -> Re.search REGEX_HARNESS h = true) ->
  raises_only not_attribute_error (fun _ => True)
    (for_harnesses P args output_dir specification hs v).
Proof.
  revert v. induction hs as [|h hs IH]; intros v Hhs; [apply escapes_ret |].
  simpl. apply escapes_bind.
  - apply escapes_loop_body. apply Hhs. now left.
  - intros [[|] v1]; [| apply escapes_ret].
    apply IH. intros h' Hh'. apply Hhs. now right.
Qed.

Lemma escapes_print_statistics (statistics : list (string * Z)) :
  raises_only not_attribute_error (fun _ => True) (@print_statistics X statistics).
Proof.
  induction statistics as [|[prop value] rest IH]; simpl; [apply escapes_ret |].
  apply escapes_bind; [apply escapes_print | intros _; exact IH].
Qed.

Lemma escapes_run : raises_only not_attribute_error (fun _ => True) (run P).
Proof.
  unfold run. apply escapes_bind.
  { unfold _parse_args, get_cpachecker_version.
    apply escapes_bind; [| intros _; apply escapes_ret].
    apply escapes_bind; [apply escapes_executable |]. intros exe.
    apply escapes_bind; [apply escapes_execute |].
    intros r. apply escapes_ret. }
  intros args. apply escapes_bind.
  { intros s r s' H. destruct r as [spec|e]; [exact I |].
    apply get_spec_raises in H as [_ [[msg ->] | [path ->]]]; discriminate. }
  intros specification. apply escapes_bind.
  { unfold create_harness_gen_cmd.
    apply escapes_bind; [apply escapes_executable |].
    intros exe. apply escapes_ret. }
  intros cmd. apply escapes_bind; [apply escapes_execute |].
  intros r. apply escapes_bind; [apply escapes_print |]. intros _.
  apply (raises_only_bind not_attribute_error
           (fun hs => forall h, In h hs -> Re.search REGEX_HARNESS h = true)).
  { intros s r0 s' H. unfold find_harnesses in H. injection H as <- _.
    intros h Hh. exact (Hnamed _ _ _ Hh). }
  intros hs Hhs. apply escapes_bind; [now apply escapes_for_harnesses |].
  intros [c v].
  destruct (compile_success_count v =? 0);
    [apply raises_only_raise; discriminate |].
  apply escapes_bind.
  { destruct (stats args); [| apply escapes_ret].
    apply escapes_bind; [apply escapes_print |]. intros _.
    apply escapes_bind; [apply escapes_print_statistics |]. intros _.
    apply escapes_print. }
  intros _. apply escapes_bind.
  { destruct (Py.truthy_opt (successful_harness v));
      [apply escapes_print | apply escapes_ret]. }
  intros _. apply escapes_print.
Qed.

End Escapes.

Lemma first_executable_all_false {X : Type} (P : Platform X) (w : World X)
  (name : string) (l : list string) :
  (forall d, In d l -> is_exe P (Py.path_join (Py.strip is_quote d) name) w = false) ->
  first_executable P w name l = None.
Proof.
  induction l as [|dir l IH]; intros H; [reflexivity |]. simpl.
  rewrite (H dir (or_introl eq_refl)). apply IH. intros d Hd. apply H. now right.
Qed.

(** X12. When [cpa.sh] is executable in none of the candidate
    directories, the run ends at once in the error report: no process is
    spawned, no file is read or written, and the only line printed is
    [Verification result: ERROR.]. *)
Theorem missing_generator_ends_in_error {X : Type} (P : Platform X) (s : State X) :
  (forall d, In d (path_candidates P) -> is_exe P (exe_in d) (world s) = false) ->
  main P s
  = (None, mkState (world s) (trace s ++ [Print "Verification result: ERROR."])).
Proof.
  intros Hnone. apply generator_missing_reports_error.
  now apply first_executable_all_false.
Qed.

(** The theorem applied to a machine without the generator. *)
Lemma missing_generator_ends_in_error_witness :
  main (machine_without_generator sample_args sample_argv) (boot PRP_UNREACH)
  = (None, mkState (world (boot PRP_UNREACH))
             (trace (boot PRP_UNREACH) ++ [Print "Verification result: ERROR."])).
Proof.
  apply missing_generator_ends_in_error. intros d Hd. reflexivity.
Defined.

(** X13. A run that reaches a conclusion without having run a single
    test binary (no harness was found, or none compiled) ends in the
    line [Verification result: ERROR.]; a verdict is only ever printed
    after at least one test was run. *)
Theorem no_test_run_ends_in_error {X : Type} (P : Platform X) (s s' : State X) :
  main P s = (None, s') ->
  test_runs (trace s') = [] ->
  terminal_line (trace s') = Some "Verification result: ERROR.".
Proof. apply nothing_compiled_reports_error. Qed.

(** The theorem applied to the run whose only harness fails both compile
    attempts. *)
Lemma no_test_run_ends_in_error_witness :
  terminal_line (trace (snd (main failing_machine (boot PRP_UNREACH))))
  = Some "Verification result: ERROR.".
Proof.
  apply (no_test_run_ends_in_error failing_machine (boot PRP_UNREACH)).
  - vm_compute. reflexivity.
  - vm_compute. reflexivity.
Defined.



Example unnamed_harness_crashes :
  fst (main unnamed_machine (boot PRP_UNREACH)) = Some AttributeError
  /\ compile_commands (trace (snd (main unnamed_machine (boot PRP_UNREACH)))) = [].
Proof. split; vm_compute; reflexivity. Qed.

(** ** The capture files over the whole loop *)

Lemma last_capture_app (stream : ExecutionResult -> string)
  (runs1 runs2 : list (string * ExecutionResult)) (before : option string) :
  last_capture stream (runs1 ++ runs2) before
  = last_capture stream runs2 (last_capture stream runs1 before).
Proof. apply fold_left_app. Qed.

Section CaptureLoop.

Context {X : Type} (P : Platform X).
Variables (args : Args) (output_dir : string) (specification : list string).
Hypothesis Hprivate : capture_files_private P output_dir.

(** Compiling leaves the capture files alone and runs no test. *)
Lemma compile_harness_capture (harness exe_target : string) (s s1 : State X)
  (compiled : option bool) :
  compile_harness P harness exe_target args specification s = (Ok compiled, s1) ->
  files (world s1) !! stdout_file output_dir = files (world s) !! stdout_file output_dir
  /\ files (world s1) !! stderr_file output_dir
     = files (world s) !! stderr_file output_dir
  /\ exists new, trace s1 = trace s ++ new /\ test_runs new = [].
Proof.
  intros H. apply compile_harness_ok in H as (cmd1 & _ & H). simpl in H.
  destruct (Hprivate cmd1 (world s)) as [Ho1 He1].
  destruct H as [(_ & _ & ->) | (_ & cmd2 & _ & -> & _)]; simpl.
  - repeat split; [exact Ho1 | exact He1 |]. eexists. split; reflexivity.
  - destruct (Hprivate cmd2 (snd (popen P cmd1 (world s)))) as [Ho2 He2].
    repeat split; [congruence | congruence |]. eexists. split; reflexivity.
Qed.

Lemma loop_body_capture (harness : string) (v v' : LoopVars) (c : control)
  (s s' : State X) :
  loop_body P args output_dir specification harness v s = (Ok (c, v'), s') ->
  exists new,
    trace s' = trace s ++ new
    /\ files (world s') !! stdout_file output_dir
       = last_capture stdout (test_runs new) (files (world s) !! stdout_file output_dir)
    /\ files (world s') !! stderr_file output_dir
       = last_capture stderr (test_runs new) (files (world s) !! stderr_file output_dir).
Proof.
  intros H. apply loop_body_ok in H as (target_name & compiled & s1 & _ & Hc & H).
  cbv zeta in H.
  apply compile_harness_capture in Hc as (Ho & He & cev & Hcev & Hruns).
  destruct compiled as [c11|].
  - destruct H as [-> _].
    destruct (Hprivate [output_dir +:+ Py.os_sep +:+ target_name] (world s1))
      as [Ho1 He1].
    remember (output_dir +:+ Py.os_sep +:+ target_name) as exe eqn:Hexe.
    clear Hexe. destruct (popen P [exe] (world s1)) as [r w].
    cbn [fst snd] in *.
    destruct (capture_event_quiet (stdout_file output_dir) (stdout r)) as (Q1 & _).
    destruct (capture_event_quiet (stderr_file output_dir) (stderr r)) as (Q2 & _).
    pose proof (capture_files_differ output_dir) as Hne.
    assert (E1 : String.eqb (stderr_file output_dir) (stdout_file output_dir) = false)
      by (apply String.eqb_neq; congruence).
    assert (E2 : String.eqb (stdout_file output_dir) (stderr_file output_dir) = false)
      by (now apply String.eqb_neq).
    exists (cev ++ [Spawn (AtTest harness) [exe] r]
              ++ capture_event (stdout_file output_dir) (stdout r)
              ++ capture_event (stderr_file output_dir) (stderr r)).
    unfold after_test. cbn [world files trace].
    rewrite !test_runs_app, Hruns, Q1, Q2, app_nil_r.
    rewrite !lookup_capture, !String.eqb_refl, E1, E2.
    split; [rewrite Hcev; now rewrite <- app_assoc |].
    unfold last_capture. simpl.
    rewrite Ho1, He1, Ho, He.
    split; now destruct (Py.truthy (stdout r)), (Py.truthy (stderr r)).
  - destruct H as (_ & _ & ->). exists cev. rewrite Hruns.
    repeat split; assumption.
Qed.

End CaptureLoop.

(** X16. Provided no spawned process writes to the two capture files
    itself: when the loop over the harnesses is over, [stdout.txt] holds
    the standard output of the last test run that printed something,
    and [stderr.txt] the error output of the last test run that wrote
    some; a file no test run filled is as it was before the loop.  The
    two files need not come from the same test run. *)
Theorem capture_files_hold_last_nonempty {X : Type} (P : Platform X) (args : Args)
  (output_dir : string) (specification : list string) (harnesses : list string)
  (v v' : LoopVars) (c : control) (s : State X) :
  capture_files_private P output_dir ->
  fst (for_harnesses P args output_dir specification harnesses v s) = Ok (c, v') ->
  let s' := snd (for_harnesses P args output_dir specification harnesses v s) in
  exists new,
    trace s' = trace s ++ new
    /\ files (world s') !! stdout_file output_dir
       = last_capture stdout (test_runs new) (files (world s) !! stdout_file output_dir)
    /\ files (world s') !! stderr_file output_dir
       = last_capture stderr (test_runs new) (files (world s) !! stderr_file output_dir).
Proof.
  intros Hprivate H s'.
  assert (Hrun : for_harnesses P args output_dir specification harnesses v s
                 = (Ok (c, v'), s'))
    by (subst s'; rewrite <- H; apply surjective_pairing).
  clearbody s'. clear H.
  pose proof (for_harnesses_invariant P args output_dir specification
                (fun _ _ _ st =>
                   exists new,
                     trace st = trace s ++ new
                     /\ files (world st) !! stdout_file output_dir
                        = last_capture stdout (test_runs new)
                            (files (world s) !! stdout_file output_dir)
                     /\ files (world st) !! stderr_file output_dir
                        = last_capture stderr (test_runs new)
                            (files (world s) !! stderr_file output_dir))) as Hinv.
  destruct Hinv with (hs := harnesses) (done := @nil string) (v := v) (s := s)
    (c := c) (v' := v') (s' := s') as (_ & _ & _ & Hend & _).
  - intros done h v0 s0 c0 v1 s1 (new & Htr & Ho & He) Hb.
    apply (loop_body_capture P args output_dir specification Hprivate) in Hb
      as (step & Hstep & Ho1 & He1).
    exists (new ++ step). rewrite test_runs_app, !last_capture_app.
    rewrite Hstep, Htr, Ho1, He1, Ho, He. now rewrite <- app_assoc.
  - exists []. rewrite app_nil_r. repeat split.
  - exact Hrun.
  - exact Hend.
Qed.

(** The theorem applied to the loop of the two-harness run: the second
    test prints nothing, and the file keeps what the first printed. *)
Lemma capture_files_hold_last_nonempty_witness :
  let s' := snd (for_harnesses two_harness_machine sample_args "output"
                   [SPEC_REACH] [HARNESS_1; HARNESS_2] initial_vars at_loop_start) in
  exists new,
    trace s' = trace at_loop_start ++ new
    /\ files (world s') !! stdout_file "output"
       = last_capture stdout (test_runs new)
           (files (world at_loop_start) !! stdout_file "output")
    /\ files (world s') !! stderr_file "output"
       = last_capture stderr (test_runs new)
           (files (world at_loop_start) !! stderr_file "output").
Proof.
  apply (capture_files_hold_last_nonempty two_harness_machine sample_args "output"
           [SPEC_REACH] [HARNESS_1; HARNESS_2] initial_vars
           (mkLoopVars (Some RESULT_REJECT) None None 2 2 1 2) Next at_loop_start).
  - intros cmd w. split; reflexivity.
  - vm_compute. reflexivity.
Defined.

Example two_harness_stdout_is_first :
  let s' := snd (for_harnesses two_harness_machine sample_args "output"
                   [SPEC_REACH] [HARNESS_1; HARNESS_2] initial_vars at_loop_start) in
  last_capture stdout (test_runs (trace s')) None = Some "first"
  /\ files (world s') !! stdout_file "output" = Some "first".
Proof. split; vm_compute; reflexivity. Qed.

(** ** What a run prints *)

Section Output.

Context {X : Type} (P : Platform X).

Lemma parse_args_ok (s s1 : State X) (args : Args) :
  _parse_args P s = (Ok args, s1) ->
  args = parsed_args P /\ printed (trace s1) = printed (trace s).
Proof.
  unfold _parse_args, get_cpachecker_version. intros H.
  apply bind_ok in H as (u & s0 & Hv & Hret).
  unfold ret in Hret. injection Hret as <- <-. split; [reflexivity |].
  apply bind_ok in Hv as (exe & sa & Hexe & Hv).
  apply get_cpachecker_executable_state in Hexe as ->.
  apply bind_ok in Hv as (r & sb & Hex & Hret).
  unfold ret in Hret. injection Hret as _ <-.
  unfold execute in Hex. destruct (popen P [exe; "-help"] (world s)) as [r0 w].
  injection Hex as _ <-. simpl. rewrite printed_app. simpl. apply app_nil_r.
Qed.

Lemma print_statistics_ok (statistics : list (string * Z)) (s s' : State X)
  (r : result unit) :
  @print_statistics X statistics s = (r, s') ->
  r = Ok tt
  /\ printed (trace s')
     = printed (trace s)
       ++ map (fun pv => Py.tab +:+ fst pv +:+ ": " +:+ Py.str_of_int (snd pv))
            statistics.
Proof.
  revert s. induction statistics as [|[prop value] rest IH]; intros s; simpl.
  - intros H. injection H as <- <-. now rewrite app_nil_r.
  - unfold bind at 1. cbn [print emit]. intros H.
    apply IH in H as [-> ->]. split; [reflexivity |].
    cbn [trace]. rewrite printed_app. now rewrite <- app_assoc.
Qed.

(** The loop prints nothing. *)
Lemma loop_prints_nothing (specification : list string) (tr0 tr : list event)
  (done : list string) (c : control) (v : LoopVars) :
  loop_summary specification tr0 done c v tr -> printed tr = printed tr0.
Proof.
  intros (new & -> & Hown & _). rewrite printed_app.
  assert (Hnone : printed new = []).
  { clear -Hown. induction new as [|e new IH]; [reflexivity |].
    assert (He : exists h, In h done /\ event_of_harness h e)
      by (apply Hown; now left).
    assert (IH' : printed new = [])
      by (apply IH; intros e' He'; apply Hown; now right).
    destruct He as (h & _ & [He | (path & content & ->)]).
    - destruct e as [origin cmd r|text|path content]; [exact IH' | discriminate He
                                                       | exact IH'].
    - exact IH'. }
  rewrite Hnone. apply app_nil_r.
Qed.

Lemma loop_counters_ok (args : Args) (output_dir : string)
  (specification : list string) (hs : list string) (c : control) (v : LoopVars)
  (s s' : State X) :
  for_harnesses P args output_dir specification hs initial_vars s
  = (Ok (c, v), s') ->
  counters_ok (length hs) v.
Proof.
  intros H.
  apply (for_harnesses_invariant P args output_dir specification
           (fun done _ v _ => counters_ok (length done) v)) with (done := []) in H.
  - destruct H as (used & rest & -> & Hok & _). simpl in Hok.
    unfold counters_ok in *. rewrite length_app. lia.
  - intros done h v0 s0 c0 v1 s1 Hok Hb. rewrite length_app, Nat.add_1_r.
    exact (proj2 (loop_body_counters P _ _ _ _ _ _ _ _ _ Hb) _ Hok).
  - unfold counters_ok, initial_vars. simpl. lia.
Qed.

End Output.

(** X17. Everything a run that returns has printed, line by line: the
    error output of the harness generator; then, only with [-stats], the
    statistics block (a heading, the four figures in the order produced,
    tested, C11 compatible, rejected, and an empty line); then the line
    naming the successful harness, when there is one; then the verdict
    line.  Nothing else is printed, the loop over the harnesses in
    particular prints nothing.  The figures are those of the loop, at
    least one test was run, and tested is at most produced. *)
Theorem run_output {X : Type} (P : Platform X) (s s' : State X) (u : unit) :
  run P s = (Ok u, s') ->
  exists (command : list string) (generated : ExecutionResult)
         (harnesses : list string) (v : LoopVars),
    In (Spawn AtGenerate command generated) (trace s')
    /\ printed (trace s')
       = printed (trace s) ++ [stderr generated]
           ++ (if stats (parsed_args P)
               then statistics_lines (length harnesses) v else [])
           ++ closing_lines v
    /\ 0 < compile_success_count v
    /\ counters_ok (length harnesses) v.
Proof.
  unfold run. intros Hrun.
  apply bind_ok in Hrun as (args & sa & Hargs & Hrun).
  apply parse_args_ok in Hargs as [-> Hpa].
  apply bind_ok in Hrun as (specification & sb & Hspec & Hrun).
  apply get_spec_ok in Hspec as (-> & _).
  apply bind_ok in Hrun as (cmd & sc & Hcmd & Hrun).
  unfold create_harness_gen_cmd in Hcmd.
  apply bind_ok in Hcmd as (exe & sc0 & Hexe & Hret).
  apply get_cpachecker_executable_state in Hexe as ->.
  unfold ret in Hret. injection Hret as <- <-.
  apply bind_ok in Hrun as (r & sd & Hgen & Hrun).
  unfold execute in Hgen.
  destruct (popen P _ (world sa)) as [r0 w] eqn:Ep. injection Hgen as -> <-.
  apply bind_ok in Hrun as (u1 & se & Hp & Hrun).
  unfold print, emit in Hp. injection Hp as _ <-. cbn [world trace] in Hrun.
  apply bind_ok in Hrun as (hs & sf & Hfind & Hrun).
  unfold find_harnesses in Hfind. injection Hfind as <- <-.
  apply bind_ok in Hrun as ([c v] & sg & Hloop & Hrun).
  set (hs := glob P _ _) in *.
  pose proof (loop_counters_ok P _ _ _ _ _ _ _ _ Hloop) as Hok.
  apply for_harnesses_summary in Hloop as (used & rest & _ & Hsum & _).
  pose proof (loop_prints_nothing _ _ _ _ _ _ Hsum) as Hquiet.
  destruct Hsum as (new & Htr & _ & Hcount & _).
  destruct (compile_success_count v =? 0) eqn:Hzero; [discriminate |].
  apply Z.eqb_neq in Hzero.
  exists (exe :: _create_cpachecker_args P (parsed_args P)), r, hs, v.
  assert (Hpr : printed (trace s')
                = printed (trace sg)
                    ++ (if stats (parsed_args P)
                        then statistics_lines (length hs) v else [])
                    ++ closing_lines v
                /\ exists more, trace s' = trace sg ++ more).
  { apply bind_ok in Hrun as ([] & sh & Hstats & Hrun).
    apply bind_ok in Hrun as ([] & si & Hsucc & Hrun).
    apply print_ok in Hrun as [_ Hlast].
    assert (Hsi : printed (trace si)
                  = printed (trace sh)
                      ++ (if Py.truthy_opt (successful_harness v)
                          then ["Harness " +:+ percent_s (successful_harness v)
                                  +:+ " was successful."]
                          else [])
                  /\ exists more, trace si = trace sh ++ more).
    { destruct (Py.truthy_opt (successful_harness v)).
      - apply print_ok in Hsucc as [_ ->]. rewrite printed_app.
        split; [reflexivity | eauto].
      - injection Hsucc as <-. rewrite app_nil_r. split; [reflexivity |].
        exists []. now rewrite app_nil_r. }
    assert (Hsh : printed (trace sh)
                  = printed (trace sg)
                      ++ (if stats (parsed_args P)
                          then statistics_lines (length hs) v else [])
                  /\ exists more, trace sh = trace sg ++ more).
    { destruct (stats (parsed_args P)).
      - apply bind_ok in Hstats as ([] & sj & Hhead & Hstats).
        apply print_ok in Hhead as [_ Hhead].
        apply bind_ok in Hstats as ([] & sk & Hfig & Hstats).
        apply print_ok in Hstats as [_ Hblank].
        assert (Hsk : exists more, trace sk = trace sj ++ more).
        { clear -Hfig. cbn [app print_statistics] in Hfig.
          repeat (apply bind_ok in Hfig as ([] & ? & Hp & Hfig);
                  apply print_ok in Hp as [_ Hp]).
          unfold ret in Hfig. injection Hfig as <-.
          eexists. rewrite Hp. repeat (rewrite H0 || rewrite H1 || rewrite H2).
          rewrite <- !app_assoc. reflexivity. }
        apply print_statistics_ok in Hfig as [_ Hfig].
        split.
        + rewrite Hblank, printed_app, Hfig, Hhead, printed_app.
          rewrite <- !app_assoc. reflexivity.
        + destruct Hsk as [more Hsk]. rewrite Hblank, Hsk, Hhead.
          rewrite <- !app_assoc. eauto.
      - injection Hstats as <-. rewrite app_nil_r. split; [reflexivity |].
        exists []. now rewrite app_nil_r. }
    destruct Hsi as [Hsi [m1 Hm1]]. destruct Hsh as [Hsh [m2 Hm2]]. split.
    - rewrite Hlast, printed_app, Hsi, Hsh. unfold closing_lines.
      rewrite <- !app_assoc. reflexivity.
    - rewrite Hlast, Hm1, Hm2. rewrite <- !app_assoc. eauto. }
  destruct Hpr as [Hpr [more Hmore]].
  split; [| split; [| split; [| exact Hok]]].
  - rewrite Hmore, Htr. cbn [trace]. apply in_or_app. left. apply in_or_app. left.
    apply in_or_app. left. apply in_or_app. right. now left.
  - rewrite Hpr, Hquiet. cbn [trace]. rewrite !printed_app, <- Hpa.
    cbn. rewrite app_nil_r, <- !app_assoc. reflexivity.
  - lia.
Qed.

(** The theorem applied to the three-harness run with [-stats]. *)
Lemma run_output_witness :
  exists (command : list string) (generated : ExecutionResult)
         (harnesses : list string) (v : LoopVars),
    In (Spawn AtGenerate command generated)
       (trace (snd (run stats_machine (boot PRP_OVERFLOW))))
    /\ printed (trace (snd (run stats_machine (boot PRP_OVERFLOW))))
       = printed (trace (boot PRP_OVERFLOW)) ++ [stderr generated]
           ++ (if stats (parsed_args stats_machine)
               then statistics_lines (length harnesses) v else [])
           ++ closing_lines v
    /\ 0 < compile_success_count v
    /\ counters_ok (length harnesses) v.
Proof.
  apply (run_output stats_machine (boot PRP_OVERFLOW) _ tt).
  vm_compute. reflexivity.
Defined.

Example stats_run_report :
  printed (trace (snd (run stats_machine (boot PRP_OVERFLOW))))
  = [ "";
      Py.os_linesep +:+ "Statistics:";
      Py.tab +:+ "Harnesses produced: 3";
      Py.tab +:+ "Harnesses tested: 2";
      Py.tab +:+ "C11 compatible: 2";
      Py.tab +:+ "Harnesses rejected: 1";
      "";
      "Harness " +:+ HARNESS_2 +:+ " was successful.";
      "Verification result: FALSE. Property violation (no-overflow) found by chosen configuration." ].
Proof. vm_compute. reflexivity. Qed.

(** ** Flattening *)

Lemma flatten_from {A : Type} (list_of_lists : list (list A)) (acc : list A) :
  fold_left (fun acc l => acc ++ l) list_of_lists acc = acc ++ concat list_of_lists.
Proof.
  revert acc. induction list_of_lists as [|l rest IH]; intros acc; simpl.
  - now rewrite app_nil_r.
  - now rewrite IH, app_assoc.
Qed.

(** X15. [flatten] joins the lists it is given end to end, in the order
    given: nothing is dropped, repeated or reordered, so its length is
    the sum of the lengths, and flattening two sequences of lists one
    after the other is flattening each and joining the results. *)
Theorem flatten_joins_in_order {A : Type} (l1 l2 : list (list A)) :
  flatten l1 = concat l1
  /\ flatten (l1 ++ l2) = flatten l1 ++ flatten l2
  /\ length (flatten l1) = list_sum (map (@length A) l1).
Proof.
  unfold flatten. rewrite !flatten_from. cbn [app].
  split; [reflexivity |]. split; [apply concat_app |].
  apply length_concat.
Qed.
